(** * MorpheusHMD: the head-mounted-display driver of PSMoveService

    A shallow embedding of [src/psmoveservice/MorpheusHMD/MorpheusHMD.cpp]:
    the configuration loader, the sensor-frame decoder, the HID channel
    lifecycle, the bounded poll loop and the state history with lookback. *)

From Stdlib Require Import ZArith String List Bool Lia.
From Stdlib Require Import Strings.Byte.
From Stdlib Require Import Floats.SpecFloat.
Import ListNotations.

Local Open Scope Z_scope.

(** ** Machine integers *)

Module MachineInt.

(** Two's-complement reinterpretation of an integer on [bits] bits. *)
Definition wrap_signed (bits z : Z) : Z :=
  (z + 2 ^ (bits - 1)) mod 2 ^ bits - 2 ^ (bits - 1).

(** [static_cast<short>] and the arithmetic of [int], which wraps around
    on overflow as it does on the two's-complement targets of the service. *)
Definition to_short (z : Z) : Z := wrap_signed 16 z.
Definition to_int (z : Z) : Z := wrap_signed 32 z.

Definition INT_MIN : Z := - 2 ^ 31.
Definition INT_MAX : Z := 2 ^ 31 - 1.
Definition in_int (z : Z) : Prop := INT_MIN <= z <= INT_MAX.

(** Conversion of an [int] to the [size_type] of a container. *)
Definition size_t_bits : Z := 64.
Definition to_size_t (z : Z) : Z := z mod 2 ^ size_t_bits.

(** Value of an [unsigned char]. *)
Definition uchar (b : byte) : Z := Z.of_N (Byte.to_N b).

End MachineInt.
Import MachineInt.

(** ** Single-precision floating point

    [float] is IEEE-754 binary32: 24 bits of precision, exponents below 128. *)

Module Float32.

Definition prec : Z := 24.
Definition emax : Z := 128.

Definition float : Type := spec_float.

(** [static_cast<float>] of an integer, rounding to nearest even. *)
Definition of_int (z : Z) : float := binary_normalize prec emax z 0 false.

Definition mul (x y : float) : float := SFmul prec emax x y.

Definition zero : float := S754_zero false.

(** The integer a float denotes, when it denotes one. *)
Definition integer_value (f : float) : option Z :=
  match f with
  | S754_zero _ => Some 0
  | S754_finite s m e =>
      let n := if s then Z.neg m else Z.pos m in
      if 0 <=? e then Some (n * 2 ^ e)
      else if n mod 2 ^ (- e) =? 0 then Some (n / 2 ^ (- e)) else None
  | _ => None
  end.

End Float32.

(** ** Device configuration *)

(** Modelled from the spec: [eCommonTrackingColorID] is declared in
    DeviceInterface.h, which is not among the sources. The spec speaks of
    "an assigned tracking color identifier"; the colour names are those of
    the colour table in AppStage_TrackerSettings.cpp. *)
Inductive eCommonTrackingColorID : Type :=
  | INVALID_COLOR | Magenta | Cyan | Yellow | Red | Green | Blue.

Record CommonDeviceVector : Type := mkVector {
  v_i : Float32.float; v_j : Float32.float; v_k : Float32.float
}.

Record CommonDeviceVector_i : Type := mkVector_i { vi_i : Z; vi_j : Z; vi_k : Z }.

(** The fields [config2ptree] and [ptree2config] read and write. *)
Record MorpheusHMDConfig : Type := mkConfig {
  is_valid : bool;
  version : Z;
  accelerometer_gain : Float32.float;
  accelerometer_variance : Float32.float;
  gyro_gain : Float32.float;
  gyro_variance : Float32.float;
  gyro_drift : Float32.float;
  identity_gravity_direction : CommonDeviceVector;
  min_orientation_quality_screen_area : Float32.float;
  max_orientation_quality_screen_area : Float32.float;
  min_position_quality_screen_area : Float32.float;
  max_position_quality_screen_area : Float32.float;
  max_velocity : Float32.float;
  prediction_time : Float32.float;
  max_poll_failure_count : Z;
  tracking_color_id : eCommonTrackingColorID
}.

Definition CONFIG_VERSION : Z := 1.

(** ** Sensor frames *)

(** [unsigned char v[2]]: element 0, then element 1. *)
Definition byte2 : Type := (byte * byte)%type.

Record MorpheusRawSensorFrame : Type := mkRawSensorFrame {
  accel_x : byte2;
  accel_y : byte2;
  accel_z : byte2;
  gyro_x : byte2;
  gyro_y : byte2;
  gyro_z : byte2
}.

Record MorpheusHMDSensorFrame : Type := mkSensorFrame {
  RawAccel : CommonDeviceVector_i;
  RawGyro : CommonDeviceVector_i;
  CalibratedAccel : CommonDeviceVector;
  CalibratedGyro : CommonDeviceVector
}.

(** [static_cast<short>((v[1] << 8) | v[0])] *)
Definition piece_together (v : byte2) : Z :=
  to_short (Z.lor (Z.shiftl (uchar (snd v)) 8) (uchar (fst v))).

(** [MorpheusHMDSensorFrame::parse_data_input] *)
Definition parse_sensor_frame (config : MorpheusHMDConfig)
    (data_input : MorpheusRawSensorFrame) : MorpheusHMDSensorFrame :=
  let raw_accelX := piece_together (accel_x data_input) in
  let raw_accelY := piece_together (accel_y data_input) in
  let raw_accelZ := piece_together (accel_z data_input) in
  let raw_gyroX := piece_together (gyro_x data_input) in
  let raw_gyroY := piece_together (gyro_y data_input) in
  let raw_gyroZ := piece_together (gyro_z data_input) in
  {| RawAccel := mkVector_i (to_int raw_accelX) (to_int raw_accelY) (to_int raw_accelZ);
     RawGyro := mkVector_i (to_int raw_gyroX) (to_int raw_gyroY) (to_int raw_gyroZ);
     CalibratedAccel :=
       mkVector
         (Float32.mul (Float32.of_int raw_accelX) (accelerometer_gain config))
         (Float32.mul (Float32.of_int raw_accelY) (accelerometer_gain config))
         (Float32.mul (Float32.of_int raw_accelZ) (accelerometer_gain config));
     CalibratedGyro :=
       mkVector
         (Float32.mul (Float32.of_int raw_gyroX) (gyro_gain config))
         (Float32.mul (Float32.of_int raw_gyroY) (gyro_gain config))
         (Float32.mul (Float32.of_int raw_gyroZ) (gyro_gain config)) |}.

(** ** Input packets and decoded states *)

(** The packed input report; [Reset] zeroes it. *)
Record MorpheusDataInput : Type := mkDataInput {
  buttons : byte;
  unk0 : byte;
  volume : byte;
  unk1 : list byte;
  headsetFlags : byte;
  unkFlags : byte;
  unk2 : list byte;
  frame : byte2;
  imu_frame_0 : MorpheusRawSensorFrame;
  unk3 : list byte;
  imu_frame_1 : MorpheusRawSensorFrame
}.

Definition zero_raw_frame : MorpheusRawSensorFrame :=
  let z := (x00, x00) in mkRawSensorFrame z z z z z z.

Definition DataInput_Reset : MorpheusDataInput :=
  {| buttons := x00; unk0 := x00; volume := x00; unk1 := repeat x00 5;
     headsetFlags := x00; unkFlags := x00; unk2 := repeat x00 4;
     frame := (x00, x00);
     imu_frame_0 := zero_raw_frame; unk3 := repeat x00 4;
     imu_frame_1 := zero_raw_frame |}.

(** Modelled from the spec: [PollSequenceNumber] and [NextPollSequenceNumber]
    are declared in headers that are not among the sources. The spec calls
    them "a monotonically increasing sequence number"; they are modelled as
    mathematical integers. *)
Definition sequence_number : Type := Z.

Record MorpheusHMDState : Type := mkHMDState {
  PollSequenceNumber : sequence_number;
  SensorFrames : MorpheusHMDSensorFrame * MorpheusHMDSensorFrame
}.

(** [MorpheusHMDState::parse_data_input], on a state that already carries
    its sequence number. *)
Definition parse_data_input (seq : sequence_number) (config : MorpheusHMDConfig)
    (data_input : MorpheusDataInput) : MorpheusHMDState :=
  {| PollSequenceNumber := seq;
     SensorFrames := (parse_sensor_frame config (imu_frame_0 data_input),
                      parse_sensor_frame config (imu_frame_1 data_input)) |}.

(** ** The driver object *)

Definition hid_device : Type := nat.

Record MorpheusHIDDetails : Type := mkHIDDetails {
  device_identifier : string;
  sensor_device_path : string;
  sensor_device_handle : option hid_device;
  command_device_path : string;
  command_device_handle : option hid_device
}.

Definition HIDDetails_Reset : MorpheusHIDDetails :=
  {| device_identifier := EmptyString;
     sensor_device_path := EmptyString;
     sensor_device_handle := None;
     command_device_path := EmptyString;
     command_device_handle := None |}.

Record MorpheusHMD : Type := mkHMD {
  cfg : MorpheusHMDConfig;
  HIDDetails : MorpheusHIDDetails;
  NextPollSequenceNumber : sequence_number;
  InData : MorpheusDataInput;
  HMDStates : list MorpheusHMDState
}.

Definition set_HIDDetails (h : MorpheusHIDDetails) (d : MorpheusHMD) : MorpheusHMD :=
  mkHMD (cfg d) h (NextPollSequenceNumber d) (InData d) (HMDStates d).
Definition set_NextPollSequenceNumber (n : sequence_number) (d : MorpheusHMD) : MorpheusHMD :=
  mkHMD (cfg d) (HIDDetails d) n (InData d) (HMDStates d).
Definition set_InData (b : MorpheusDataInput) (d : MorpheusHMD) : MorpheusHMD :=
  mkHMD (cfg d) (HIDDetails d) (NextPollSequenceNumber d) b (HMDStates d).
Definition set_HMDStates (l : list MorpheusHMDState) (d : MorpheusHMD) : MorpheusHMD :=
  mkHMD (cfg d) (HIDDetails d) (NextPollSequenceNumber d) (InData d) l.

(** The constructor: fresh transport details, a zeroed input buffer, the
    counter at 0 and an empty history. The configuration's constructor is
    not among the sources, so the initial configuration is an argument. *)
Definition MorpheusHMD_new (cfg0 : MorpheusHMDConfig) : MorpheusHMD :=
  {| cfg := cfg0; HIDDetails := HIDDetails_Reset; NextPollSequenceNumber := 0;
     InData := DataInput_Reset; HMDStates := [] |}.

(** ** The environment of the driver

    The driver talks to hidapi, the server log and the configuration store.
    Their answers are scripted in [World]; their calls are recorded in
    [events], latest first. *)

Inductive log_level : Type := LogInfo | LogWarning | LogError.

Inductive event : Type :=
  | EvLog (level : log_level) (source : string)
  | EvSetNonblocking (h : hid_device)
  | EvClose (h : hid_device)
  | EvConfigSave (c : MorpheusHMDConfig).

Record World : Type := mkWorld {
  (** what [hid_open_path] answers for a path: a handle or null *)
  hid_paths : string -> option hid_device;
  (** what the coming [hid_read] calls on the sensor channel answer: the
      return value and the content of the buffer afterwards *)
  hid_input : list (Z * MorpheusDataInput);
  (** the text of [hid_error], when it converts to a multi-byte string *)
  hid_error_mbs : option string;
  events : list event
}.

Definition emit (e : event) (w : World) : World :=
  mkWorld (hid_paths w) (hid_input w) (hid_error_mbs w) (e :: events w).

Definition server_log (level : log_level) (source : string) (w : World) : World :=
  emit (EvLog level source) w.

Definition hid_open_path (path : string) (w : World) : option hid_device :=
  hid_paths w path.

Definition hid_set_nonblocking (h : hid_device) (w : World) : World :=
  emit (EvSetNonblocking h) w.

Definition hid_close (h : hid_device) (w : World) : World :=
  emit (EvClose h) w.

Definition set_hid_input (pending : list (Z * MorpheusDataInput)) (w : World) : World :=
  mkWorld (hid_paths w) pending (hid_error_mbs w) (events w).

(** A non-blocking read of the sensor channel, the only channel the driver
    reads: the next scripted answer, or 0 bytes and an untouched buffer
    when nothing is pending. *)
Definition hid_read (buf : MorpheusDataInput) (w : World)
    : Z * MorpheusDataInput * World :=
  match hid_input w with
  | [] => (0, buf, w)
  | (res, data) :: rest => (res, data, set_hid_input rest w)
  end.

(** [PSMoveConfig::save], which is not among the sources: it is recorded
    as an event. *)
Definition config_save (c : MorpheusHMDConfig) (w : World) : World :=
  emit (EvConfigSave c) w.

(** ** Loading the configuration *)

(** What the driver uses of [boost::property_tree::ptree]: typed lookups by
    path. [None] stands for a path that is absent or whose data does not
    translate to the requested type, the two cases in which
    [pt.get<T>(path, default)] answers [default]. *)
Class PropertyTree (ptree : Type) : Type := {
  get_optional_bool : ptree -> string -> option bool;
  get_optional_int : ptree -> string -> option Z;
  get_optional_long : ptree -> string -> option Z;
  get_optional_float : ptree -> string -> option Float32.float
}.

(** [pt.get<T>(path, default_value)] *)
Definition pt_get {ptree A : Type} (lookup : ptree -> string -> option A)
    (pt : ptree) (path : string) (default_value : A) : A :=
  match lookup pt path with
  | Some v => v
  | None => default_value
  end.

Section Config.

Context {ptree : Type} `{PropertyTree ptree}.

(** [PSMoveConfig::readTrackingColor] followed by the cast to the
    enumeration; the helper is not among the sources. *)
Variable readTrackingColor : ptree -> eCommonTrackingColorID.

Definition set_version (v : Z) (c : MorpheusHMDConfig) : MorpheusHMDConfig :=
  mkConfig (is_valid c) v (accelerometer_gain c) (accelerometer_variance c)
    (gyro_gain c) (gyro_variance c) (gyro_drift c) (identity_gravity_direction c)
    (min_orientation_quality_screen_area c) (max_orientation_quality_screen_area c)
    (min_position_quality_screen_area c) (max_position_quality_screen_area c)
    (max_velocity c) (prediction_time c) (max_poll_failure_count c)
    (tracking_color_id c).

(** [MorpheusHMDConfig::ptree2config], on the configuration object [c]. *)
Definition ptree2config (c : MorpheusHMDConfig) (pt : ptree) (w : World)
    : MorpheusHMDConfig * World :=
  let version' := pt_get get_optional_int pt "version" 0 in
  if version' =? CONFIG_VERSION then
    let g := identity_gravity_direction c in
    ({| is_valid := pt_get get_optional_bool pt "is_valid" false;
        version := version';
        prediction_time := pt_get get_optional_float pt "prediction_time" Float32.zero;
        max_poll_failure_count := pt_get get_optional_long pt "max_poll_failure_count" 100;
        accelerometer_gain :=
          pt_get get_optional_float pt "Calibration.Accel.Gain" (accelerometer_gain c);
        accelerometer_variance :=
          pt_get get_optional_float pt "Calibration.Accel.Variance" (accelerometer_variance c);
        gyro_gain := pt_get get_optional_float pt "Calibration.Gyro.Gain" (gyro_gain c);
        gyro_variance :=
          pt_get get_optional_float pt "Calibration.Gyro.Variance" (gyro_variance c);
        gyro_drift := pt_get get_optional_float pt "Calibration.Gyro.Drift" (gyro_drift c);
        min_orientation_quality_screen_area :=
          pt_get get_optional_float pt "OrientationFilter.MinQualityScreenArea"
            (min_orientation_quality_screen_area c);
        max_orientation_quality_screen_area :=
          pt_get get_optional_float pt "OrientationFilter.MaxQualityScreenArea"
            (max_orientation_quality_screen_area c);
        min_position_quality_screen_area :=
          pt_get get_optional_float pt "PositionFilter.MinQualityScreenArea"
            (min_position_quality_screen_area c);
        max_position_quality_screen_area :=
          pt_get get_optional_float pt "PositionFilter.MaxQualityScreenArea"
            (max_position_quality_screen_area c);
        max_velocity :=
          pt_get get_optional_float pt "PositionFilter.MaxVelocity" (max_velocity c);
        identity_gravity_direction :=
          mkVector
            (pt_get get_optional_float pt "Calibration.Identity.Gravity.X" (v_i g))
            (pt_get get_optional_float pt "Calibration.Identity.Gravity.Y" (v_j g))
            (pt_get get_optional_float pt "Calibration.Identity.Gravity.Z" (v_k g));
        tracking_color_id := readTrackingColor pt |},
     w)
  else
    (set_version version' c, server_log LogWarning "MorpheusHMDConfig" w).

End Config.

(** A concrete property tree for examples: paths bound to typed data. *)
Inductive pdata : Type :=
  | PBool (b : bool)
  | PInt (z : Z)
  | PFloat (f : Float32.float).

Definition document : Type := list (string * pdata).

Fixpoint doc_find (doc : document) (path : string) : option pdata :=
  match doc with
  | [] => None
  | (k, v) :: rest => if String.eqb k path then Some v else doc_find rest path
  end.

#[export] Instance document_tree : PropertyTree document := {|
  get_optional_bool doc path :=
    match doc_find doc path with Some (PBool b) => Some b | _ => None end;
  get_optional_int doc path :=
    match doc_find doc path with Some (PInt z) => Some z | _ => None end;
  get_optional_long doc path :=
    match doc_find doc path with Some (PInt z) => Some z | _ => None end;
  get_optional_float doc path :=
    match doc_find doc path with Some (PFloat f) => Some f | _ => None end
|}.

(** ** Lifecycle *)

Definition is_null (h : option hid_device) : bool :=
  match h with Some _ => false | None => true end.

(** [MorpheusHMD::getIsOpen] *)
Definition getIsOpen (d : MorpheusHMD) : bool :=
  negb (is_null (sensor_device_handle (HIDDetails d)))
  && negb (is_null (command_device_handle (HIDDetails d))).

(** [MorpheusHMD::getIsReadyToPoll] *)
Definition getIsReadyToPoll (d : MorpheusHMD) : bool := getIsOpen d.

(** [MorpheusHMD::close] *)
Definition close (d : MorpheusHMD) (w : World) : MorpheusHMD * World :=
  let details := HIDDetails d in
  if negb (is_null (sensor_device_handle details))
     || negb (is_null (command_device_handle details))
  then
    let w1 :=
      match sensor_device_handle details with
      | Some h => hid_close h (server_log LogInfo "MorpheusHMD::close" w)
      | None => w
      end in
    let w2 :=
      match command_device_handle details with
      | Some h => hid_close h (server_log LogInfo "MorpheusHMD::close" w1)
      | None => w1
      end in
    (set_InData DataInput_Reset (set_HIDDetails HIDDetails_Reset d), w2)
  else
    (d, server_log LogInfo "MorpheusHMD::close" w).

(** What [open] asks of the device enumerator. *)
Record HMDDeviceEnumerator : Type := mkEnumerator {
  get_path : string;
  get_interface_path : Z -> string
}.

Definition MORPHEUS_SENSOR_INTERFACE : Z := 4.
Definition MORPHEUS_COMMAND_INTERFACE : Z := 5.

(** [MorpheusHMD::open], the overload that is given an enumerator. *)
Definition open (pEnum : HMDDeviceEnumerator) (d : MorpheusHMD) (w : World)
    : bool * MorpheusHMD * World :=
  let cur_dev_path := get_path pEnum in
  if getIsOpen d then
    (true, d, server_log LogWarning "MorpheusHMD::open" w)
  else
    let w := server_log LogInfo "MorpheusHMD::open" w in
    let sensor_path := get_interface_path pEnum MORPHEUS_SENSOR_INTERFACE in
    let sensor_handle := hid_open_path sensor_path w in
    let w :=
      match sensor_handle with
      | Some h => hid_set_nonblocking h w
      | None => w
      end in
    let command_path := get_interface_path pEnum MORPHEUS_COMMAND_INTERFACE in
    let command_handle := hid_open_path command_path w in
    let w :=
      match command_handle with
      | Some h => hid_set_nonblocking h w
      | None => w
      end in
    let d :=
      set_HIDDetails
        {| device_identifier := cur_dev_path;
           sensor_device_path := sensor_path;
           sensor_device_handle := sensor_handle;
           command_device_path := command_path;
           command_device_handle := command_handle |} d in
    if getIsOpen d then
      let w := config_save (cfg d) w in
      (true, set_NextPollSequenceNumber 0 d, w)
    else
      let w := server_log LogError "MorpheusHMD::open" w in
      let '(d, w) := close d w in
      (false, d, w).

(** ** Polling *)

Inductive ePollResult : Type :=
  | _PollResultSuccessNoData
  | _PollResultSuccessNewData
  | _PollResultFailure.

Definition MORPHEUS_HMD_STATE_BUFFER_MAX : nat := 4.

(** "Make room for new entry if at the max queue size": erase the range
    from [begin()] to [begin() + size() - MORPHEUS_HMD_STATE_BUFFER_MAX]. *)
Definition make_room (states : list MorpheusHMDState) : list MorpheusHMDState :=
  if (MORPHEUS_HMD_STATE_BUFFER_MAX <=? length states)%nat
  then skipn (length states - MORPHEUS_HMD_STATE_BUFFER_MAX) states
  else states.

(** Make room, then [push_back]. *)
Definition push_state (states : list MorpheusHMDState) (newState : MorpheusHMDState)
    : list MorpheusHMDState :=
  make_room states ++ [newState].

(** The part of the loop body that follows a read of a packet. *)
Definition record_packet (d : MorpheusHMD) : MorpheusHMD :=
  let seq := NextPollSequenceNumber d in
  let d := set_NextPollSequenceNumber (seq + 1) d in
  let newState := parse_data_input seq (cfg d) (InData d) in
  set_HMDStates (push_state (HMDStates d) newState) d.

Definition k_max_iterations : nat := 32.

(** The error branch logs the text of [hid_error] when
    [convert_wcs_to_mbs] could convert it. *)
Definition log_hid_error (w : World) : World :=
  match hid_error_mbs w with
  | Some _ => server_log LogError "PSMoveController::readDataIn" w
  | None => w
  end.

(** The [for] loop of [poll], from iteration [iteration] with [remaining]
    iterations to go. *)
Fixpoint poll_loop (remaining : nat) (iteration : Z) (result : ePollResult)
    (d : MorpheusHMD) (w : World) : ePollResult * MorpheusHMD * World :=
  match remaining with
  | O => (result, d, w)
  | S remaining' =>
      let '(res, data, w) := hid_read (InData d) w in
      let d := set_InData data d in
      if res =? 0 then
        ((if iteration =? 0 then _PollResultSuccessNoData
          else _PollResultSuccessNewData), d, w)
      else if res <? 0 then
        (_PollResultFailure, d, log_hid_error w)
      else
        poll_loop remaining' (iteration + 1) _PollResultSuccessNewData
          (record_packet d) w
  end.

(** [MorpheusHMD::poll] *)
Definition poll (d : MorpheusHMD) (w : World) : ePollResult * MorpheusHMD * World :=
  if getIsOpen d then poll_loop k_max_iterations 0 _PollResultFailure d w
  else (_PollResultFailure, d, w).

(** ** Getters *)

(** [MorpheusHMD::getTrackingColorID]: the new content of the output
    parameter and the return value. *)
Definition getTrackingColorID (d : MorpheusHMD)
    (out_tracking_color_id : eCommonTrackingColorID)
    : eCommonTrackingColorID * bool :=
  (Blue, true).

(** A call either returns or throws [std::out_of_range]. *)
Inductive outcome (A : Type) : Type :=
  | Returns (a : A)
  | Throws_out_of_range.
Arguments Returns {A} a.
Arguments Throws_out_of_range {A}.

(** [HMDStates.at(n)], [n] of the container's size type. *)
Definition states_at (states : list MorpheusHMDState) (n : Z)
    : outcome MorpheusHMDState :=
  if n <? Z.of_nat (length states) then
    match nth_error states (Z.to_nat n) with
    | Some s => Returns s
    | None => Throws_out_of_range
    end
  else Throws_out_of_range.

(** [MorpheusHMD::getState]; [None] is the null pointer. *)
Definition getState (lookBack : Z) (d : MorpheusHMD)
    : outcome (option MorpheusHMDState) :=
  let queueSize := to_int (Z.of_nat (length (HMDStates d))) in
  if lookBack <? queueSize then
    match states_at (HMDStates d)
            (to_size_t (to_int (to_int (queueSize - lookBack) - 1))) with
    | Returns s => Returns (Some s)
    | Throws_out_of_range => Throws_out_of_range
    end
  else Returns None.

(** [MorpheusHMD::getMaxPollFailureCount] *)
Definition getMaxPollFailureCount (d : MorpheusHMD) : Z :=
  max_poll_failure_count (cfg d).

(** ** Reference definitions and sample data *)

(** The value of an axis in the words of the specification: the bytes
    read low first, [high * 256 + low] taken as a signed 16-bit number. *)
Definition signed16 (v : byte2) : Z :=
  let u := uchar (snd v) * 256 + uchar (fst v) in
  if u <? 32768 then u else u - 65536.

Definition exact_on (z : Z) : bool :=
  match Float32.integer_value (Float32.of_int z) with
  | Some z' => z' =? z
  | None => false
  end.

(** [exact_on] on each of the [2 ^ n] integers from [lo] on. *)
Fixpoint exact_from (n : nat) (lo : Z) : bool :=
  match n with
  | O => exact_on lo
  | S n' => exact_from n' lo && exact_from n' (lo + 2 ^ Z.of_nat n')
  end.

(** The last [n] elements of a list. *)
Definition last_n {A : Type} (n : nat) (l : list A) : list A :=
  skipn (length l - n) l.

(** One iteration that read a packet: the buffer filled, the packet
    recorded. *)
Definition ingest (d : MorpheusHMD) (data : MorpheusDataInput) : MorpheusHMD :=
  record_packet (set_InData data d).

Definition ingest_all (pkts : list (Z * MorpheusDataInput)) (d : MorpheusHMD)
    : MorpheusHMD :=
  fold_left ingest (map snd pkts) d.

(** The states decoded from successive packets, numbered from [seq]. *)
Fixpoint decode_all (c : MorpheusHMDConfig) (seq : sequence_number)
    (pkts : list (Z * MorpheusDataInput)) : list MorpheusHMDState :=
  match pkts with
  | [] => []
  | (_, data) :: rest => parse_data_input seq c data :: decode_all c (seq + 1) rest
  end.

(** [start], [start + 1], ... : [n] consecutive integers. *)
Fixpoint counting (start : Z) (n : nat) : list Z :=
  match n with
  | O => []
  | S n' => start :: counting (start + 1) n'
  end.

(** [d'] is [d] after the states [news] were numbered and appended, one
    after the other. *)
Definition appended (d d' : MorpheusHMD) (news : list MorpheusHMDState) : Prop :=
  HMDStates d' = fold_left push_state news (HMDStates d)
  /\ map PollSequenceNumber news = counting (NextPollSequenceNumber d) (length news)
  /\ NextPollSequenceNumber d' = NextPollSequenceNumber d + Z.of_nat (length news)
  /\ cfg d' = cfg d
  /\ HIDDetails d' = HIDDetails d.

(** A sensor frame in the words of the specification: each raw axis is
    the signed 16-bit reading of its byte pair, each calibrated axis that
    reading as a float times the gain of its sensor class. *)
Definition decoded_frame (config : MorpheusHMDConfig) (raw : MorpheusRawSensorFrame)
    : MorpheusHMDSensorFrame :=
  let cal (gain : Float32.float) (v : byte2) :=
    Float32.mul (Float32.of_int (signed16 v)) gain in
  {| RawAccel :=
       mkVector_i (signed16 (accel_x raw)) (signed16 (accel_y raw))
                  (signed16 (accel_z raw));
     RawGyro :=
       mkVector_i (signed16 (gyro_x raw)) (signed16 (gyro_y raw))
                  (signed16 (gyro_z raw));
     CalibratedAccel :=
       mkVector (cal (accelerometer_gain config) (accel_x raw))
                (cal (accelerometer_gain config) (accel_y raw))
                (cal (accelerometer_gain config) (accel_z raw));
     CalibratedGyro :=
       mkVector (cal (gyro_gain config) (gyro_x raw))
                (cal (gyro_gain config) (gyro_y raw))
                (cal (gyro_gain config) (gyro_z raw)) |}.

(** The entry for one packet: its number and its two decoded frames. *)
Definition decoded_state (seq : sequence_number) (config : MorpheusHMDConfig)
    (data : MorpheusDataInput) : MorpheusHMDState :=
  {| PollSequenceNumber := seq;
     SensorFrames := (decoded_frame config (imu_frame_0 data),
                      decoded_frame config (imu_frame_1 data)) |}.

(** The entries for a run of packets: one per packet, in the order read,
    numbered [seq], [seq + 1], ... *)
Definition decoded_states (config : MorpheusHMDConfig) (seq : sequence_number)
    (pkts : list (Z * MorpheusDataInput)) : list MorpheusHMDState :=
  map (fun '(n, p) => decoded_state n config (snd p))
    (combine (counting seq (length pkts)) pkts).

(** The history after the entries [news] were appended to [h]: unchanged
    when there are none, else the last five of the old entries followed by
    the new ones. *)
Definition history_after (h news : list MorpheusHMDState) : list MorpheusHMDState :=
  match news with
  | [] => h
  | _ :: _ => last_n 5 (h ++ news)
  end.

(** The device after the packets [pkts] were read and recorded, with
    [buffer] the last content of its input buffer: one entry per packet in
    the history, the counter moved on by their number, and nothing else
    changed. *)
Definition after_packets (d : MorpheusHMD) (pkts : list (Z * MorpheusDataInput))
    (buffer : MorpheusDataInput) : MorpheusHMD :=
  {| cfg := cfg d;
     HIDDetails := HIDDetails d;
     NextPollSequenceNumber := NextPollSequenceNumber d + Z.of_nat (length pkts);
     InData := buffer;
     HMDStates :=
       history_after (HMDStates d)
         (decoded_states (cfg d) (NextPollSequenceNumber d) pkts) |}.

(** [d'] is [d] after the entries [news], numbered from the counter of [d]
    in steps of 1, were appended to its history. *)
Definition recorded (d d' : MorpheusHMD) (news : list MorpheusHMDState) : Prop :=
  HMDStates d' = history_after (HMDStates d) news
  /\ map PollSequenceNumber news
     = counting (NextPollSequenceNumber d) (length news)
  /\ NextPollSequenceNumber d' = NextPollSequenceNumber d + Z.of_nat (length news).

(** The answers at the front of a queue that carry a packet, at most [n]
    of them. *)
Fixpoint readable (n : nat) (queue : list (Z * MorpheusDataInput))
    : list (Z * MorpheusDataInput) :=
  match n, queue with
  | S n', (res, data) :: rest =>
      if 0 <? res then (res, data) :: readable n' rest else []
  | _, _ => []
  end.

(** What can happen to a device while it stays open: polls, and calls of
    [open], in any environment. *)
Inductive stays_open : MorpheusHMD -> MorpheusHMD -> Prop :=
  | stays_here (d : MorpheusHMD) : stays_open d d
  | stays_poll (d d1 : MorpheusHMD) (w : World) :
      stays_open d d1 -> stays_open d (snd (fst (poll d1 w)))
  | stays_reopen (d d1 : MorpheusHMD) (e : HMDDeviceEnumerator) (w : World) :
      stays_open d d1 -> getIsOpen d1 = true ->
      stays_open d (snd (fst (open e d1 w))).

(** The devices the driver can be in after its constructor and any
    calls of [open], [poll] and [close], in any environment. *)
Inductive reachable : MorpheusHMD -> Prop :=
  | reach_new (cfg0 : MorpheusHMDConfig) : reachable (MorpheusHMD_new cfg0)
  | reach_open (d : MorpheusHMD) (e : HMDDeviceEnumerator) (w : World) :
      reachable d -> reachable (snd (fst (open e d w)))
  | reach_poll (d : MorpheusHMD) (w : World) :
      reachable d -> reachable (snd (fst (poll d w)))
  | reach_close (d : MorpheusHMD) (w : World) :
      reachable d -> reachable (fst (close d w)).

(** Sample data: a configuration, packets, an environment in which both
    channels of the headset open, and devices in a few states. *)
Module Sample.

Definition half : Float32.float := S754_finite false 8388608 (-24).
Definition one : Float32.float := Float32.of_int 1.

Definition config : MorpheusHMDConfig :=
  {| is_valid := true; version := 1;
     accelerometer_gain := half; accelerometer_variance := one;
     gyro_gain := one; gyro_variance := one; gyro_drift := one;
     identity_gravity_direction := mkVector Float32.zero one Float32.zero;
     min_orientation_quality_screen_area := one;
     max_orientation_quality_screen_area := one;
     min_position_quality_screen_area := one;
     max_position_quality_screen_area := one;
     max_velocity := one; prediction_time := Float32.zero;
     max_poll_failure_count := 100; tracking_color_id := Red |}.

Definition raw_frame : MorpheusRawSensorFrame :=
  mkRawSensorFrame (x34, x12) (xff, xff) (x00, x80) (x01, x00) (xff, x7f) (x00, x00).

Definition packet (n : byte) : MorpheusDataInput :=
  {| buttons := x00; unk0 := x00; volume := n; unk1 := repeat x00 5;
     headsetFlags := x01; unkFlags := x00; unk2 := repeat x00 4;
     frame := (n, x00);
     imu_frame_0 := raw_frame; unk3 := repeat x00 4;
     imu_frame_1 := zero_raw_frame |}.

Definition sensor_path : string := "hid#mi_04".
Definition command_path : string := "hid#mi_05".

Definition enumerator : HMDDeviceEnumerator :=
  {| get_path := "hid#morpheus";
     get_interface_path i :=
       if i =? MORPHEUS_SENSOR_INTERFACE then sensor_path else command_path |}.

Definition world (pending : list (Z * MorpheusDataInput)) : World :=
  {| hid_paths path :=
       if String.eqb path sensor_path then Some 1%nat
       else if String.eqb path command_path then Some 2%nat
       else None;
     hid_input := pending;
     hid_error_mbs := Some "device disconnected"%string;
     events := [] |}.

Definition closed_device : MorpheusHMD := MorpheusHMD_new config.

Definition open_device : MorpheusHMD :=
  snd (fst (open enumerator closed_device (world []))).

Definition three_packets : list (Z * MorpheusDataInput) :=
  [(44, packet x01); (44, packet x02); (44, packet x03)].

Definition five_packets : list (Z * MorpheusDataInput) :=
  three_packets ++ [(44, packet x04); (44, packet x05)].

(** The open device after a poll that found three packets. *)
Definition polled_device : MorpheusHMD :=
  snd (fst (poll open_device (world three_packets))).

End Sample.

(** What [close] leaves in the event record for one channel handle. *)
Definition closing_events (h : option hid_device) : list event :=
  match h with
  | Some h => [EvClose h; EvLog LogInfo "MorpheusHMD::close"]
  | None => []
  end.

(** The fields [ptree2config] reads with the current value of the field as
    the fallback, each with its path in the document. *)
Definition fields_defaulting_to_current
    : list (string * (MorpheusHMDConfig -> Float32.float)) :=
  [ ("Calibration.Accel.Gain"%string, accelerometer_gain);
    ("Calibration.Accel.Variance"%string, accelerometer_variance);
    ("Calibration.Gyro.Gain"%string, gyro_gain);
    ("Calibration.Gyro.Variance"%string, gyro_variance);
    ("Calibration.Gyro.Drift"%string, gyro_drift);
    ("OrientationFilter.MinQualityScreenArea"%string, min_orientation_quality_screen_area);
    ("OrientationFilter.MaxQualityScreenArea"%string, max_orientation_quality_screen_area);
    ("PositionFilter.MinQualityScreenArea"%string, min_position_quality_screen_area);
    ("PositionFilter.MaxQualityScreenArea"%string, max_position_quality_screen_area);
    ("PositionFilter.MaxVelocity"%string, max_velocity);
    ("Calibration.Identity.Gravity.X"%string, fun c => v_i (identity_gravity_direction c));
    ("Calibration.Identity.Gravity.Y"%string, fun c => v_j (identity_gravity_direction c));
    ("Calibration.Identity.Gravity.Z"%string, fun c => v_k (identity_gravity_direction c)) ].

(** ** Further operations of the driver *)

(** The characters of a [std::string] that [c_str] shows to [strcmp]:
    those before the first NUL. *)
Fixpoint c_str (s : string) : string :=
  match s with
  | EmptyString => EmptyString
  | String c rest =>
      if Ascii.eqb c Ascii.zero then EmptyString else String c (c_str rest)
  end.

(** [tolower] of the "C" locale, which [_stricmp] applies to each
    character. *)
Definition tolower (c : Ascii.ascii) : Ascii.ascii :=
  let n := Ascii.nat_of_ascii c in
  if ((65 <=? n) && (n <=? 90))%nat then Ascii.ascii_of_nat (n + 32) else c.

Fixpoint lowercase (s : string) : string :=
  match s with
  | EmptyString => EmptyString
  | String c rest => String (tolower c) (lowercase rest)
  end.

(** [MorpheusHMD::matchesDeviceEnumerator]. [same_type] is the outcome of
    [pEnum->get_device_type() == getDeviceType()], both sides of which are
    outside the sources; [win32] selects the branch compiled for Windows,
    which compares with [_stricmp] instead of [strcmp]. *)
Definition matchesDeviceEnumerator (win32 same_type : bool)
    (pEnum : HMDDeviceEnumerator) (d : MorpheusHMD) : bool :=
  if same_type then
    let enumerator_path := c_str (get_path pEnum) in
    let dev_path := c_str (device_identifier (HIDDetails d)) in
    if win32 then String.eqb (lowercase dev_path) (lowercase enumerator_path)
    else String.eqb dev_path enumerator_path
  else false.

(** [MorpheusHMD::getUSBDevicePath] *)
Definition getUSBDevicePath (d : MorpheusHMD) : string :=
  sensor_device_path (HIDDetails d).

(** [MorpheusHMD::open()], the overload without arguments. It builds an
    enumerator of Morpheus devices itself; [found] is that enumerator when
    it [is_valid]. *)
Definition open_default (found : option HMDDeviceEnumerator) (d : MorpheusHMD)
    (w : World) : bool * MorpheusHMD * World :=
  match found with
  | Some enumerator => open enumerator d w
  | None => (false, d, w)
  end.

(** [MorpheusHMD::~MorpheusHMD]: what it leaves in the environment. *)
Definition MorpheusHMD_delete (d : MorpheusHMD) (w : World) : World :=
  if getIsOpen d then server_log LogError "~MorpheusHMD" w else w.

(** What a device can become through any calls of [open], [poll] and
    [close], in any environment. *)
Inductive evolves : MorpheusHMD -> MorpheusHMD -> Prop :=
  | evolves_here (d : MorpheusHMD) : evolves d d
  | evolves_open (d d1 : MorpheusHMD) (e : HMDDeviceEnumerator) (w : World) :
      evolves d d1 -> evolves d (snd (fst (open e d1 w)))
  | evolves_poll (d d1 : MorpheusHMD) (w : World) :
      evolves d d1 -> evolves d (snd (fst (poll d1 w)))
  | evolves_close (d d1 : MorpheusHMD) (w : World) :
      evolves d d1 -> evolves d (fst (close d1 w)).

(** The byte pair of a 16-bit value, low byte first. *)
Definition bytes_of_short (z : Z) : Z * Z := (z mod 256, (z / 256) mod 256).

(** ** Saving the configuration *)

(** A property tree that can be written: [pt.put(path, value)], the
    value being a [bool], an [int] or [long], or a [float]. *)
Class WritableTree (ptree : Type) `{PropertyTree ptree} : Type := {
  empty_tree : ptree;
  put : ptree -> string -> pdata -> ptree
}.

(** What [config2ptree] and [ptree2config] need of [put] to undo each
    other: a value put at a path is found there under its type, and
    lookups at other paths are not disturbed. *)
Record lossless_tree (ptree : Type) `{WritableTree ptree} : Prop := {
  get_put_bool : forall (t : ptree) (p : string) (b : bool),
    get_optional_bool (put t p (PBool b)) p = Some b;
  get_put_int : forall (t : ptree) (p : string) (z : Z),
    get_optional_int (put t p (PInt z)) p = Some z;
  get_put_long : forall (t : ptree) (p : string) (z : Z),
    get_optional_long (put t p (PInt z)) p = Some z;
  get_put_float : forall (t : ptree) (p : string) (f : Float32.float),
    get_optional_float (put t p (PFloat f)) p = Some f;
  get_bool_other : forall (t : ptree) (p q : string) (v : pdata),
    p <> q -> get_optional_bool (put t p v) q = get_optional_bool t q;
  get_int_other : forall (t : ptree) (p q : string) (v : pdata),
    p <> q -> get_optional_int (put t p v) q = get_optional_int t q;
  get_long_other : forall (t : ptree) (p q : string) (v : pdata),
    p <> q -> get_optional_long (put t p v) q = get_optional_long t q;
  get_float_other : forall (t : ptree) (p q : string) (v : pdata),
    p <> q -> get_optional_float (put t p v) q = get_optional_float t q
}.

(** The paths [config2ptree] writes itself. *)
Definition config_paths : list string :=
  [ "is_valid"; "version";
    "Calibration.Accel.Gain"; "Calibration.Accel.Variance";
    "Calibration.Gyro.Gain"; "Calibration.Gyro.Variance"; "Calibration.Gyro.Drift";
    "Calibration.Identity.Gravity.X"; "Calibration.Identity.Gravity.Y";
    "Calibration.Identity.Gravity.Z";
    "OrientationFilter.MinQualityScreenArea"; "OrientationFilter.MaxQualityScreenArea";
    "PositionFilter.MinQualityScreenArea"; "PositionFilter.MaxQualityScreenArea";
    "PositionFilter.MaxVelocity"; "prediction_time"; "max_poll_failure_count" ]%string.

Section Save.

Context {ptree : Type} `{WritableTree ptree}.

(** [PSMoveConfig::writeTrackingColor], which is not among the sources. *)
Variable writeTrackingColor : ptree -> eCommonTrackingColorID -> ptree.

(** [MorpheusHMDConfig::config2ptree] *)
Definition config2ptree (c : MorpheusHMDConfig) : ptree :=
  let pt := empty_tree in
  let pt := put pt "is_valid" (PBool (is_valid c)) in
  let pt := put pt "version" (PInt CONFIG_VERSION) in
  let pt := put pt "Calibration.Accel.Gain" (PFloat (accelerometer_gain c)) in
  let pt := put pt "Calibration.Accel.Variance" (PFloat (accelerometer_variance c)) in
  let pt := put pt "Calibration.Gyro.Gain" (PFloat (gyro_gain c)) in
  let pt := put pt "Calibration.Gyro.Variance" (PFloat (gyro_variance c)) in
  let pt := put pt "Calibration.Gyro.Drift" (PFloat (gyro_drift c)) in
  let pt := put pt "Calibration.Identity.Gravity.X"
              (PFloat (v_i (identity_gravity_direction c))) in
  let pt := put pt "Calibration.Identity.Gravity.Y"
              (PFloat (v_j (identity_gravity_direction c))) in
  let pt := put pt "Calibration.Identity.Gravity.Z"
              (PFloat (v_k (identity_gravity_direction c))) in
  let pt := put pt "OrientationFilter.MinQualityScreenArea"
              (PFloat (min_orientation_quality_screen_area c)) in
  let pt := put pt "OrientationFilter.MaxQualityScreenArea"
              (PFloat (max_orientation_quality_screen_area c)) in
  let pt := put pt "PositionFilter.MinQualityScreenArea"
              (PFloat (min_position_quality_screen_area c)) in
  let pt := put pt "PositionFilter.MaxQualityScreenArea"
              (PFloat (max_position_quality_screen_area c)) in
  let pt := put pt "PositionFilter.MaxVelocity" (PFloat (max_velocity c)) in
  let pt := put pt "prediction_time" (PFloat (prediction_time c)) in
  let pt := put pt "max_poll_failure_count" (PInt (max_poll_failure_count c)) in
  writeTrackingColor pt (tracking_color_id c).

End Save.

(** Writing to a [document]: the binding of the path is replaced where
    there is one and added at the end otherwise. *)
Fixpoint doc_put (doc : document) (path : string) (v : pdata) : document :=
  match doc with
  | [] => [(path, v)]
  | (k, old) :: rest =>
      if String.eqb k path then (k, v) :: rest else (k, old) :: doc_put rest path v
  end.

#[export] Instance document_writable : WritableTree document := {|
  empty_tree := [];
  put := doc_put
|}.

(** More sample data: environments in which a channel of the headset
    does not open. *)
Module Scenario.

(** Only the sensor channel opens. *)
Definition sensor_only_world : World :=
  {| hid_paths path :=
       if String.eqb path Sample.sensor_path then Some 1%nat else None;
     hid_input := [];
     hid_error_mbs := None;
     events := [] |}.

(** No channel opens. *)
Definition unplugged_world : World :=
  {| hid_paths path := None;
     hid_input := [];
     hid_error_mbs := None;
     events := [] |}.

(** The sample device closed after its poll. *)
Definition closed_again : MorpheusHMD :=
  fst (close Sample.polled_device (Sample.world [])).

(** A configuration that differs from the sample one in every field that
    [ptree2config] defaults to the current value. *)
Definition other_config : MorpheusHMDConfig :=
  {| is_valid := false; version := 7;
     accelerometer_gain := Sample.one; accelerometer_variance := Sample.half;
     gyro_gain := Sample.half; gyro_variance := Sample.half;
     gyro_drift := Sample.half;
     identity_gravity_direction := mkVector Sample.one Sample.half Sample.one;
     min_orientation_quality_screen_area := Sample.half;
     max_orientation_quality_screen_area := Sample.half;
     min_position_quality_screen_area := Sample.half;
     max_position_quality_screen_area := Sample.half;
     max_velocity := Sample.half; prediction_time := Sample.one;
     max_poll_failure_count := 3; tracking_color_id := Green |}.

End Scenario.

(** [writeTrackingColor] leaves alone what [config2ptree] wrote before
    calling it. *)
Definition keeps_config_paths {ptree : Type} `{PropertyTree ptree}
    (writeTrackingColor : ptree -> eCommonTrackingColorID -> ptree) : Prop :=
  forall (t : ptree) (colour : eCommonTrackingColorID) (path : string),
    In path config_paths ->
    get_optional_bool (writeTrackingColor t colour) path = get_optional_bool t path
    /\ get_optional_int (writeTrackingColor t colour) path = get_optional_int t path
    /\ get_optional_long (writeTrackingColor t colour) path = get_optional_long t path
    /\ get_optional_float (writeTrackingColor t colour) path
       = get_optional_float t path.

(** A colour written to and read from a [document], for examples. *)
Module ColourCodec.

Definition code (colour : eCommonTrackingColorID) : Z :=
  match colour with
  | INVALID_COLOR => -1
  | Magenta => 0 | Cyan => 1 | Yellow => 2 | Red => 3 | Green => 4 | Blue => 5
  end.

Definition write (doc : document) (colour : eCommonTrackingColorID) : document :=
  doc_put doc "tracking_color" (PInt (code colour)).

Definition read (doc : document) : eCommonTrackingColorID :=
  match doc_find doc "tracking_color" with
  | Some (PInt 0) => Magenta
  | Some (PInt 1) => Cyan
  | Some (PInt 2) => Yellow
  | Some (PInt 3) => Red
  | Some (PInt 4) => Green
  | Some (PInt 5) => Blue
  | _ => INVALID_COLOR
  end.

End ColourCodec.

(** The sequence numbers in the history are consecutive and end one below
    the counter. *)
Definition consecutive_history (d : MorpheusHMD) : Prop :=
  map PollSequenceNumber (HMDStates d)
  = counting (NextPollSequenceNumber d - Z.of_nat (length (HMDStates d)))
      (length (HMDStates d)).

(** * AppStage_TrackerSettings: the tracker settings stage of the
    configuration tool

    A shallow embedding of
    [src/psmoveconfigtool/AppStage_TrackerSettings.cpp]: the menu state, the
    three device lists with their selected indices, the handlers of the
    list responses and the part of the two render functions that reads the
    lists, moves the indices and leaves the stage. ImGui calls that only
    lay out or print are left out. *)

Module TrackerSettings.

Inductive eTrackerMenuState : Type :=
  | inactive
  | idle
  | pendingSearchForNewTrackersRequest
  | pendingTrackerListRequest
  | failedTrackerListRequest
  | pendingControllerListRequest
  | failedControllerListRequest
  | pendingHmdListRequest
  | failedHmdListRequest.

Definition eTrackerMenuState_eqb (a b : eTrackerMenuState) : bool :=
  match a, b with
  | inactive, inactive
  | idle, idle
  | pendingSearchForNewTrackersRequest, pendingSearchForNewTrackersRequest
  | pendingTrackerListRequest, pendingTrackerListRequest
  | failedTrackerListRequest, failedTrackerListRequest
  | pendingControllerListRequest, pendingControllerListRequest
  | failedControllerListRequest, failedControllerListRequest
  | pendingHmdListRequest, pendingHmdListRequest
  | failedHmdListRequest, failedHmdListRequest => true
  | _, _ => false
  end.

(** The enumerators this file names; its switches assert that there are no
    others. *)
Inductive eTrackerType : Type := PS3Eye.
Inductive eTrackerDriver : Type := LIBUSB | CL_EYE | CL_EYE_MULTICAM | GENERIC_WEBCAM.

Record ClientTrackerInfo : Type := mkTrackerInfo {
  tracker_id : Z;
  tracker_type : eTrackerType;
  tracker_driver : eTrackerDriver;
  shared_memory_name : string;
  device_path : string
}.

Inductive eControllerType : Type := PSMove | PSNavi | PSDualShock4.

Record ControllerInfo : Type := mkControllerInfo {
  ControllerID : Z;
  ControllerType : eControllerType;
  ControllerTrackingColorType : Z
}.

Inductive eHMDViewType : Type := Morpheus.

Record HMDInfo : Type := mkHMDInfo {
  HmdID : Z;
  HmdType : eHMDViewType;
  HmdTrackingColorType : Z
}.

(** The entries of the protocol's controller and HMD lists. *)
Inductive Protocol_ControllerType : Type := PSMOVE | PSNAVI | PSDUALSHOCK4.

Record Protocol_Controller : Type := mkProtocolController {
  controller_id : Z;
  controller_type : Protocol_ControllerType;
  controller_tracking_color_type : Z
}.

Inductive Protocol_HMDType : Type := Protocol_Morpheus.

Record Protocol_HMD : Type := mkProtocolHMD {
  hmd_id : Z;
  hmd_type : Protocol_HMDType;
  hmd_tracking_color_type : Z
}.

Inductive eClientPSMoveResultCode : Type :=
  | _clientPSMoveResultCode_ok
  | _clientPSMoveResultCode_error
  | _clientPSMoveResultCode_canceled.

(** What the handlers read of a response message: the result code, the
    tracker list when the payload is one, and the controller and HMD lists
    of the protocol response, which are empty when the response has
    none. *)
Record ResponseMessage : Type := mkResponse {
  result_code : eClientPSMoveResultCode;
  payload_tracker_list : option (list ClientTrackerInfo);
  result_controller_list : list Protocol_Controller;
  result_hmd_list : list Protocol_HMD
}.

Inductive eEventType : Type := controllerListUpdated | otherEvent.

(** The stages [renderUI] can switch to. *)
Inductive stage_name : Type :=
  | Stage_TestTracker
  | Stage_DistortionCalibration
  | Stage_ColorCalibration
  | Stage_MainMenu.

(** What the stage does to the application and the client API. *)
Inductive action : Type :=
  | SetCameraFixed
  | SendTrackerListRequest
  | SendControllerListRequest
  | SendHmdListRequest
  | SendSearchForNewTrackersRequest
  | SetAppStage (name : stage_name)
  | SetOverrideControllerId (id : Z)
  | SetOverrideHmdId (id : Z)
  | SetOverrideTrackingColor (colour : Z)
  | EnterStageAndCalibrate (controllerID : Z)
  | EnterStageAndSkipCalibration (controllerID : Z)
  | DrawPS3EyeModel.

Record AppStage_TrackerSettings : Type := mkStage {
  m_menuState : eTrackerMenuState;
  m_trackerInfos : list ClientTrackerInfo;
  m_controllerInfos : list ControllerInfo;
  m_hmdInfos : list HMDInfo;
  m_selectedTrackerIndex : Z;
  m_selectedControllerIndex : Z;
  m_selectedHmdIndex : Z
}.

(** The constructor. *)
Definition new_stage : AppStage_TrackerSettings :=
  {| m_menuState := inactive;
     m_trackerInfos := []; m_controllerInfos := []; m_hmdInfos := [];
     m_selectedTrackerIndex := -1;
     m_selectedControllerIndex := -1;
     m_selectedHmdIndex := -1 |}.

Definition set_menuState (v : eTrackerMenuState) (s : AppStage_TrackerSettings) :=
  mkStage v (m_trackerInfos s) (m_controllerInfos s) (m_hmdInfos s)
    (m_selectedTrackerIndex s) (m_selectedControllerIndex s) (m_selectedHmdIndex s).
Definition set_trackerInfos (v : list ClientTrackerInfo) (s : AppStage_TrackerSettings) :=
  mkStage (m_menuState s) v (m_controllerInfos s) (m_hmdInfos s)
    (m_selectedTrackerIndex s) (m_selectedControllerIndex s) (m_selectedHmdIndex s).
Definition set_controllerInfos (v : list ControllerInfo) (s : AppStage_TrackerSettings) :=
  mkStage (m_menuState s) (m_trackerInfos s) v (m_hmdInfos s)
    (m_selectedTrackerIndex s) (m_selectedControllerIndex s) (m_selectedHmdIndex s).
Definition set_hmdInfos (v : list HMDInfo) (s : AppStage_TrackerSettings) :=
  mkStage (m_menuState s) (m_trackerInfos s) (m_controllerInfos s) v
    (m_selectedTrackerIndex s) (m_selectedControllerIndex s) (m_selectedHmdIndex s).
Definition set_selectedTrackerIndex (v : Z) (s : AppStage_TrackerSettings) :=
  mkStage (m_menuState s) (m_trackerInfos s) (m_controllerInfos s) (m_hmdInfos s)
    v (m_selectedControllerIndex s) (m_selectedHmdIndex s).
Definition set_selectedControllerIndex (v : Z) (s : AppStage_TrackerSettings) :=
  mkStage (m_menuState s) (m_trackerInfos s) (m_controllerInfos s) (m_hmdInfos s)
    (m_selectedTrackerIndex s) v (m_selectedHmdIndex s).
Definition set_selectedHmdIndex (v : Z) (s : AppStage_TrackerSettings) :=
  mkStage (m_menuState s) (m_trackerInfos s) (m_controllerInfos s) (m_hmdInfos s)
    (m_selectedTrackerIndex s) (m_selectedControllerIndex s) v.

(** ** Computations of the stage

    A member function runs on the stage, may change it, emits actions and
    may go wrong: by indexing a vector outside its bounds or by failing an
    assertion. *)

Inductive result (A : Type) : Type :=
  | Ok (a : A)
  | OutOfRange
  | AssertionFailed.
Arguments Ok {A} a.
Arguments OutOfRange {A}.
Arguments AssertionFailed {A}.

Definition UI (A : Type) : Type :=
  AppStage_TrackerSettings -> result (A * AppStage_TrackerSettings * list action).

Definition ret {A : Type} (a : A) : UI A := fun s => Ok (a, s, []).

Definition bind {A B : Type} (c : UI A) (k : A -> UI B) : UI B :=
  fun s =>
    match c s with
    | Ok (a, s1, out1) =>
        match k a s1 with
        | Ok (b, s2, out2) => Ok (b, s2, out1 ++ out2)
        | OutOfRange => OutOfRange
        | AssertionFailed => AssertionFailed
        end
    | OutOfRange => OutOfRange
    | AssertionFailed => AssertionFailed
    end.

Notation "x <- c1 ;; c2" := (bind c1 (fun x => c2))
  (at level 61, c1 at next level, right associativity).
Notation "c1 ;; c2" := (bind c1 (fun _ => c2))
  (at level 61, right associativity).

Definition this : UI AppStage_TrackerSettings := fun s => Ok (s, s, []).

Definition modify (f : AppStage_TrackerSettings -> AppStage_TrackerSettings)
    : UI unit :=
  fun s => Ok (tt, f s, []).

Definition emit (a : action) : UI unit := fun s => Ok (tt, s, [a]).

Definition assert_unreachable {A : Type} : UI A := fun _ => AssertionFailed.

Definition when (b : bool) (c : UI unit) : UI unit := if b then c else ret tt.

(** [v[i]] on a [std::vector], the [int] index converted to the size
    type. *)
Definition vector_at {A : Type} (v : list A) (i : Z) : UI A :=
  fun s =>
    if to_size_t i <? Z.of_nat (length v) then
      match nth_error v (Z.to_nat (to_size_t i)) with
      | Some a => Ok (a, s, [])
      | None => OutOfRange
      end
    else OutOfRange.

(** [static_cast<int>(v.size())] *)
Definition int_size {A : Type} (v : list A) : Z := to_int (Z.of_nat (length v)).

(** [ImGui::Button(label)]: whether the button was pressed in this frame. *)
Definition clicks : Type := string -> bool.

(** ** Requests *)

Definition request_tracker_list : UI unit :=
  s <- this ;;
  when (negb (eTrackerMenuState_eqb (m_menuState s) pendingTrackerListRequest))
    (modify (set_menuState pendingTrackerListRequest) ;;
     emit SendTrackerListRequest).

Definition request_controller_list : UI unit :=
  s <- this ;;
  when (negb (eTrackerMenuState_eqb (m_menuState s) pendingControllerListRequest))
    (modify (set_menuState pendingControllerListRequest) ;;
     emit SendControllerListRequest).

Definition request_hmd_list : UI unit :=
  s <- this ;;
  when (negb (eTrackerMenuState_eqb (m_menuState s) pendingHmdListRequest))
    (modify (set_menuState pendingHmdListRequest) ;;
     emit SendHmdListRequest).

Definition request_search_for_new_trackers : UI unit :=
  modify (set_menuState pendingSearchForNewTrackersRequest) ;;
  modify (set_selectedTrackerIndex (-1)) ;;
  modify (set_trackerInfos []) ;;
  emit SendSearchForNewTrackersRequest.

Definition handle_search_for_new_trackers_response : UI unit :=
  request_tracker_list.

Definition enter : UI unit :=
  emit SetCameraFixed ;;
  request_tracker_list.

Definition onClientAPIEvent (event : eEventType) : UI bool :=
  match event with
  | controllerListUpdated => request_tracker_list ;; ret true
  | otherEvent => ret false
  end.

(** ** Responses *)

(** "Maintain the same position in the list if possible": the new index
    for an old one, [fallback] being what the handler takes when the old
    index is no longer in the list. The comparison of the [int] with the
    size is made in the size type. *)
Definition reselect (oldSelectedIndex : Z) (size : nat) (fallback : Z) : Z :=
  if negb (oldSelectedIndex =? -1) then
    if to_size_t oldSelectedIndex <? Z.of_nat size then oldSelectedIndex
    else fallback
  else
    if 0 <? Z.of_nat size then 0 else -1.

Definition handle_tracker_list_response (response_message : ResponseMessage)
    : UI unit :=
  match result_code response_message with
  | _clientPSMoveResultCode_ok =>
      match payload_tracker_list response_message with
      | None => assert_unreachable
      | Some tracker_list =>
          s <- this ;;
          let oldSelectedTrackerIndex := m_selectedTrackerIndex s in
          modify (set_selectedTrackerIndex (-1)) ;;
          modify (set_trackerInfos []) ;;
          modify (fun s => set_trackerInfos (m_trackerInfos s ++ tracker_list) s) ;;
          modify (fun s =>
                    set_selectedTrackerIndex
                      (reselect oldSelectedTrackerIndex (length (m_trackerInfos s)) 0)
                      s) ;;
          request_controller_list
      end
  | _clientPSMoveResultCode_error
  | _clientPSMoveResultCode_canceled =>
      modify (set_menuState failedTrackerListRequest)
  end.

(** The body of the loop over the controllers of the response. *)
Definition push_controller (infos : list ControllerInfo)
    (ControllerResponse : Protocol_Controller) : list ControllerInfo :=
  let id := controller_id ControllerResponse in
  let colour := controller_tracking_color_type ControllerResponse in
  match controller_type ControllerResponse with
  | PSMOVE => infos ++ [mkControllerInfo id PSMove colour]
  | PSNAVI => infos
  | PSDUALSHOCK4 => infos ++ [mkControllerInfo id PSDualShock4 colour]
  end.

Definition handle_controller_list_response (response_message : ResponseMessage)
    : UI unit :=
  match result_code response_message with
  | _clientPSMoveResultCode_ok =>
      s <- this ;;
      let oldSelectedControllerIndex := m_selectedControllerIndex s in
      modify (set_controllerInfos []) ;;
      modify (fun s =>
                set_controllerInfos
                  (fold_left push_controller (result_controller_list response_message)
                     (m_controllerInfos s)) s) ;;
      modify (fun s =>
                set_selectedControllerIndex
                  (reselect oldSelectedControllerIndex
                     (length (m_controllerInfos s)) (-1)) s) ;;
      request_hmd_list
  | _clientPSMoveResultCode_error
  | _clientPSMoveResultCode_canceled =>
      modify (set_menuState failedControllerListRequest)
  end.

Definition push_hmd (infos : list HMDInfo) (HmdResponse : Protocol_HMD)
    : list HMDInfo :=
  match hmd_type HmdResponse with
  | Protocol_Morpheus =>
      infos ++ [mkHMDInfo (hmd_id HmdResponse) Morpheus
                  (hmd_tracking_color_type HmdResponse)]
  end.

Definition handle_hmd_list_response (response_message : ResponseMessage)
    : UI unit :=
  match result_code response_message with
  | _clientPSMoveResultCode_ok =>
      s <- this ;;
      let oldSelectedHmdIndex := m_selectedHmdIndex s in
      modify (set_hmdInfos []) ;;
      modify (fun s =>
                set_hmdInfos
                  (fold_left push_hmd (result_hmd_list response_message)
                     (m_hmdInfos s)) s) ;;
      modify (fun s =>
                set_selectedHmdIndex
                  (reselect oldSelectedHmdIndex (length (m_hmdInfos s)) (-1)) s) ;;
      modify (set_menuState idle)
  | _clientPSMoveResultCode_error
  | _clientPSMoveResultCode_canceled =>
      modify (set_menuState failedControllerListRequest)
  end.

(** ** Selection *)

Definition get_selected_controller : UI (option ControllerInfo) :=
  s <- this ;;
  if negb (m_selectedControllerIndex s =? -1) then
    controllerInfo <- vector_at (m_controllerInfos s) (m_selectedControllerIndex s) ;;
    ret (Some controllerInfo)
  else ret None.

Definition get_selected_hmd : UI (option HMDInfo) :=
  s <- this ;;
  if negb (m_selectedHmdIndex s =? -1) then
    hmdinfo <- vector_at (m_hmdInfos s) (m_selectedHmdIndex s) ;;
    ret (Some hmdinfo)
  else ret None.

(** ** Rendering *)

(** [AppStage_TrackerSettings::render] *)
Definition render : UI unit :=
  s <- this ;;
  match m_menuState s with
  | idle =>
      when (0 <=? m_selectedTrackerIndex s)
        (trackerInfo <- vector_at (m_trackerInfos s) (m_selectedTrackerIndex s) ;;
         match tracker_type trackerInfo with
         | PS3Eye => emit DrawPS3EyeModel
         end)
  | pendingSearchForNewTrackersRequest
  | pendingTrackerListRequest
  | failedTrackerListRequest
  | pendingControllerListRequest
  | failedControllerListRequest
  | pendingHmdListRequest
  | failedHmdListRequest => ret tt
  | inactive => assert_unreachable
  end.

(** The tracker block of the idle window. *)
Definition renderUI_trackers (clicked : clicks) : UI unit :=
  s <- this ;;
  when (0 <? Z.of_nat (length (m_trackerInfos s)))
    (trackerInfo <- vector_at (m_trackerInfos s) (m_selectedTrackerIndex s) ;;
     when (0 <? m_selectedTrackerIndex s)
       (when (clicked "<##TrackerIndex"%string)
          (modify (fun s =>
             set_selectedTrackerIndex (to_int (m_selectedTrackerIndex s - 1)) s))) ;;
     s <- this ;;
     when (to_int (m_selectedTrackerIndex s + 1) <? int_size (m_trackerInfos s))
       (when (clicked ">##TrackerIndex"%string)
          (modify (fun s =>
             set_selectedTrackerIndex (to_int (m_selectedTrackerIndex s + 1)) s))) ;;
     match tracker_type trackerInfo with
     | PS3Eye => ret tt
     end ;;
     match tracker_driver trackerInfo with
     | LIBUSB | CL_EYE | CL_EYE_MULTICAM | GENERIC_WEBCAM => ret tt
     end ;;
     when (clicked "Test Tracker Video Feed"%string)
       (emit (SetAppStage Stage_TestTracker)) ;;
     when (clicked "Calibrate Tracker Distortion"%string)
       (emit (SetAppStage Stage_DistortionCalibration))).

(** The controller block of the idle window. *)
Definition renderUI_controllers (clicked : clicks) : UI unit :=
  s <- this ;;
  when (0 <? Z.of_nat (length (m_controllerInfos s)))
    (when (0 <=? m_selectedControllerIndex s)
       (when (clicked "<##Controller"%string)
          (modify (fun s =>
             set_selectedControllerIndex
               (to_int (m_selectedControllerIndex s - 1)) s))) ;;
     s <- this ;;
     (if negb (m_selectedControllerIndex s =? -1) then
        controllerInfo <- vector_at (m_controllerInfos s)
                            (m_selectedControllerIndex s) ;;
        ret tt
      else ret tt) ;;
     when (to_int (m_selectedControllerIndex s + 1)
             <? int_size (m_controllerInfos s))
       (when (clicked ">##Controller"%string)
          (modify (fun s =>
             set_selectedControllerIndex
               (to_int (m_selectedControllerIndex s + 1)) s))) ;;
     when (clicked "Calibrate Controller Tracking Colors"%string)
       (controller <- get_selected_controller ;;
        match controller with
        | Some controller =>
            emit (SetOverrideControllerId (ControllerID controller)) ;;
            emit (SetOverrideTrackingColor (ControllerTrackingColorType controller))
        | None => ret tt
        end ;;
        emit (SetAppStage Stage_ColorCalibration)) ;;
     s <- this ;;
     controllerID <-
       (if negb (m_selectedControllerIndex s =? -1) then
          controllerInfo <- vector_at (m_controllerInfos s)
                              (m_selectedControllerIndex s) ;;
          ret (ControllerID controllerInfo)
        else ret (-1)) ;;
     when (clicked "Compute Tracker Poses"%string)
       (emit (EnterStageAndCalibrate controllerID)) ;;
     when (clicked "Test Tracking"%string)
       (emit (EnterStageAndSkipCalibration controllerID))).

(** The HMD block of the idle window. *)
Definition renderUI_hmds (clicked : clicks) : UI unit :=
  s <- this ;;
  when (0 <? Z.of_nat (length (m_hmdInfos s)))
    (when (0 <? m_selectedHmdIndex s)
       (when (clicked "<##HMD"%string)
          (modify (fun s =>
             set_selectedHmdIndex (to_int (m_selectedHmdIndex s - 1)) s))) ;;
     s <- this ;;
     (if negb (m_selectedHmdIndex s =? -1) then
        hmdInfo <- vector_at (m_hmdInfos s) (m_selectedHmdIndex s) ;;
        match HmdType hmdInfo with
        | Morpheus => ret tt
        end
      else ret tt) ;;
     when (to_int (m_selectedHmdIndex s + 1) <? int_size (m_hmdInfos s))
       (when (clicked ">##HMD"%string)
          (modify (fun s =>
             set_selectedHmdIndex (to_int (m_selectedHmdIndex s + 1)) s))) ;;
     when (clicked "Calibrate HMD Tracking Colors"%string)
       (hmd <- get_selected_hmd ;;
        match hmd with
        | Some hmd =>
            emit (SetOverrideHmdId (HmdID hmd)) ;;
            emit (SetOverrideTrackingColor (HmdTrackingColorType hmd))
        | None => ret tt
        end ;;
        emit (SetAppStage Stage_ColorCalibration))).

(** [AppStage_TrackerSettings::renderUI] *)
Definition renderUI (clicked : clicks) : UI unit :=
  s <- this ;;
  match m_menuState s with
  | idle =>
      renderUI_trackers clicked ;;
      s <- this ;;
      when (0 <? Z.of_nat (length (m_trackerInfos s)))
        (renderUI_controllers clicked ;;
         renderUI_hmds clicked) ;;
      when (clicked "Return to Main Menu"%string) (emit (SetAppStage Stage_MainMenu))
  | pendingSearchForNewTrackersRequest
  | pendingTrackerListRequest
  | pendingControllerListRequest
  | pendingHmdListRequest => ret tt
  | failedTrackerListRequest
  | failedControllerListRequest
  | failedHmdListRequest =>
      when (clicked "Retry"%string) request_tracker_list ;;
      when (clicked "Return to Main Menu"%string) (emit (SetAppStage Stage_MainMenu))
  | inactive => assert_unreachable
  end.

(** ** The life of the stage *)

(** What can happen to the stage once it has been entered, entering it
    again included. *)
Inductive operation : Type :=
  | OpRender
  | OpRenderUI (clicked : clicks)
  | OpEvent (event : eEventType)
  | OpTrackerListResponse (response_message : ResponseMessage)
  | OpControllerListResponse (response_message : ResponseMessage)
  | OpHmdListResponse (response_message : ResponseMessage)
  | OpSearchForNewTrackers
  | OpSearchForNewTrackersResponse
  | OpEnter.

Definition run (op : operation) : UI unit :=
  match op with
  | OpRender => render
  | OpRenderUI clicked => renderUI clicked
  | OpEvent event => onClientAPIEvent event ;; ret tt
  | OpTrackerListResponse m => handle_tracker_list_response m
  | OpControllerListResponse m => handle_controller_list_response m
  | OpHmdListResponse m => handle_hmd_list_response m
  | OpSearchForNewTrackers => request_search_for_new_trackers
  | OpSearchForNewTrackersResponse => handle_search_for_new_trackers_response
  | OpEnter => enter
  end.

(** The lists of a response have an [int] for their size. *)
Definition fits_int {A : Type} (l : list A) : Prop :=
  Z.of_nat (length l) <= INT_MAX.

Definition response_fits (m : ResponseMessage) : Prop :=
  match payload_tracker_list m with
  | Some l => fits_int l
  | None => True
  end
  /\ fits_int (result_controller_list m)
  /\ fits_int (result_hmd_list m).

Definition operation_fits (op : operation) : Prop :=
  match op with
  | OpTrackerListResponse m
  | OpControllerListResponse m
  | OpHmdListResponse m => response_fits m
  | _ => True
  end.

(** The stage after [enter] and any operations that went through. *)
Inductive entered : AppStage_TrackerSettings -> Prop :=
  | entered_first (s : AppStage_TrackerSettings) (out : list action) :
      enter new_stage = Ok (tt, s, out) -> entered s
  | entered_next (s s' : AppStage_TrackerSettings) (op : operation)
                 (out : list action) :
      entered s -> operation_fits op -> run op s = Ok (tt, s', out) -> entered s'.

(** The selected indices point into their lists: the controller and HMD
    indices are -1 or in range; the tracker index is in range when there
    are trackers, and -1 or 0 when there are none. *)
Definition indices_in_range (s : AppStage_TrackerSettings) : Prop :=
  fits_int (m_trackerInfos s)
  /\ fits_int (m_controllerInfos s)
  /\ fits_int (m_hmdInfos s)
  /\ ((m_trackerInfos s = [] /\ (m_selectedTrackerIndex s = -1
                                \/ m_selectedTrackerIndex s = 0))
      \/ 0 <= m_selectedTrackerIndex s < Z.of_nat (length (m_trackerInfos s)))
  /\ -1 <= m_selectedControllerIndex s < Z.of_nat (length (m_controllerInfos s))
  /\ -1 <= m_selectedHmdIndex s < Z.of_nat (length (m_hmdInfos s)).

(** The controllers of a response as the stage lists them. *)
Definition listed_controller (c : Protocol_Controller) : option ControllerInfo :=
  match controller_type c with
  | PSMOVE =>
      Some (mkControllerInfo (controller_id c) PSMove
              (controller_tracking_color_type c))
  | PSNAVI => None
  | PSDUALSHOCK4 =>
      Some (mkControllerInfo (controller_id c) PSDualShock4
              (controller_tracking_color_type c))
  end.

Fixpoint listed_controllers (l : list Protocol_Controller) : list ControllerInfo :=
  match l with
  | [] => []
  | c :: rest =>
      match listed_controller c with
      | Some info => info :: listed_controllers rest
      | None => listed_controllers rest
      end
  end.

(** Sample data. *)
Definition sample_tracker : ClientTrackerInfo :=
  mkTrackerInfo 0 PS3Eye LIBUSB "tracker_view_0" "usb#ps3eye".

Definition ok_trackers (l : list ClientTrackerInfo) : ResponseMessage :=
  mkResponse _clientPSMoveResultCode_ok (Some l) [] [].

Definition ok_controllers (l : list Protocol_Controller) : ResponseMessage :=
  mkResponse _clientPSMoveResultCode_ok None l [].

Definition ok_hmds (l : list Protocol_HMD) : ResponseMessage :=
  mkResponse _clientPSMoveResultCode_ok None [] l.

Definition failed_response : ResponseMessage :=
  mkResponse _clientPSMoveResultCode_error None [] [].

Definition no_clicks : clicks := fun _ => false.

(** The state of a computation that went through, [new_stage] otherwise. *)
Definition state_after {A : Type} (r : result (A * AppStage_TrackerSettings * list action))
    : AppStage_TrackerSettings :=
  match r with
  | Ok (_, s, _) => s
  | _ => new_stage
  end.

(** Entered, one tracker listed, then the tracker unplugged: the lists
    were refreshed twice, the second time with no tracker. *)
Definition after_unplug : AppStage_TrackerSettings :=
  let s := state_after (enter new_stage) in
  let s := state_after (handle_tracker_list_response (ok_trackers [sample_tracker]) s) in
  let s := state_after (handle_controller_list_response (ok_controllers []) s) in
  let s := state_after (handle_hmd_list_response (ok_hmds []) s) in
  let s := state_after (onClientAPIEvent controllerListUpdated s) in
  let s := state_after (handle_tracker_list_response (ok_trackers []) s) in
  let s := state_after (handle_controller_list_response (ok_controllers []) s) in
  state_after (handle_hmd_list_response (ok_hmds []) s).

(** ** Reasoning about computations *)

(** [c] goes through from [s] and [Q] holds of its answer and the stage it
    leaves. *)
Definition wp {A : Type} (c : UI A) (Q : A -> AppStage_TrackerSettings -> Prop)
    (s : AppStage_TrackerSettings) : Prop :=
  match c s with
  | Ok (a, s', _) => Q a s'
  | _ => False
  end.

(** If [c] goes through from [s], [Q] holds of its answer and the stage it
    leaves. *)
Definition wlp {A : Type} (c : UI A) (Q : A -> AppStage_TrackerSettings -> Prop)
    (s : AppStage_TrackerSettings) : Prop :=
  match c s with
  | Ok (a, s', _) => Q a s'
  | _ => True
  end.

(** [c] goes through from [s] and leaves the stage as it is. *)
Definition stays {A : Type} (c : UI A) (s : AppStage_TrackerSettings) : Prop :=
  wp c (fun _ s' => s' = s) s.

(** The menu state and the three lists are the same in both stages. *)
Definition same_lists (s s' : AppStage_TrackerSettings) : Prop :=
  m_menuState s' = m_menuState s
  /\ m_trackerInfos s' = m_trackerInfos s
  /\ m_controllerInfos s' = m_controllerInfos s
  /\ m_hmdInfos s' = m_hmdInfos s.

(** What holds of the stage from [enter] on. *)
Definition stage_invariant (s : AppStage_TrackerSettings) : Prop :=
  indices_in_range s
  /\ m_menuState s <> inactive
  /\ m_menuState s <> failedHmdListRequest.

(** The three lists are the same in both stages. *)
Definition same_devices (s s' : AppStage_TrackerSettings) : Prop :=
  m_trackerInfos s' = m_trackerInfos s
  /\ m_controllerInfos s' = m_controllerInfos s
  /\ m_hmdInfos s' = m_hmdInfos s.

Definition sample_controllers : list Protocol_Controller :=
  [ mkProtocolController 3 PSMOVE 1;
    mkProtocolController 4 PSNAVI 1;
    mkProtocolController 5 PSDUALSHOCK4 9 ].

(** Entered, with two trackers, three controllers (one of them a
    navigation controller) and one HMD reported. *)
Definition populated : AppStage_TrackerSettings :=
  let s := state_after (enter new_stage) in
  let s := state_after
             (handle_tracker_list_response
                (ok_trackers [sample_tracker; sample_tracker]) s) in
  let s := state_after
             (handle_controller_list_response (ok_controllers sample_controllers) s) in
  state_after
    (handle_hmd_list_response (ok_hmds [mkProtocolHMD 0 Protocol_Morpheus 5]) s).

(** The three handlers in the order in which a refresh calls them. *)
Definition refresh (trackers controllers hmds : ResponseMessage) : UI unit :=
  handle_tracker_list_response trackers ;;
  handle_controller_list_response controllers ;;
  handle_hmd_list_response hmds.

End TrackerSettings.

(** * Properties *)

(** ** Decoding *)

Lemma uchar_range (b : byte) : 0 <= uchar b < 256.
Proof.
  unfold uchar. pose proof (Byte.to_N_bounded b). lia.
Qed.

Lemma lor_shiftl_8 (hi lo : Z) :
  0 <= lo < 256 -> Z.lor (Z.shiftl hi 8) lo = hi * 256 + lo.
Proof.
  intros Hlo.
  assert (Hdisjoint : Z.land (Z.shiftl hi 8) lo = 0).
  { apply Z.bits_inj'. intros n Hn.
    rewrite Z.land_spec, Z.bits_0.
    destruct (Z.ltb_spec n 8) as [Hlow | Hhigh].
    - rewrite Z.shiftl_spec_low by assumption. reflexivity.
    - rewrite <- (Z.mod_small lo (2 ^ 8)) by (change (2 ^ 8) with 256; lia).
      rewrite Z.mod_pow2_bits_high by lia. apply andb_false_r. }
  pose proof (Z.add_lor_land (Z.shiftl hi 8) lo) as Hsum.
  rewrite Hdisjoint, Z.shiftl_mul_pow2 in Hsum by lia.
  rewrite Z.shiftl_mul_pow2 by lia.
  change (2 ^ 8) with 256 in *. lia.
Qed.

Lemma to_short_range (z : Z) : -32768 <= to_short z <= 32767.
Proof.
  unfold to_short, wrap_signed.
  change (2 ^ (16 - 1)) with 32768. change (2 ^ 16) with 65536.
  pose proof (Z.mod_pos_bound (z + 32768) 65536). lia.
Qed.

Lemma to_int_small (z : Z) : in_int z -> to_int z = z.
Proof.
  unfold in_int, INT_MIN, INT_MAX, to_int, wrap_signed.
  change (2 ^ (32 - 1)) with 2147483648. change (2 ^ 32) with 4294967296.
  change (2 ^ 31) with 2147483648.
  intros Hz. rewrite Z.mod_small by lia. lia.
Qed.

Lemma piece_together_signed16 (v : byte2) : piece_together v = signed16 v.
Proof.
  destruct v as [lo hi]. unfold piece_together, signed16. cbn [fst snd].
  pose proof (uchar_range lo) as Hlo. pose proof (uchar_range hi) as Hhi.
  rewrite lor_shiftl_8 by assumption.
  unfold to_short, wrap_signed.
  change (2 ^ (16 - 1)) with 32768. change (2 ^ 16) with 65536.
  destruct (Z.ltb_spec (uchar hi * 256 + uchar lo) 32768) as [Hpos | Hneg].
  - rewrite Z.mod_small by lia. lia.
  - replace (uchar hi * 256 + uchar lo + 32768)
      with (uchar hi * 256 + uchar lo - 32768 + 1 * 65536) by lia.
    rewrite Z.mod_add by lia. rewrite Z.mod_small by lia. lia.
Qed.

Lemma to_int_piece_together (v : byte2) : to_int (piece_together v) = signed16 v.
Proof.
  rewrite <- piece_together_signed16.
  apply to_int_small. unfold piece_together, in_int, INT_MIN, INT_MAX.
  pose proof (to_short_range
    (Z.lor (Z.shiftl (uchar (snd v)) 8) (uchar (fst v)))).
  change (2 ^ 31) with 2147483648. lia.
Qed.

Lemma signed16_range (v : byte2) : -32768 <= signed16 v <= 32767.
Proof.
  rewrite <- piece_together_signed16. apply to_short_range.
Qed.

Lemma exact_from_sound (n : nat) :
  forall lo z : Z,
    exact_from n lo = true -> lo <= z < lo + 2 ^ Z.of_nat n -> exact_on z = true.
Proof.
  induction n as [| n IH]; intros lo z Hall Hz.
  - cbn in *. replace z with lo by lia. assumption.
  - cbn [exact_from] in Hall. apply andb_prop in Hall as [Hleft Hright].
    rewrite Nat2Z.inj_succ, Z.pow_succ_r in Hz by lia.
    destruct (Z.lt_ge_cases z (lo + 2 ^ Z.of_nat n)) as [Hlow | Hhigh].
    + apply (IH lo); [assumption | lia].
    + apply (IH (lo + 2 ^ Z.of_nat n)); [assumption | lia].
Qed.

Lemma all_shorts_exact : exact_from 16 (-32768) = true.
Proof. vm_compute. reflexivity. Qed.

(** The conversion of a [short] to [float] loses nothing. *)
Lemma of_int_exact (z : Z) :
  -32768 <= z <= 32767 ->
  Float32.integer_value (Float32.of_int z) = Some z.
Proof.
  intros Hz.
  assert (Hexact : exact_on z = true).
  { apply (exact_from_sound 16 (-32768) z all_shorts_exact).
    change (2 ^ Z.of_nat 16) with 65536. lia. }
  unfold exact_on in Hexact.
  destruct (Float32.integer_value (Float32.of_int z)) as [z' |];
    [| discriminate].
  apply Z.eqb_eq in Hexact. congruence.
Qed.

(** C4. Every axis of a decoded sensor frame carries, as its raw value, the
    signed 16-bit reading of its byte pair with the low byte first, and as
    its calibrated value the product, in single precision, of that raw
    value converted to a float (a conversion that is exact) and the gain of
    its sensor class. The pair 0x34, 0x12 reads 4660 and calibrates to
    4660 times the accelerometer gain. *)
Theorem decode_correctness :
  forall (config : MorpheusHMDConfig) (data_input : MorpheusRawSensorFrame),
    let f := parse_sensor_frame config data_input in
    let cal (gain : Float32.float) (v : byte2) :=
      Float32.mul (Float32.of_int (signed16 v)) gain in
    RawAccel f =
      mkVector_i (signed16 (accel_x data_input)) (signed16 (accel_y data_input))
                 (signed16 (accel_z data_input))
    /\ RawGyro f =
      mkVector_i (signed16 (gyro_x data_input)) (signed16 (gyro_y data_input))
                 (signed16 (gyro_z data_input))
    /\ CalibratedAccel f =
      mkVector (cal (accelerometer_gain config) (accel_x data_input))
               (cal (accelerometer_gain config) (accel_y data_input))
               (cal (accelerometer_gain config) (accel_z data_input))
    /\ CalibratedGyro f =
      mkVector (cal (gyro_gain config) (gyro_x data_input))
               (cal (gyro_gain config) (gyro_y data_input))
               (cal (gyro_gain config) (gyro_z data_input))
    /\ (forall v : byte2,
          Float32.integer_value (Float32.of_int (signed16 v)) = Some (signed16 v))
    /\ signed16 (x34, x12) = 4660
    /\ (forall ay az gx gy gz : byte2,
          let f' := parse_sensor_frame config
                      (mkRawSensorFrame (x34, x12) ay az gx gy gz) in
          vi_i (RawAccel f') = 4660
          /\ v_i (CalibratedAccel f') =
               Float32.mul (Float32.of_int 4660) (accelerometer_gain config)).
Proof.
  intros config data_input f cal. subst f cal.
  unfold parse_sensor_frame. cbn [RawAccel RawGyro CalibratedAccel CalibratedGyro].
  rewrite !to_int_piece_together, !piece_together_signed16.
  repeat split.
  intros v. apply of_int_exact, signed16_range.
Qed.

(** ** The state history *)

Lemma make_room_last_n (h : list MorpheusHMDState) : make_room h = last_n 4 h.
Proof.
  unfold make_room, last_n, MORPHEUS_HMD_STATE_BUFFER_MAX.
  destruct (Nat.leb_spec 4 (length h)) as [Hfull | Hroom].
  - reflexivity.
  - replace (length h - 4)%nat with 0%nat by lia. reflexivity.
Qed.

Lemma push_state_last_n (h : list MorpheusHMDState) (e : MorpheusHMDState) :
  push_state h e = last_n 5 (h ++ [e]).
Proof.
  unfold push_state. rewrite make_room_last_n. unfold last_n.
  rewrite length_app, skipn_app. cbn [length].
  replace (length h + 1 - 5)%nat with (length h - 4)%nat by lia.
  replace (length h - 4 - length h)%nat with 0%nat by lia.
  reflexivity.
Qed.

Lemma last_n_last_n {A : Type} (m n : nat) (l : list A) :
  (m <= n)%nat -> last_n m (last_n n l) = last_n m l.
Proof.
  intros Hmn. unfold last_n. rewrite length_skipn, skipn_skipn.
  f_equal. lia.
Qed.

Lemma length_last_n {A : Type} (n : nat) (l : list A) :
  length (last_n n l) = Nat.min n (length l).
Proof.
  unfold last_n. rewrite length_skipn. lia.
Qed.

Lemma length_push_state (h : list MorpheusHMDState) (e : MorpheusHMDState) :
  length (push_state h e) = S (Nat.min 4 (length h)).
Proof.
  unfold push_state. rewrite length_app, make_room_last_n, length_last_n.
  cbn [length]. lia.
Qed.

(** The history after a run of appends: the last five of everything it
    ever held. *)
Lemma fold_push_state (news h : list MorpheusHMDState) :
  news <> [] -> fold_left push_state news h = last_n 5 (h ++ news).
Proof.
  induction news as [| e news IH] using rev_ind; intros Hne.
  - congruence.
  - rewrite fold_left_app. cbn [fold_left].
    destruct news as [| e0 news].
    + cbn [fold_left app]. apply push_state_last_n.
    + rewrite IH by discriminate.
      unfold push_state. rewrite make_room_last_n.
      rewrite last_n_last_n by lia.
      rewrite <- make_room_last_n.
      change (make_room (h ++ e0 :: news) ++ [e])
        with (push_state (h ++ e0 :: news) e).
      rewrite push_state_last_n, <- app_assoc. reflexivity.
Qed.

Lemma last_n_app_long {A : Type} (n : nat) (h news : list A) :
  (n <= length news)%nat -> last_n n (h ++ news) = last_n n news.
Proof.
  intros Hlong. unfold last_n. rewrite length_app, skipn_app.
  rewrite skipn_all2 by lia. cbn [app]. f_equal. lia.
Qed.

Lemma fold_push_state_long (news h : list MorpheusHMDState) :
  (5 <= length news)%nat ->
  fold_left push_state news h = last_n 5 news
  /\ length (fold_left push_state news h) = 5%nat.
Proof.
  intros Hlong.
  assert (Hne : news <> []) by (destruct news; [cbn in Hlong; lia | discriminate]).
  rewrite fold_push_state by assumption.
  rewrite last_n_app_long by assumption.
  split; [reflexivity |]. rewrite length_last_n. lia.
Qed.

Lemma length_fold_push_state (news h : list MorpheusHMDState) :
  (length h <= 5)%nat -> (length (fold_left push_state news h) <= 5)%nat.
Proof.
  revert h. induction news as [| e news IH]; intros h Hh; cbn [fold_left].
  - assumption.
  - apply IH. rewrite length_push_state. lia.
Qed.

(** ** The poll loop *)

Lemma set_hid_input_same (w : World) : set_hid_input (hid_input w) w = w.
Proof. destruct w; reflexivity. Qed.

Lemma set_InData_same (d : MorpheusHMD) : set_InData (InData d) d = d.
Proof. destruct d; reflexivity. Qed.

Lemma ingest_all_cons (p : Z * MorpheusDataInput) (pkts : list (Z * MorpheusDataInput))
    (d : MorpheusHMD) :
  ingest_all (p :: pkts) d = ingest_all pkts (ingest d (snd p)).
Proof. reflexivity. Qed.

(** Packets at the head of the queue are recorded one per iteration. *)
Lemma poll_loop_drain (pkts : list (Z * MorpheusDataInput)) :
  forall (n : nat) (iteration : Z) (result : ePollResult) (d : MorpheusHMD)
         (w : World) (tail : list (Z * MorpheusDataInput)),
    Forall (fun p => 0 < fst p) pkts ->
    hid_input w = pkts ++ tail ->
    poll_loop (length pkts + n) iteration result d w =
    poll_loop n (iteration + Z.of_nat (length pkts))
      (match pkts with [] => result | _ :: _ => _PollResultSuccessNewData end)
      (ingest_all pkts d) (set_hid_input tail w).
Proof.
  induction pkts as [| [res data] pkts IH];
    intros n iteration result d w tail Hpos Hinput.
  - cbn [length app Nat.add ingest_all map fold_left] in *.
    rewrite Z.add_0_r, <- Hinput, set_hid_input_same. reflexivity.
  - inversion Hpos as [| p ps Hres Hrest]; subst. cbn [fst] in Hres.
    cbn [length Nat.add poll_loop]. unfold hid_read. rewrite Hinput.
    cbn [app].
    destruct (Z.eqb_spec res 0) as [Hzero | _]; [lia |].
    destruct (Z.ltb_spec res 0) as [Hneg | _]; [lia |].
    rewrite (IH n (iteration + 1) _PollResultSuccessNewData
               (record_packet (set_InData data d))
               (set_hid_input (pkts ++ tail) w) tail Hrest eq_refl).
    rewrite ingest_all_cons. cbn [snd]. unfold ingest.
    replace (iteration + 1 + Z.of_nat (length pkts))
      with (iteration + Z.of_nat (S (length pkts))) by lia.
    destruct pkts; reflexivity.
Qed.

Lemma ingest_appended (d : MorpheusHMD) (data : MorpheusDataInput) :
  appended d (ingest d data)
    [parse_data_input (NextPollSequenceNumber d) (cfg d) data].
Proof.
  unfold appended, ingest, record_packet. cbn. repeat split.
Qed.

Lemma appended_refl (d : MorpheusHMD) : appended d d [].
Proof.
  unfold appended. cbn. repeat split. lia.
Qed.

Lemma counting_app (start : Z) (m n : nat) :
  counting start (m + n) = counting start m ++ counting (start + Z.of_nat m) n.
Proof.
  revert start. induction m as [| m IH]; intros start.
  - cbn. rewrite Z.add_0_r. reflexivity.
  - cbn [Nat.add counting app]. rewrite IH. do 3 f_equal. lia.
Qed.

Lemma appended_trans (d1 d2 d3 : MorpheusHMD) (n12 n23 : list MorpheusHMDState) :
  appended d1 d2 n12 -> appended d2 d3 n23 -> appended d1 d3 (n12 ++ n23).
Proof.
  unfold appended.
  intros (Hs12 & Hq12 & Hn12 & Hc12 & Hh12) (Hs23 & Hq23 & Hn23 & Hc23 & Hh23).
  repeat split.
  - rewrite fold_left_app, <- Hs12. assumption.
  - rewrite map_app, length_app, counting_app, Hq12, Hq23, Hn12. reflexivity.
  - rewrite Hn23, Hn12, length_app. lia.
  - congruence.
  - congruence.
Qed.

Lemma appended_set_InData (d d' : MorpheusHMD) (news : list MorpheusHMDState)
    (data : MorpheusDataInput) :
  appended d d' news -> appended d (set_InData data d') news.
Proof. unfold appended. cbn. trivial. Qed.

Lemma decode_all_seq (c : MorpheusHMDConfig) (pkts : list (Z * MorpheusDataInput)) :
  forall seq : sequence_number,
    map PollSequenceNumber (decode_all c seq pkts) = counting seq (length pkts)
    /\ length (decode_all c seq pkts) = length pkts.
Proof.
  induction pkts as [| [res data] pkts IH]; intros seq; cbn.
  - split; reflexivity.
  - destruct (IH (seq + 1)) as [Hseq Hlen]. rewrite Hseq, Hlen. split; reflexivity.
Qed.

(** Recording a run of packets appends their decoded states. *)
Lemma ingest_all_appended (pkts : list (Z * MorpheusDataInput)) :
  forall d : MorpheusHMD,
    appended d (ingest_all pkts d)
      (decode_all (cfg d) (NextPollSequenceNumber d) pkts).
Proof.
  induction pkts as [| [res data] pkts IH]; intros d.
  - apply appended_refl.
  - rewrite ingest_all_cons. cbn [snd decode_all].
    pose proof (ingest_appended d data) as Hone.
    pose proof (IH (ingest d data)) as Hrest.
    destruct Hone as (Hs & Hq & Hn & Hc & Hh).
    rewrite Hc, Hn in Hrest. cbn [length] in Hrest.
    change (parse_data_input (NextPollSequenceNumber d) (cfg d) data
              :: decode_all (cfg d) (NextPollSequenceNumber d + 1) pkts)
      with ([parse_data_input (NextPollSequenceNumber d) (cfg d) data]
              ++ decode_all (cfg d) (NextPollSequenceNumber d + 1) pkts).
    eapply appended_trans; [| exact Hrest].
    apply ingest_appended.
Qed.

(** Whatever the environment answers, a run of the loop only appends. *)
Lemma poll_loop_appended (n : nat) :
  forall (iteration : Z) (result : ePollResult) (d : MorpheusHMD) (w : World),
    exists news : list MorpheusHMDState,
      appended d (snd (fst (poll_loop n iteration result d w))) news
      /\ (length news <= n)%nat.
Proof.
  induction n as [| n IH]; intros iteration result d w.
  - exists []. split; [apply appended_refl | cbn; lia].
  - cbn [poll_loop].
    destruct (hid_read (InData d) w) as [[res data] w1].
    destruct (res =? 0).
    + exists []. cbn [fst snd]. split; [| cbn; lia].
      apply appended_set_InData, appended_refl.
    + destruct (res <? 0).
      * exists []. cbn [fst snd]. split; [| cbn; lia].
        apply appended_set_InData, appended_refl.
      * destruct (IH (iteration + 1) _PollResultSuccessNewData
                     (record_packet (set_InData data d)) w1)
          as (news & Happ & Hlen).
        exists ([parse_data_input (NextPollSequenceNumber d) (cfg d) data] ++ news).
        split; [| rewrite length_app; cbn; lia].
        eapply appended_trans; [| exact Happ].
        apply ingest_appended.
Qed.

Lemma poll_appended (d : MorpheusHMD) (w : World) :
  exists news : list MorpheusHMDState,
    appended d (snd (fst (poll d w))) news /\ (length news <= 32)%nat.
Proof.
  unfold poll. destruct (getIsOpen d).
  - apply poll_loop_appended.
  - exists []. split; [apply appended_refl | cbn; lia].
Qed.

Lemma poll_stays_open (d : MorpheusHMD) (w : World) :
  getIsOpen (snd (fst (poll d w))) = getIsOpen d.
Proof.
  destruct (poll_appended d w) as (news & (_ & _ & _ & _ & Hh) & _).
  unfold getIsOpen. rewrite Hh. reflexivity.
Qed.

Lemma open_when_open (e : HMDDeviceEnumerator) (d : MorpheusHMD) (w : World) :
  getIsOpen d = true ->
  open e d w = (true, d, server_log LogWarning "MorpheusHMD::open" w).
Proof.
  intros Hopen. unfold open. rewrite Hopen. reflexivity.
Qed.

Lemma iteration_zero (pkts : list (Z * MorpheusDataInput)) :
  (if 0 + Z.of_nat (length pkts) =? 0
   then _PollResultSuccessNoData else _PollResultSuccessNewData)
  = match pkts with
    | [] => _PollResultSuccessNoData
    | _ :: _ => _PollResultSuccessNewData
    end.
Proof.
  destruct pkts as [| p pkts]; [reflexivity |].
  destruct (Z.eqb_spec (0 + Z.of_nat (length (p :: pkts))) 0) as [Hz | _];
    [cbn [length] in Hz; lia | reflexivity].
Qed.

(** ** One poll, packet by packet *)

Lemma parse_sensor_frame_decoded (config : MorpheusHMDConfig)
    (raw : MorpheusRawSensorFrame) :
  parse_sensor_frame config raw = decoded_frame config raw.
Proof.
  unfold parse_sensor_frame, decoded_frame.
  rewrite !to_int_piece_together, !piece_together_signed16. reflexivity.
Qed.

Lemma parse_data_input_decoded (seq : sequence_number) (config : MorpheusHMDConfig)
    (data : MorpheusDataInput) :
  parse_data_input seq config data = decoded_state seq config data.
Proof.
  unfold parse_data_input, decoded_state.
  rewrite !parse_sensor_frame_decoded. reflexivity.
Qed.

Lemma decode_all_decoded (config : MorpheusHMDConfig)
    (pkts : list (Z * MorpheusDataInput)) :
  forall seq : sequence_number,
    decode_all config seq pkts = decoded_states config seq pkts.
Proof.
  unfold decoded_states.
  induction pkts as [| [res data] pkts IH]; intros seq.
  - reflexivity.
  - cbn [decode_all length counting combine map snd].
    rewrite IH, parse_data_input_decoded. reflexivity.
Qed.

Lemma fold_push_state_history (news h : list MorpheusHMDState) :
  fold_left push_state news h = history_after h news.
Proof.
  destruct news as [| e news]; [reflexivity |].
  apply fold_push_state. discriminate.
Qed.

Lemma appended_recorded (d d' : MorpheusHMD) (news : list MorpheusHMDState) :
  appended d d' news -> recorded d d' news.
Proof.
  intros (Hstates & Hseq & Hnext & _ & _). unfold recorded.
  rewrite Hstates, fold_push_state_history. repeat split; assumption.
Qed.

Lemma last_from_head {A : Type} (l : list A) :
  forall a default : A, last (a :: l) default = last l a.
Proof.
  induction l as [| b l IH]; intros a default.
  - reflexivity.
  - change (last (a :: b :: l) default) with (last (b :: l) default).
    rewrite (IH b default), (IH b a). reflexivity.
Qed.

Lemma ingest_all_InData (pkts : list (Z * MorpheusDataInput)) :
  forall d : MorpheusHMD,
    InData (ingest_all pkts d) = last (map snd pkts) (InData d).
Proof.
  induction pkts as [| [res data] pkts IH]; intros d.
  - reflexivity.
  - rewrite ingest_all_cons, IH. cbn [map snd].
    rewrite last_from_head. reflexivity.
Qed.

(** Recording a run of packets, in terms of the lists alone. *)
Lemma ingest_all_after_packets (pkts : list (Z * MorpheusDataInput))
    (d : MorpheusHMD) :
  ingest_all pkts d = after_packets d pkts (last (map snd pkts) (InData d)).
Proof.
  destruct (ingest_all_appended pkts d) as (Hstates & _ & Hnext & Hcfg & Hdetails).
  pose proof (ingest_all_InData pkts d) as Hbuffer.
  rewrite (proj2 (decode_all_seq (cfg d) pkts (NextPollSequenceNumber d))) in Hnext.
  rewrite fold_push_state_history, decode_all_decoded in Hstates.
  unfold after_packets.
  destruct (ingest_all pkts d) as [c h n b s]. cbn in *. congruence.
Qed.

Lemma set_InData_after_packets (d : MorpheusHMD)
    (pkts : list (Z * MorpheusDataInput)) (buffer data : MorpheusDataInput) :
  set_InData data (after_packets d pkts buffer) = after_packets d pkts data.
Proof. reflexivity. Qed.

(** The four ways a poll of an open device can end, after the packets
    [pkts] at the head of the queue. *)
Lemma poll_cases (d : MorpheusHMD) (w : World) (pkts : list (Z * MorpheusDataInput)) :
  getIsOpen d = true ->
  Forall (fun p => 0 < fst p) pkts ->
  (forall (data : MorpheusDataInput) (rest : list (Z * MorpheusDataInput)),
      (length pkts < 32)%nat ->
      hid_input w = pkts ++ (0, data) :: rest ->
      poll d w =
      (match pkts with
       | [] => _PollResultSuccessNoData
       | _ :: _ => _PollResultSuccessNewData
       end,
       set_InData data (ingest_all pkts d), set_hid_input rest w))
  /\ ((length pkts < 32)%nat ->
      hid_input w = pkts ->
      poll d w =
      (match pkts with
       | [] => _PollResultSuccessNoData
       | _ :: _ => _PollResultSuccessNewData
       end,
       ingest_all pkts d, set_hid_input [] w))
  /\ (forall (res : Z) (data : MorpheusDataInput)
             (rest : list (Z * MorpheusDataInput)),
      (length pkts < 32)%nat ->
      res < 0 ->
      hid_input w = pkts ++ (res, data) :: rest ->
      poll d w =
      (_PollResultFailure, set_InData data (ingest_all pkts d),
       log_hid_error (set_hid_input rest w)))
  /\ (forall rest : list (Z * MorpheusDataInput),
      length pkts = 32%nat ->
      hid_input w = pkts ++ rest ->
      poll d w =
      (_PollResultSuccessNewData, ingest_all pkts d, set_hid_input rest w)).
Proof.
  intros Hopen Hpos.
  assert (Hsplit : forall m : nat,
             (length pkts + m)%nat = 32%nat ->
             forall tail : list (Z * MorpheusDataInput),
               hid_input w = pkts ++ tail ->
               poll d w =
               poll_loop m (0 + Z.of_nat (length pkts))
                 (match pkts with
                  | [] => _PollResultFailure
                  | _ :: _ => _PollResultSuccessNewData
                  end)
                 (ingest_all pkts d) (set_hid_input tail w)).
  { intros m Hm tail Hinput. unfold poll, k_max_iterations.
    rewrite Hopen, <- Hm.
    apply poll_loop_drain; assumption. }
  split; [| split; [| split]].
  - intros data rest Hlen Hinput.
    rewrite (Hsplit (S (31 - length pkts)) ltac:(lia) _ Hinput).
    cbn [poll_loop]. unfold hid_read. cbn [hid_input set_hid_input].
    cbn [Z.eqb]. rewrite iteration_zero. reflexivity.
  - intros Hlen Hinput.
    rewrite (Hsplit (S (31 - length pkts)) ltac:(lia) []
               ltac:(rewrite app_nil_r; exact Hinput)).
    cbn [poll_loop]. unfold hid_read. cbn [hid_input set_hid_input].
    cbn [Z.eqb]. rewrite iteration_zero, set_InData_same. reflexivity.
  - intros res data rest Hlen Hres Hinput.
    rewrite (Hsplit (S (31 - length pkts)) ltac:(lia) _ Hinput).
    cbn [poll_loop]. unfold hid_read. cbn [hid_input set_hid_input].
    destruct (Z.eqb_spec res 0) as [Hzero | _]; [lia |].
    destruct (Z.ltb_spec res 0) as [_ | Hge]; [| lia].
    reflexivity.
  - intros rest Hlen Hinput.
    rewrite (Hsplit 0%nat ltac:(lia) _ Hinput).
    cbn [poll_loop].
    destruct pkts; [discriminate Hlen | reflexivity].
Qed.

(** C2. One poll of an open device whose sensor channel first answers a run
    of packets (positive reads). Every packet read is decoded and appended
    as one entry: the history ends as the last five of its old entries
    followed by one entry per packet, in the order read, each carrying the
    next sequence number and the signed 16-bit readings and calibrated
    values of its packet, and the counter has moved on by the number of
    packets. A read of 0 bytes after fewer than 32 packets ends the poll
    with NoData when no packet came before it and with NewData otherwise; a
    negative read after fewer than 32 packets ends it with Failure at once,
    logging the error and leaving everything behind it unread and
    undecoded; and after 32 packets the loop stops with NewData, whatever
    is still pending. *)
Theorem poll_classification :
  forall (d : MorpheusHMD) (w : World) (pkts : list (Z * MorpheusDataInput)),
    getIsOpen d = true ->
    Forall (fun p => 0 < fst p) pkts ->
    (forall (data : MorpheusDataInput) (rest : list (Z * MorpheusDataInput)),
        (length pkts < 32)%nat ->
        hid_input w = pkts ++ (0, data) :: rest ->
        poll d w =
        (match pkts with
         | [] => _PollResultSuccessNoData
         | _ :: _ => _PollResultSuccessNewData
         end,
         after_packets d pkts data, set_hid_input rest w))
    /\ ((length pkts < 32)%nat ->
        hid_input w = pkts ->
        poll d w =
        (match pkts with
         | [] => _PollResultSuccessNoData
         | _ :: _ => _PollResultSuccessNewData
         end,
         after_packets d pkts (last (map snd pkts) (InData d)),
         set_hid_input [] w))
    /\ (forall (res : Z) (data : MorpheusDataInput)
               (rest : list (Z * MorpheusDataInput)),
        (length pkts < 32)%nat ->
        res < 0 ->
        hid_input w = pkts ++ (res, data) :: rest ->
        poll d w =
        (_PollResultFailure, after_packets d pkts data,
         log_hid_error (set_hid_input rest w)))
    /\ (forall rest : list (Z * MorpheusDataInput),
        length pkts = 32%nat ->
        hid_input w = pkts ++ rest ->
        poll d w =
        (_PollResultSuccessNewData,
         after_packets d pkts (last (map snd pkts) (InData d)),
         set_hid_input rest w)).
Proof.
  intros d w pkts Hopen Hpos.
  destruct (poll_cases d w pkts Hopen Hpos) as (Hzero & Hempty & Hneg & Hfull).
  rewrite ingest_all_after_packets in Hzero, Hempty, Hneg, Hfull.
  split; [| split; [| split]].
  - intros data rest Hlen Hinput.
    rewrite (Hzero data rest Hlen Hinput). reflexivity.
  - exact Hempty.
  - intros res data rest Hlen Hres Hinput.
    rewrite (Hneg res data rest Hlen Hres Hinput). reflexivity.
  - exact Hfull.
Qed.

Lemma poll_classification_witness :
  getIsOpen Sample.open_device = true
  /\ Forall (fun p => 0 < fst p) Sample.three_packets
  /\ poll Sample.open_device
       (Sample.world (Sample.three_packets
                        ++ (0, Sample.packet x00) :: [(44, Sample.packet x09)]))
     = (_PollResultSuccessNewData,
        {| cfg := Sample.config;
           HIDDetails := HIDDetails Sample.open_device;
           NextPollSequenceNumber := 3;
           InData := Sample.packet x00;
           HMDStates :=
             [decoded_state 0 Sample.config (Sample.packet x01);
              decoded_state 1 Sample.config (Sample.packet x02);
              decoded_state 2 Sample.config (Sample.packet x03)] |},
        Sample.world [(44, Sample.packet x09)])
  /\ RawAccel (fst (SensorFrames (decoded_state 0 Sample.config (Sample.packet x01))))
     = mkVector_i 4660 (-1) (-32768).
Proof.
  assert (Hopen : getIsOpen Sample.open_device = true) by reflexivity.
  assert (Hpos : Forall (fun p => 0 < fst p) Sample.three_packets)
    by (repeat (constructor; [reflexivity |]); constructor).
  split; [exact Hopen |]. split; [exact Hpos |].
  split; [| reflexivity].
  destruct (poll_classification Sample.open_device
              (Sample.world (Sample.three_packets
                               ++ (0, Sample.packet x00)
                                  :: [(44, Sample.packet x09)]))
              Sample.three_packets Hopen Hpos) as [Hzero _].
  rewrite (Hzero (Sample.packet x00) [(44, Sample.packet x09)]
             ltac:(cbn; lia) eq_refl).
  reflexivity.
Defined.

(** C1. The history holds five entries, not four, once five or more have
    been appended: an open device that polls five buffered packets ends
    with a history of length 5, numbered 0 to 4, in which lookback 0 is the
    newest entry and lookback 4 still answers the oldest; and whatever the
    history was, after any five or more appends it is exactly the last five
    appended, in order. *)
Theorem history_holds_five_entries :
  (let d := snd (fst (poll Sample.open_device (Sample.world Sample.five_packets))) in
   fst (fst (poll Sample.open_device (Sample.world Sample.five_packets)))
     = _PollResultSuccessNewData
   /\ length (HMDStates d) = 5%nat
   /\ (length (HMDStates d) =? MORPHEUS_HMD_STATE_BUFFER_MAX)%nat = false
   /\ map PollSequenceNumber (HMDStates d) = [0; 1; 2; 3; 4]
   /\ getState 0 d
      = Returns (Some (parse_data_input 4 Sample.config (Sample.packet x05)))
   /\ getState 4 d
      = Returns (Some (parse_data_input 0 Sample.config (Sample.packet x01))))
  /\ (forall (h : list MorpheusHMDState) (e1 e2 e3 e4 e5 : MorpheusHMDState)
             (more : list MorpheusHMDState),
        let news := e1 :: e2 :: e3 :: e4 :: e5 :: more in
        fold_left push_state news h = last_n 5 news
        /\ length (fold_left push_state news h) = 5%nat).
Proof.
  split.
  - vm_compute. repeat split.
  - intros h e1 e2 e3 e4 e5 more news. subst news.
    apply fold_push_state_long. cbn [length]. lia.
Qed.

(** ** Reachable devices *)

Lemma close_HMDStates (d : MorpheusHMD) (w : World) :
  HMDStates (fst (close d w)) = HMDStates d.
Proof.
  unfold close.
  destruct (negb (is_null (sensor_device_handle (HIDDetails d)))
            || negb (is_null (command_device_handle (HIDDetails d))));
    reflexivity.
Qed.

Lemma open_HMDStates (e : HMDDeviceEnumerator) (d : MorpheusHMD) (w : World) :
  HMDStates (snd (fst (open e d w))) = HMDStates d.
Proof.
  unfold open. destruct (getIsOpen d); [reflexivity |].
  match goal with
  | |- context [if getIsOpen ?d1 then _ else _] => destruct (getIsOpen d1)
  end; [reflexivity |].
  match goal with
  | |- context [close ?d1 ?w1] =>
      pose proof (close_HMDStates d1 w1) as Hclose; destruct (close d1 w1)
  end.
  exact Hclose.
Qed.

Lemma poll_HMDStates_bound (d : MorpheusHMD) (w : World) :
  (length (HMDStates d) <= 5)%nat ->
  (length (HMDStates (snd (fst (poll d w)))) <= 5)%nat.
Proof.
  intros Hbound.
  destruct (poll_appended d w) as (news & (Hstates & _) & _).
  rewrite Hstates. apply length_fold_push_state. assumption.
Qed.

(** C9. After the constructor and any sequence of open, poll and close
    calls the history holds at most MORPHEUS_HMD_STATE_BUFFER_MAX + 1 = 5
    entries: making room erases the size - 4 oldest entries whenever the
    size is at least 4, leaving at most 4, and one entry is then pushed. *)
Theorem history_never_exceeds_five :
  (forall d : MorpheusHMD,
      reachable d ->
      (length (HMDStates d) <= MORPHEUS_HMD_STATE_BUFFER_MAX + 1)%nat)
  /\ (forall (h : list MorpheusHMDState) (e : MorpheusHMDState),
        make_room h
        = (if (4 <=? length h)%nat then skipn (length h - 4) h else h)
        /\ (length (make_room h) <= 4)%nat
        /\ push_state h e = make_room h ++ [e]
        /\ (length (push_state h e) <= 5)%nat).
Proof.
  split.
  - intros d Hreach. unfold MORPHEUS_HMD_STATE_BUFFER_MAX. cbn [Nat.add].
    induction Hreach as [cfg0 | d e w _ IH | d w _ IH | d w _ IH].
    + cbn. lia.
    + rewrite open_HMDStates. assumption.
    + apply poll_HMDStates_bound. assumption.
    + rewrite close_HMDStates. assumption.
  - intros h e. split; [reflexivity |]. split.
    + rewrite make_room_last_n, length_last_n. lia.
    + split; [reflexivity |]. rewrite length_push_state. lia.
Qed.

Lemma history_never_exceeds_five_witness :
  reachable Sample.polled_device
  /\ (length (HMDStates Sample.polled_device) <= MORPHEUS_HMD_STATE_BUFFER_MAX + 1)%nat.
Proof.
  assert (Hreach : reachable Sample.polled_device).
  { unfold Sample.polled_device, Sample.open_device, Sample.closed_device.
    apply reach_poll, reach_open, reach_new. }
  split; [exact Hreach |].
  exact (proj1 history_never_exceeds_five Sample.polled_device Hreach).
Defined.

(** ** Sequence numbers *)

Lemma stays_open_appended (d d' : MorpheusHMD) :
  stays_open d d' ->
  exists news : list MorpheusHMDState,
    appended d d' news /\ getIsOpen d' = getIsOpen d.
Proof.
  induction 1 as [d | d d1 w _ IH | d d1 e w _ IH Hopen].
  - exists []. split; [apply appended_refl | reflexivity].
  - destruct IH as (news & Happ & Hsame).
    destruct (poll_appended d1 w) as (news' & Happ' & _).
    exists (news ++ news'). split.
    + eapply appended_trans; eassumption.
    + rewrite poll_stays_open. assumption.
  - rewrite (open_when_open e d1 w Hopen). cbn [fst snd]. exact IH.
Qed.

Lemma open_resets_counter (e : HMDDeviceEnumerator) (d : MorpheusHMD) (w : World) :
  getIsOpen d = false ->
  fst (fst (open e d w)) = true ->
  NextPollSequenceNumber (snd (fst (open e d w))) = 0
  /\ getIsOpen (snd (fst (open e d w))) = true.
Proof.
  intros Hclosed. unfold open. rewrite Hclosed.
  match goal with
  | |- context [if getIsOpen ?d1 then _ else _] =>
      destruct (getIsOpen d1) eqn:Hopened
  end.
  - intros _. cbn [fst snd NextPollSequenceNumber set_NextPollSequenceNumber].
    split; [reflexivity |].
    unfold getIsOpen in *. cbn in *. exact Hopened.
  - match goal with
    | |- context [close ?d1 ?w1] => destruct (close d1 w1)
    end.
    cbn [fst snd]. discriminate.
Qed.

(** C5. While a device stays open -- through polls and through calls of
    open, which an open device ignores -- the entries it decodes are
    numbered from its counter upward in steps of exactly 1, across polls:
    its history ends as the last five of the old entries followed by the
    new ones, whose numbers are the consecutive integers from the old
    counter on, and the counter ends one past the last number given. A
    call of open that takes the device from not open to open returns
    success and resets the counter to 0. *)
Theorem sequence_monotonicity :
  (forall d d' : MorpheusHMD,
      stays_open d d' ->
      exists news : list MorpheusHMDState,
        recorded d d' news /\ getIsOpen d' = getIsOpen d)
  /\ (forall (e : HMDDeviceEnumerator) (d : MorpheusHMD) (w : World),
        getIsOpen d = false ->
        fst (fst (open e d w)) = true ->
        NextPollSequenceNumber (snd (fst (open e d w))) = 0
        /\ getIsOpen (snd (fst (open e d w))) = true)
  /\ (forall (e : HMDDeviceEnumerator) (d : MorpheusHMD) (w : World),
        getIsOpen d = true ->
        open e d w = (true, d, server_log LogWarning "MorpheusHMD::open" w)).
Proof.
  split; [| split; [exact open_resets_counter | exact open_when_open]].
  intros d d' Hstays.
  destruct (stays_open_appended d d' Hstays) as (news & Happ & Hopen).
  exists news. split; [apply appended_recorded; exact Happ | exact Hopen].
Qed.

Lemma sequence_monotonicity_witness :
  (stays_open Sample.open_device
     (snd (fst (poll Sample.polled_device (Sample.world Sample.five_packets))))
   /\ exists news : list MorpheusHMDState,
        recorded Sample.open_device
          (snd (fst (poll Sample.polled_device (Sample.world Sample.five_packets))))
          news
        /\ getIsOpen
             (snd (fst (poll Sample.polled_device (Sample.world Sample.five_packets))))
           = getIsOpen Sample.open_device)
  /\ map PollSequenceNumber
       (HMDStates
          (snd (fst (poll Sample.polled_device (Sample.world Sample.five_packets)))))
     = [3; 4; 5; 6; 7]
  /\ (getIsOpen Sample.closed_device = false
      /\ fst (fst (open Sample.enumerator Sample.closed_device (Sample.world []))) = true
      /\ NextPollSequenceNumber Sample.open_device = 0)
  /\ (getIsOpen Sample.polled_device = true
      /\ open Sample.enumerator Sample.polled_device (Sample.world [])
         = (true, Sample.polled_device,
            server_log LogWarning "MorpheusHMD::open" (Sample.world []))).
Proof.
  destruct sequence_monotonicity as (Hpolls & Hopen & Hreopen).
  split; [| split; [vm_compute; reflexivity | split]].
  - assert (Hstays : stays_open Sample.open_device
              (snd (fst (poll Sample.polled_device
                           (Sample.world Sample.five_packets))))).
    { apply stays_poll. unfold Sample.polled_device.
      apply stays_poll, stays_here. }
    split; [exact Hstays | exact (Hpolls _ _ Hstays)].
  - split; [reflexivity |]. split; [reflexivity |].
    exact (proj1 (Hopen Sample.enumerator Sample.closed_device (Sample.world [])
                    eq_refl eq_refl)).
  - split; [reflexivity |].
    exact (Hreopen Sample.enumerator Sample.polled_device (Sample.world []) eq_refl).
Defined.

(** ** Closing *)

(** C3 (amended). close on a device with a channel handle closes each
    handle it holds, the sensor channel first, resets the transport details
    and zeroes the input buffer; close on a device with no handle only logs
    and changes nothing; either way the device ends closed, and its state
    history, counter and configuration are what they were. A second close
    changes nothing more. *)
Theorem close_resets_transport :
  forall (d : MorpheusHMD) (w : World),
    let d' := fst (close d w) in
    let w' := snd (close d w) in
    let sensor := sensor_device_handle (HIDDetails d) in
    let command := command_device_handle (HIDDetails d) in
    HMDStates d' = HMDStates d
    /\ NextPollSequenceNumber d' = NextPollSequenceNumber d
    /\ cfg d' = cfg d
    /\ sensor_device_handle (HIDDetails d') = None
    /\ command_device_handle (HIDDetails d') = None
    /\ getIsOpen d' = false
    /\ hid_input w' = hid_input w
    /\ (is_null sensor && is_null command = false ->
        HIDDetails d' = HIDDetails_Reset
        /\ InData d' = DataInput_Reset
        /\ events w' = closing_events command ++ closing_events sensor ++ events w)
    /\ (is_null sensor && is_null command = true ->
        d' = d /\ w' = server_log LogInfo "MorpheusHMD::close" w)
    /\ fst (close d' w') = d'.
Proof.
  intros [c [ident spath [hs |] cpath [hc |]] next buf states] w;
    cbn; repeat split; intros; discriminate.
Qed.

Lemma close_resets_transport_witness :
  is_null (sensor_device_handle (HIDDetails Sample.polled_device))
  && is_null (command_device_handle (HIDDetails Sample.polled_device)) = false
  /\ HIDDetails (fst (close Sample.polled_device (Sample.world []))) = HIDDetails_Reset
  /\ InData (fst (close Sample.polled_device (Sample.world []))) = DataInput_Reset
  /\ events (snd (close Sample.polled_device (Sample.world [])))
     = [EvClose 2%nat; EvLog LogInfo "MorpheusHMD::close";
        EvClose 1%nat; EvLog LogInfo "MorpheusHMD::close"]
  /\ is_null (sensor_device_handle (HIDDetails Sample.closed_device))
     && is_null (command_device_handle (HIDDetails Sample.closed_device)) = true
  /\ fst (close Sample.closed_device (Sample.world [])) = Sample.closed_device.
Proof.
  pose proof (close_resets_transport Sample.polled_device (Sample.world []))
    as (_ & _ & _ & _ & _ & _ & _ & Hopen & _ & _).
  pose proof (close_resets_transport Sample.closed_device (Sample.world []))
    as (_ & _ & _ & _ & _ & _ & _ & _ & Hclosed & _).
  destruct (Hopen eq_refl) as (Hdetails & Hbuf & Hevents).
  destruct (Hclosed eq_refl) as (Hsame & _).
  split; [reflexivity |].
  split; [exact Hdetails |]. split; [exact Hbuf |]. split; [exact Hevents |].
  split; [reflexivity | exact Hsame].
Defined.

(** C3 as stated fails: close does not clear the history; the three states
    of an open device are still there after close. *)
Lemma close_keeps_history :
  ~ (forall (d : MorpheusHMD) (w : World),
        getIsOpen d = true -> HMDStates (fst (close d w)) = []).
Proof.
  intros Hclaim.
  specialize (Hclaim Sample.polled_device (Sample.world []) eq_refl).
  vm_compute in Hclaim. discriminate Hclaim.
Qed.

(** ** Lookback *)

Lemma queueSize_exact (n : nat) : in_int (Z.of_nat n) -> to_int (Z.of_nat n) = Z.of_nat n.
Proof. apply to_int_small. Qed.

Ltac unfold_ints :=
  unfold in_int, INT_MIN, INT_MAX, to_int, to_size_t, size_t_bits, wrap_signed in *;
  change (2 ^ (32 - 1)) with 2147483648 in *;
  change (2 ^ 32) with 4294967296 in *;
  change (2 ^ 31) with 2147483648 in *;
  change (2 ^ 64) with 18446744073709551616 in *.

(** For a lookback inside the history the index is computed without
    wrapping. *)
Lemma lookback_index (len lookBack : Z) :
  0 <= lookBack < len -> in_int len ->
  to_size_t (to_int (to_int (len - lookBack) - 1)) = len - lookBack - 1.
Proof.
  intros Hlb Hlen. unfold_ints.
  rewrite (Z.mod_small (len - lookBack + 2147483648)) by lia.
  rewrite (Z.mod_small (len - lookBack + 2147483648 - 2147483648 - 1 + 2147483648))
    by lia.
  rewrite Z.mod_small by lia. lia.
Qed.

(** For a negative lookback the index, as the container sees it, is at or
    beyond the size. *)
Lemma negative_lookback_index (len lookBack : Z) :
  lookBack < 0 -> in_int lookBack -> 0 <= len -> in_int len ->
  len <= to_size_t (to_int (to_int (len - lookBack) - 1)).
Proof.
  intros Hneg Hlb Hpos Hlen. unfold_ints.
  Z.div_mod_to_equations. lia.
Qed.

Lemma states_at_beyond (states : list MorpheusHMDState) (n : Z) :
  Z.of_nat (length states) <= n -> states_at states n = Throws_out_of_range.
Proof.
  intros Hn. unfold states_at.
  destruct (Z.ltb_spec n (Z.of_nat (length states))); [lia | reflexivity].
Qed.

Lemma getState_in_range (d : MorpheusHMD) (lookBack : Z) :
  0 <= lookBack -> in_int lookBack ->
  in_int (Z.of_nat (length (HMDStates d))) ->
  getState lookBack d
  = Returns (nth_error (rev (HMDStates d)) (Z.to_nat lookBack)).
Proof.
  intros Hlb Hint Hlen. unfold getState.
  rewrite queueSize_exact by assumption.
  rewrite nth_error_rev.
  destruct (Z.ltb_spec lookBack (Z.of_nat (length (HMDStates d)))) as [Hin | Hout].
  - rewrite lookback_index by (assumption || lia).
    destruct (Nat.ltb_spec (Z.to_nat lookBack) (length (HMDStates d)))
      as [_ | Hge]; [| lia].
    unfold states_at.
    destruct (Z.ltb_spec (Z.of_nat (length (HMDStates d)) - lookBack - 1)
                (Z.of_nat (length (HMDStates d)))) as [_ | Hge]; [| lia].
    replace (Z.to_nat (Z.of_nat (length (HMDStates d)) - lookBack - 1))
      with (length (HMDStates d) - S (Z.to_nat lookBack))%nat by lia.
    destruct (nth_error (HMDStates d)
                (length (HMDStates d) - S (Z.to_nat lookBack))) eqn:Hnth;
      [reflexivity |].
    apply nth_error_None in Hnth. lia.
  - destruct (Nat.ltb_spec (Z.to_nat lookBack) (length (HMDStates d)))
      as [Hlt | _]; [lia | reflexivity].
Qed.

Lemma getState_negative (d : MorpheusHMD) (lookBack : Z) :
  lookBack < 0 -> in_int lookBack ->
  in_int (Z.of_nat (length (HMDStates d))) ->
  getState lookBack d = Throws_out_of_range.
Proof.
  intros Hneg Hint Hlen. unfold getState.
  rewrite queueSize_exact by assumption.
  destruct (Z.ltb_spec lookBack (Z.of_nat (length (HMDStates d)))) as [_ | Hge];
    [| lia].
  rewrite states_at_beyond; [reflexivity |].
  apply negative_lookback_index; (assumption || lia).
Qed.

(** C6. For a lookback that is not negative, getState answers the entry
    that many places back from the newest one (0 is the newest) when the
    lookback is below the length of the history, and the null pointer when
    it is at or beyond it. *)
Theorem getState_lookback :
  forall (d : MorpheusHMD) (lookBack : Z),
    0 <= lookBack ->
    in_int lookBack ->
    in_int (Z.of_nat (length (HMDStates d))) ->
    let len := Z.of_nat (length (HMDStates d)) in
    getState lookBack d = Returns (nth_error (rev (HMDStates d)) (Z.to_nat lookBack))
    /\ (lookBack < len ->
        exists s : MorpheusHMDState,
          getState lookBack d = Returns (Some s)
          /\ nth_error (HMDStates d) (Z.to_nat (len - 1 - lookBack)) = Some s)
    /\ (len <= lookBack -> getState lookBack d = Returns None)
    /\ (forall (older : list MorpheusHMDState) (newest : MorpheusHMDState),
          HMDStates d = older ++ [newest] ->
          lookBack = 0 -> getState lookBack d = Returns (Some newest)).
Proof.
  intros d lookBack Hlb Hint Hlen len.
  pose proof (getState_in_range d lookBack Hlb Hint Hlen) as Hget.
  split; [exact Hget |]. rewrite Hget. split; [| split].
  - intros Hin. rewrite nth_error_rev.
    destruct (Nat.ltb_spec (Z.to_nat lookBack) (length (HMDStates d)))
      as [_ | Hge]; [| lia].
    replace (Z.to_nat (len - 1 - lookBack))
      with (length (HMDStates d) - S (Z.to_nat lookBack))%nat by lia.
    destruct (nth_error (HMDStates d)
                (length (HMDStates d) - S (Z.to_nat lookBack))) as [s |] eqn:Hnth.
    + exists s. split; reflexivity.
    + apply nth_error_None in Hnth. lia.
  - intros Hout. f_equal. apply nth_error_None. rewrite length_rev. lia.
  - intros older newest Hstates Hzero. subst lookBack.
    rewrite Hstates, rev_app_distr. reflexivity.
Qed.

Lemma getState_lookback_witness :
  0 <= 1
  /\ in_int 1
  /\ in_int (Z.of_nat (length (HMDStates Sample.polled_device)))
  /\ getState 1 Sample.polled_device
     = Returns (Some (parse_data_input 1 Sample.config (Sample.packet x02)))
  /\ getState 3 Sample.polled_device = Returns None.
Proof.
  assert (Hone : in_int 1) by (vm_compute; split; discriminate).
  assert (Hthree : in_int 3) by (vm_compute; split; discriminate).
  assert (Hlen : in_int (Z.of_nat (length (HMDStates Sample.polled_device))))
    by (vm_compute; split; discriminate).
  split; [lia |]. split; [exact Hone |]. split; [exact Hlen |]. split.
  - exact (proj1 (getState_lookback Sample.polled_device 1 ltac:(lia) Hone Hlen)).
  - refine (proj1 (proj2 (proj2
              (getState_lookback Sample.polled_device 3 ltac:(lia) Hthree Hlen))) _).
    vm_compute. discriminate.
Defined.

(** C10. getState checks its argument against the length of the history
    only from above. For a negative lookback and a history that is not
    empty the check passes and the index it computes, length - lookback - 1,
    is at or beyond the length, so the access is out of range; a negative
    lookback is the only way there: the call returns an entry or the null
    pointer exactly when the lookback is not negative. *)
Theorem getState_negative_lookback :
  forall (d : MorpheusHMD) (lookBack : Z),
    in_int lookBack ->
    in_int (Z.of_nat (length (HMDStates d))) ->
    let len := Z.of_nat (length (HMDStates d)) in
    (lookBack < 0 ->
     HMDStates d <> [] ->
     (lookBack <? to_int len) = true
     /\ len <= len - lookBack - 1
     /\ len <= to_size_t (to_int (to_int (to_int len - lookBack) - 1))
     /\ getState lookBack d = Throws_out_of_range)
    /\ (getState lookBack d <> Throws_out_of_range <-> 0 <= lookBack).
Proof.
  intros d lookBack Hint Hlen len. split.
  - intros Hneg _. subst len. rewrite queueSize_exact by assumption.
    split; [apply Z.ltb_lt; lia |]. split; [lia |]. split.
    + apply negative_lookback_index; (assumption || lia).
    + apply getState_negative; assumption.
  - split.
    + intros Hsafe. destruct (Z.lt_ge_cases lookBack 0) as [Hneg | Hpos];
        [| assumption].
      exfalso. apply Hsafe. apply getState_negative; assumption.
    + intros Hpos. rewrite getState_in_range by assumption. discriminate.
Qed.

Lemma getState_negative_lookback_witness :
  in_int (-1)
  /\ in_int (Z.of_nat (length (HMDStates Sample.polled_device)))
  /\ -1 < 0
  /\ HMDStates Sample.polled_device <> []
  /\ getState (-1) Sample.polled_device = Throws_out_of_range.
Proof.
  assert (Hint : in_int (-1)) by (vm_compute; split; discriminate).
  assert (Hlen : in_int (Z.of_nat (length (HMDStates Sample.polled_device))))
    by (vm_compute; split; discriminate).
  assert (Hne : HMDStates Sample.polled_device <> [])
    by (vm_compute; discriminate).
  split; [exact Hint |]. split; [exact Hlen |]. split; [lia |].
  split; [exact Hne |].
  destruct (getState_negative_lookback Sample.polled_device (-1) Hint Hlen)
    as [Hneg _].
  exact (proj2 (proj2 (proj2 (Hneg ltac:(lia) Hne)))).
Defined.

(** ** Configuration *)

Section ConfigProperties.

Context {ptree : Type} `{PropertyTree ptree}.
Variable readTrackingColor : ptree -> eCommonTrackingColorID.

Lemma ptree2config_mismatch (c : MorpheusHMDConfig) (pt : ptree) (w : World) :
  pt_get get_optional_int pt "version" 0 <> CONFIG_VERSION ->
  ptree2config readTrackingColor c pt w
  = (set_version (pt_get get_optional_int pt "version" 0) c,
     server_log LogWarning "MorpheusHMDConfig" w).
Proof.
  intros Hversion. unfold ptree2config.
  destruct (Z.eqb_spec (pt_get get_optional_int pt "version" 0) CONFIG_VERSION);
    [contradiction | reflexivity].
Qed.

Lemma ptree2config_match (c : MorpheusHMDConfig) (pt : ptree) (w : World) :
  pt_get get_optional_int pt "version" 0 = CONFIG_VERSION ->
  let c' := fst (ptree2config readTrackingColor c pt w) in
  snd (ptree2config readTrackingColor c pt w) = w
  /\ version c' = CONFIG_VERSION
  /\ is_valid c' = pt_get get_optional_bool pt "is_valid" false
  /\ prediction_time c' = pt_get get_optional_float pt "prediction_time" Float32.zero
  /\ max_poll_failure_count c' = pt_get get_optional_long pt "max_poll_failure_count" 100
  /\ tracking_color_id c' = readTrackingColor pt
  /\ Forall (fun '(path, field) =>
               field c' = pt_get get_optional_float pt path (field c))
       fields_defaulting_to_current.
Proof.
  intros Hversion. unfold ptree2config. rewrite Hversion. cbn [Z.eqb CONFIG_VERSION].
  cbn. repeat split. repeat constructor.
Qed.

End ConfigProperties.

(** C7 (amended). Loading a document whose version differs from 1 reads
    nothing but the version: the configuration keeps every field as it was
    before the load (the constructor's defaults, on a configuration just
    constructed) except its version field, which takes the document's
    version (0 when the document has none), and a warning is logged, no
    error. When the version is 1 nothing is logged and every field is read
    on its own: is_valid, prediction_time and max_poll_failure_count fall
    back to false, 0 and 100, the tracking colour is what readTrackingColor
    finds, and each other field falls back to the value it had before the
    load. *)
Theorem config_fallback :
  forall (ptree : Type) (tree : PropertyTree ptree)
         (readTrackingColor : ptree -> eCommonTrackingColorID)
         (c : MorpheusHMDConfig) (pt : ptree) (w : World),
    let v := pt_get get_optional_int pt "version" 0 in
    let c' := fst (ptree2config readTrackingColor c pt w) in
    let w' := snd (ptree2config readTrackingColor c pt w) in
    (v <> CONFIG_VERSION ->
     c' = set_version v c
     /\ w' = server_log LogWarning "MorpheusHMDConfig" w)
    /\ (v = CONFIG_VERSION ->
        w' = w
        /\ version c' = CONFIG_VERSION
        /\ is_valid c' = pt_get get_optional_bool pt "is_valid" false
        /\ prediction_time c'
           = pt_get get_optional_float pt "prediction_time" Float32.zero
        /\ max_poll_failure_count c'
           = pt_get get_optional_long pt "max_poll_failure_count" 100
        /\ tracking_color_id c' = readTrackingColor pt
        /\ Forall (fun '(path, field) =>
                     field c' = pt_get get_optional_float pt path (field c))
             fields_defaulting_to_current).
Proof.
  intros ptree tree readTrackingColor c pt w v c' w'. subst v c' w'. split.
  - intros Hversion. rewrite ptree2config_mismatch by assumption.
    split; reflexivity.
  - intros Hversion. apply ptree2config_match. assumption.
Qed.

Lemma config_fallback_witness :
  (pt_get get_optional_int [("version"%string, PInt 2)] "version" 0 <> CONFIG_VERSION
   /\ fst (ptree2config (fun _ : document => Green) Sample.config
             [("version"%string, PInt 2)] (Sample.world []))
      = set_version 2 Sample.config
   /\ events (snd (ptree2config (fun _ : document => Green) Sample.config
                     [("version"%string, PInt 2)] (Sample.world [])))
      = [EvLog LogWarning "MorpheusHMDConfig"])
  /\ (pt_get get_optional_int
        [("version"%string, PInt 1);
         ("Calibration.Gyro.Gain"%string, PFloat Sample.half)] "version" 0
      = CONFIG_VERSION
      /\ let c' := fst (ptree2config (fun _ : document => Green) Sample.config
                          [("version"%string, PInt 1);
                           ("Calibration.Gyro.Gain"%string, PFloat Sample.half)]
                          (Sample.world [])) in
         is_valid c' = false
         /\ tracking_color_id c' = Green).
Proof.
  split.
  - assert (Hversion :
      pt_get get_optional_int [("version"%string, PInt 2)] "version" 0
      <> CONFIG_VERSION) by (vm_compute; discriminate).
    split; [exact Hversion |].
    destruct (config_fallback document document_tree (fun _ => Green) Sample.config
                [("version"%string, PInt 2)] (Sample.world []))
      as [Hmismatch _].
    destruct (Hmismatch Hversion) as [Hcfg Hworld].
    split; [exact Hcfg |]. rewrite Hworld. reflexivity.
  - split; [reflexivity |].
    destruct (config_fallback document document_tree (fun _ => Green) Sample.config
                [("version"%string, PInt 1);
                 ("Calibration.Gyro.Gain"%string, PFloat Sample.half)]
                (Sample.world []))
      as [_ Hmatch].
    destruct (Hmatch eq_refl) as (_ & _ & Hvalid & _ & _ & Hcolor & _).
    split; [exact Hvalid | exact Hcolor].
Defined.

(** C7 as stated fails, whatever the compiled-in defaults are: a
    configuration loaded from a document of another version carries that
    document's version, so documents of versions 2 and 3 load into
    different configurations, and not both into the default one. *)
Lemma mismatch_is_not_fully_default :
  ~ (exists defaults : MorpheusHMDConfig,
        forall (doc : document) (w : World),
          pt_get get_optional_int doc "version" 0 <> CONFIG_VERSION ->
          fst (ptree2config (fun _ : document => Blue) defaults doc w) = defaults).
Proof.
  intros [defaults Hclaim].
  pose proof (Hclaim [("version"%string, PInt 2)] (Sample.world [])
                ltac:(vm_compute; discriminate)) as Htwo.
  pose proof (Hclaim [("version"%string, PInt 3)] (Sample.world [])
                ltac:(vm_compute; discriminate)) as Hthree.
  apply (f_equal version) in Htwo. apply (f_equal version) in Hthree.
  cbn in Htwo, Hthree. congruence.
Qed.

(** ** Tracking colour *)

(** C8. Whatever the device and its configuration, the configured tracking
    colour included, and whatever the output parameter held,
    getTrackingColorID writes Blue to it and returns true. *)
Theorem getTrackingColorID_always_blue :
  (forall (d : MorpheusHMD) (out_tracking_color_id : eCommonTrackingColorID),
      getTrackingColorID d out_tracking_color_id = (Blue, true))
  /\ (forall (c : MorpheusHMDConfig) (details : MorpheusHIDDetails)
             (next : sequence_number) (buf : MorpheusDataInput)
             (states : list MorpheusHMDState)
             (configured out_tracking_color_id : eCommonTrackingColorID),
        let c' :=
          mkConfig (is_valid c) (version c) (accelerometer_gain c)
            (accelerometer_variance c) (gyro_gain c) (gyro_variance c)
            (gyro_drift c) (identity_gravity_direction c)
            (min_orientation_quality_screen_area c)
            (max_orientation_quality_screen_area c)
            (min_position_quality_screen_area c)
            (max_position_quality_screen_area c)
            (max_velocity c) (prediction_time c) (max_poll_failure_count c)
            configured in
        tracking_color_id c' = configured
        /\ getTrackingColorID (mkHMD c' details next buf states) out_tracking_color_id
           = (Blue, true))
  /\ tracking_color_id (cfg Sample.open_device) = Red
  /\ getTrackingColorID Sample.open_device Red = (Blue, true).
Proof.
  repeat split.
Qed.

(** * Further properties of the driver *)

(** ** Opening *)

Lemma getIsOpen_handles (d : MorpheusHMD) :
  getIsOpen d = true ->
  is_null (sensor_device_handle (HIDDetails d)) = false
  /\ is_null (command_device_handle (HIDDetails d)) = false.
Proof.
  unfold getIsOpen. intros Hopen. apply andb_prop in Hopen as [Hs Hc].
  split; apply negb_true_iff; assumption.
Qed.

Lemma open_result (e : HMDDeviceEnumerator) (d : MorpheusHMD) (w : World) :
  fst (fst (open e d w)) = getIsOpen (snd (fst (open e d w)))
  /\ is_null (sensor_device_handle (HIDDetails (snd (fst (open e d w)))))
     = is_null (command_device_handle (HIDDetails (snd (fst (open e d w)))))
  /\ hid_input (snd (open e d w)) = hid_input w.
Proof.
  unfold open. destruct (getIsOpen d) eqn:Hopen.
  - cbn [fst snd]. rewrite Hopen.
    destruct (getIsOpen_handles d Hopen) as [Hs Hc]. rewrite Hs, Hc.
    repeat split.
  - unfold hid_open_path, getIsOpen, close. cbn.
    destruct (hid_paths w (get_interface_path e MORPHEUS_SENSOR_INTERFACE));
      cbn;
      destruct (hid_paths w (get_interface_path e MORPHEUS_COMMAND_INTERFACE));
      cbn; repeat split.
Qed.

(** X1. open(enumerator) returns true exactly when the device is open
    afterwards, and whatever the device was before, it never leaves it with
    one channel handle set and the other null; it reads nothing from the
    sensor channel. *)
Theorem open_reports_open_state :
  forall (e : HMDDeviceEnumerator) (d : MorpheusHMD) (w : World),
    let d' := snd (fst (open e d w)) in
    fst (fst (open e d w)) = getIsOpen d'
    /\ is_null (sensor_device_handle (HIDDetails d'))
       = is_null (command_device_handle (HIDDetails d'))
    /\ hid_input (snd (open e d w)) = hid_input w.
Proof.
  intros e d w. apply open_result.
Qed.

(** X2. When open(enumerator) on a device that is not open fails, every
    handle hidapi gave it has been passed to hid_close and the counter is
    untouched; if one channel had opened, the transport details and the
    input buffer are reset, but if neither opened, close() takes the device
    for already closed and the details keep the identifier and the two
    paths of the failed attempt. *)
Theorem failed_open_releases_handles :
  forall (e : HMDDeviceEnumerator) (d : MorpheusHMD) (w : World),
    getIsOpen d = false ->
    fst (fst (open e d w)) = false ->
    let sensor_path := get_interface_path e MORPHEUS_SENSOR_INTERFACE in
    let command_path := get_interface_path e MORPHEUS_COMMAND_INTERFACE in
    let sensor := hid_paths w sensor_path in
    let command := hid_paths w command_path in
    let d' := snd (fst (open e d w)) in
    let w' := snd (open e d w) in
    (forall h : hid_device,
        sensor = Some h \/ command = Some h -> In (EvClose h) (events w'))
    /\ is_null sensor || is_null command = true
    /\ getIsOpen d' = false
    /\ NextPollSequenceNumber d' = NextPollSequenceNumber d
    /\ HMDStates d' = HMDStates d
    /\ (is_null sensor && is_null command = false ->
        HIDDetails d' = HIDDetails_Reset /\ InData d' = DataInput_Reset)
    /\ (is_null sensor && is_null command = true ->
        HIDDetails d'
        = {| device_identifier := get_path e;
             sensor_device_path := sensor_path;
             sensor_device_handle := None;
             command_device_path := command_path;
             command_device_handle := None |}
        /\ InData d' = InData d).
Proof.
  intros e d w Hclosed. unfold open. rewrite Hclosed.
  unfold hid_open_path, getIsOpen, close. cbn.
  destruct (hid_paths w (get_interface_path e MORPHEUS_SENSOR_INTERFACE))
    as [hs |];
    cbn;
    destruct (hid_paths w (get_interface_path e MORPHEUS_COMMAND_INTERFACE))
      as [hc |];
    cbn; intros Hfailed; try discriminate Hfailed.
  - split; [| repeat split; intros; discriminate].
    intros h [Hh | Hh]; [injection Hh as <-; cbn; tauto | discriminate].
  - split; [| repeat split; intros; discriminate].
    intros h [Hh | Hh]; [discriminate | injection Hh as <-; cbn; tauto].
  - split; [| repeat split; intros; discriminate].
    intros h [Hh | Hh]; discriminate.
Qed.

Lemma failed_open_releases_handles_witness :
  getIsOpen Sample.closed_device = false
  /\ fst (fst (open Sample.enumerator Sample.closed_device
                 Scenario.sensor_only_world)) = false
  /\ In (EvClose 1%nat)
       (events (snd (open Sample.enumerator Sample.closed_device
                       Scenario.sensor_only_world)))
  /\ device_identifier
       (HIDDetails (snd (fst (open Sample.enumerator Sample.closed_device
                                Scenario.unplugged_world))))
     = get_path Sample.enumerator.
Proof.
  split; [reflexivity |]. split; [reflexivity |].
  pose proof (failed_open_releases_handles Sample.enumerator Sample.closed_device
                Scenario.sensor_only_world eq_refl eq_refl) as (Hrel & _).
  pose proof (failed_open_releases_handles Sample.enumerator Sample.closed_device
                Scenario.unplugged_world eq_refl eq_refl)
    as (_ & _ & _ & _ & _ & _ & Hkept).
  split.
  - apply Hrel. left. reflexivity.
  - destruct (Hkept eq_refl) as [Hdetails _]. rewrite Hdetails. reflexivity.
Defined.

Lemma close_handles (d : MorpheusHMD) (w : World) :
  sensor_device_handle (HIDDetails (fst (close d w))) = None
  /\ command_device_handle (HIDDetails (fst (close d w))) = None.
Proof.
  unfold close.
  destruct (sensor_device_handle (HIDDetails d)) eqn:Hs;
    destruct (command_device_handle (HIDDetails d)) eqn:Hc;
    cbn; rewrite ?Hs, ?Hc; split; reflexivity.
Qed.

Lemma poll_HIDDetails (d : MorpheusHMD) (w : World) :
  HIDDetails (snd (fst (poll d w))) = HIDDetails d.
Proof.
  destruct (poll_appended d w) as (news & (_ & _ & _ & _ & Hh) & _).
  exact Hh.
Qed.

(** X3. Whatever open, poll and close calls a device has seen since its
    constructor, its two channel handles are both set or both null: a
    device is never observed half open. *)
Theorem never_partially_open :
  forall d : MorpheusHMD,
    reachable d ->
    is_null (sensor_device_handle (HIDDetails d))
    = is_null (command_device_handle (HIDDetails d)).
Proof.
  intros d Hreach.
  induction Hreach as [cfg0 | d e w _ _ | d w _ IH | d w _ _].
  - reflexivity.
  - apply open_result.
  - rewrite poll_HIDDetails. exact IH.
  - destruct (close_handles d w) as [Hs Hc]. rewrite Hs, Hc. reflexivity.
Qed.

Lemma never_partially_open_witness :
  reachable (snd (fst (open Sample.enumerator Sample.closed_device
                         Scenario.sensor_only_world)))
  /\ is_null (sensor_device_handle
                (HIDDetails (snd (fst (open Sample.enumerator Sample.closed_device
                                         Scenario.sensor_only_world)))))
     = is_null (command_device_handle
                  (HIDDetails (snd (fst (open Sample.enumerator Sample.closed_device
                                           Scenario.sensor_only_world))))).
Proof.
  assert (Hreach : reachable (snd (fst (open Sample.enumerator Sample.closed_device
                                          Scenario.sensor_only_world))))
    by (apply reach_open, reach_new).
  split; [exact Hreach | exact (never_partially_open _ Hreach)].
Defined.

Lemma close_cfg (d : MorpheusHMD) (w : World) : cfg (fst (close d w)) = cfg d.
Proof.
  unfold close.
  destruct (negb (is_null (sensor_device_handle (HIDDetails d)))
            || negb (is_null (command_device_handle (HIDDetails d))));
    reflexivity.
Qed.

Lemma open_cfg (e : HMDDeviceEnumerator) (d : MorpheusHMD) (w : World) :
  cfg (snd (fst (open e d w))) = cfg d.
Proof.
  unfold open. destruct (getIsOpen d); [reflexivity |].
  match goal with
  | |- context [if getIsOpen ?d1 then _ else _] => destruct (getIsOpen d1)
  end; [reflexivity |].
  match goal with
  | |- context [close ?d1 ?w1] =>
      pose proof (close_cfg d1 w1) as Hclose; destruct (close d1 w1)
  end.
  exact Hclose.
Qed.

Lemma poll_cfg (d : MorpheusHMD) (w : World) : cfg (snd (fst (poll d w))) = cfg d.
Proof.
  destruct (poll_appended d w) as (news & (_ & _ & _ & Hc & _) & _).
  exact Hc.
Qed.

(** X4. No call of open, poll or close changes the configuration of the
    device, so getMaxPollFailureCount answers the same value throughout the
    life of the device. *)
Theorem configuration_never_changes :
  forall d d' : MorpheusHMD,
    evolves d d' ->
    cfg d' = cfg d /\ getMaxPollFailureCount d' = getMaxPollFailureCount d.
Proof.
  intros d d' Hev.
  assert (Hcfg : cfg d' = cfg d).
  { induction Hev as [d | d d1 e w _ IH | d d1 w _ IH | d d1 w _ IH].
    - reflexivity.
    - rewrite open_cfg. exact IH.
    - rewrite poll_cfg. exact IH.
    - rewrite close_cfg. exact IH. }
  split; [exact Hcfg |]. unfold getMaxPollFailureCount. rewrite Hcfg. reflexivity.
Qed.

Lemma configuration_never_changes_witness :
  evolves Sample.closed_device Scenario.closed_again
  /\ cfg Scenario.closed_again = cfg Sample.closed_device
  /\ getMaxPollFailureCount Scenario.closed_again = 100.
Proof.
  assert (Hev : evolves Sample.closed_device Scenario.closed_again).
  { unfold Scenario.closed_again, Sample.polled_device, Sample.open_device.
    apply evolves_close, evolves_poll, evolves_open, evolves_here. }
  destruct (configuration_never_changes _ _ Hev) as [Hcfg Hcount].
  split; [exact Hev |]. split; [exact Hcfg |]. rewrite Hcount. reflexivity.
Defined.

(** ** Polling in any environment *)

Lemma poll_loop_outcome (n : nat) :
  forall (iteration : Z) (result : ePollResult) (d : MorpheusHMD) (w : World),
    0 <= iteration ->
    result <> _PollResultSuccessNoData ->
    exists (news : list MorpheusHMDState) (consumed : list (Z * MorpheusDataInput)),
      appended d (snd (fst (poll_loop n iteration result d w))) news
      /\ hid_input w
         = consumed ++ hid_input (snd (poll_loop n iteration result d w))
      /\ (length news <= length consumed <= length news + 1)%nat
      /\ (length consumed <= n)%nat
      /\ (fst (fst (poll_loop n iteration result d w)) = _PollResultSuccessNoData ->
          iteration = 0 /\ news = [])
      /\ (fst (fst (poll_loop n iteration result d w)) = _PollResultSuccessNewData ->
          news <> [] \/ iteration <> 0 \/ result = _PollResultSuccessNewData).
Proof.
  induction n as [| n IH]; intros iteration result d w Hit Hresult.
  - exists [], []. cbn [poll_loop fst snd app length].
    split; [apply appended_refl |]. split; [reflexivity |].
    split; [lia |]. split; [lia |]. split; [intros Hr; contradiction |].
    intros Hr. right. right. exact Hr.
  - cbn [poll_loop]. unfold hid_read.
    destruct (hid_input w) as [| [res data] rest] eqn:Hinput.
    + cbn [Z.eqb fst snd]. exists [], []. cbn [app length].
      split; [apply appended_set_InData, appended_refl |].
      split; [symmetry; exact Hinput |]. split; [lia |]. split; [lia |].
      destruct (Z.eqb_spec iteration 0) as [Hzero | Hpos].
      * split; [intros _; split; [exact Hzero | reflexivity] | discriminate].
      * split; [discriminate | intros _; right; left; exact Hpos].
    + destruct (Z.eqb_spec res 0) as [Hzero | Hnonzero].
      * cbn [fst snd]. exists [], [(res, data)]. cbn [app length hid_input set_hid_input].
        split; [apply appended_set_InData, appended_refl |].
        split; [reflexivity |]. split; [lia |]. split; [lia |].
        destruct (Z.eqb_spec iteration 0) as [Hz | Hpos].
        -- split; [intros _; split; [exact Hz | reflexivity] | discriminate].
        -- split; [discriminate | intros _; right; left; exact Hpos].
      * destruct (Z.ltb_spec res 0) as [Hneg | Hpos].
        -- cbn [fst snd]. exists [], [(res, data)].
           split; [apply appended_set_InData, appended_refl |].
           split; [unfold log_hid_error;
                   destruct (hid_error_mbs (set_hid_input rest w)); reflexivity |].
           cbn [length]. split; [lia |]. split; [lia |].
           split; discriminate.
        -- destruct (IH (iteration + 1) _PollResultSuccessNewData
                       (record_packet (set_InData data d)) (set_hid_input rest w)
                       ltac:(lia) ltac:(discriminate))
             as (news & consumed & Happ & Hin & Hlen & Hn & Hnodata & _).
           exists ([parse_data_input (NextPollSequenceNumber d) (cfg d) data] ++ news),
                  ((res, data) :: consumed).
           split; [eapply appended_trans; [apply ingest_appended | exact Happ] |].
           cbn [hid_input set_hid_input] in Hin.
           split; [cbn [app]; rewrite <- Hin; reflexivity |].
           cbn [app length]. split; [lia |]. split; [lia |]. split.
           ++ intros Hr. destruct (Hnodata Hr) as [Hbad _]. lia.
           ++ intros _. left. discriminate.
Qed.

Lemma poll_outcome_open (d : MorpheusHMD) (w : World) :
  exists (news : list MorpheusHMDState) (consumed : list (Z * MorpheusDataInput)),
    appended d (snd (fst (poll d w))) news
    /\ hid_input w = consumed ++ hid_input (snd (poll d w))
    /\ (length news <= length consumed <= length news + 1)%nat
    /\ (length consumed <= 32)%nat
    /\ (fst (fst (poll d w)) = _PollResultSuccessNoData ->
        news = [] /\ getIsOpen d = true)
    /\ (fst (fst (poll d w)) = _PollResultSuccessNewData ->
        news <> [] /\ getIsOpen d = true).
Proof.
  unfold poll. destruct (getIsOpen d).
  - destruct (poll_loop_outcome k_max_iterations 0 _PollResultFailure d w
                ltac:(lia) ltac:(discriminate))
      as (news & consumed & Happ & Hin & Hlen & Hn & Hnodata & Hnew).
    exists news, consumed. repeat (split; [assumption |]). split.
    + intros Hr. split; [apply (Hnodata Hr) | reflexivity].
    + intros Hr. split; [| reflexivity].
      destruct (Hnew Hr) as [Hne | [Hbad | Hbad]];
        [exact Hne | contradiction | discriminate].
  - exists [], []. cbn [fst snd app length].
    split; [apply appended_refl |]. split; [reflexivity |].
    split; [lia |]. split; [lia |]. split; discriminate.
Qed.

Lemma hid_input_log_hid_error (w : World) :
  hid_input (log_hid_error w) = hid_input w.
Proof.
  unfold log_hid_error. destruct (hid_error_mbs w); reflexivity.
Qed.

(** A queue splits into the packets a poll reads and what follows them:
    nothing, or an answer that carries no packet, unless the limit was
    reached. *)
Lemma readable_split (n : nat) :
  forall queue : list (Z * MorpheusDataInput),
    Forall (fun p => 0 < fst p) (readable n queue)
    /\ (length (readable n queue) <= n)%nat
    /\ exists tail : list (Z * MorpheusDataInput),
         queue = readable n queue ++ tail
         /\ (length (readable n queue) = n
             \/ tail = []
             \/ exists (res : Z) (data : MorpheusDataInput)
                       (rest : list (Z * MorpheusDataInput)),
                  tail = (res, data) :: rest /\ res <= 0).
Proof.
  induction n as [| n IH]; intros queue.
  - cbn [readable length]. split; [constructor |]. split; [lia |].
    exists queue. split; [reflexivity | left; reflexivity].
  - destruct queue as [| [res data] rest]; cbn [readable].
    + split; [constructor |]. split; [cbn; lia |].
      exists []. split; [reflexivity | right; left; reflexivity].
    + destruct (Z.ltb_spec 0 res) as [Hpos | Hstop].
      * destruct (IH rest) as (Hall & Hlen & tail & Hqueue & Hend).
        split; [constructor; [exact Hpos | exact Hall] |].
        cbn [length]. split; [lia |].
        exists tail. split; [cbn [app]; rewrite <- Hqueue; reflexivity |].
        destruct Hend as [Hfull | Hrest]; [left; lia | right; exact Hrest].
      * split; [constructor |]. split; [cbn; lia |].
        exists ((res, data) :: rest). split; [reflexivity |].
        right. right. exists res, data, rest. split; [reflexivity | exact Hstop].
Qed.

(** X5. In any environment one poll of an open device reads the packets at
    the front of the sensor queue, at most 32 of them, and appends one
    entry per packet: its history ends as the last five of the old entries
    followed by the decoded packets in the order read, numbered from the
    old counter, and the counter has moved on by their number. Besides the
    packets it takes at most one more answer off the queue, the one that
    stopped it, which carries no packet and gives no entry. It reports
    NoData only when it read no packet, NewData only when it read one, and
    Failure only when a negative answer stopped it. A device that is not
    open gets Failure, with device and environment untouched. *)
Theorem poll_outcome :
  forall (d : MorpheusHMD) (w : World),
    let pkts := readable 32 (hid_input w) in
    let d' := snd (fst (poll d w)) in
    (getIsOpen d = true ->
     (length pkts <= 32)%nat
     /\ HMDStates d'
        = history_after (HMDStates d)
            (decoded_states (cfg d) (NextPollSequenceNumber d) pkts)
     /\ NextPollSequenceNumber d'
        = NextPollSequenceNumber d + Z.of_nat (length pkts)
     /\ (exists stop : list (Z * MorpheusDataInput),
           hid_input w = pkts ++ stop ++ hid_input (snd (poll d w))
           /\ (length stop <= 1)%nat
           /\ Forall (fun p => fst p <= 0) stop
           /\ (fst (fst (poll d w)) = _PollResultFailure ->
               exists p : Z * MorpheusDataInput, stop = [p] /\ fst p < 0))
     /\ (fst (fst (poll d w)) = _PollResultSuccessNoData -> pkts = [])
     /\ (fst (fst (poll d w)) = _PollResultSuccessNewData -> pkts <> []))
    /\ (getIsOpen d = false -> poll d w = (_PollResultFailure, d, w)).
Proof.
  intros d w pkts d'. subst d'.
  split; [| intros Hclosed; unfold poll; rewrite Hclosed; reflexivity].
  intros Hopen.
  destruct (readable_split 32 (hid_input w))
    as (Hpos & Hlen & tail & Hqueue & Hend).
  fold pkts in Hpos, Hlen, Hqueue, Hend.
  destruct (poll_cases d w pkts Hopen Hpos) as (Hzero & Hempty & Hneg & Hfull).
  rewrite ingest_all_after_packets in Hzero, Hempty, Hneg, Hfull.
  split; [exact Hlen |].
  destruct (Nat.eq_dec (length pkts) 32) as [Hall | Hfewer].
  - rewrite (Hfull tail Hall Hqueue). cbn [fst snd after_packets HMDStates
      NextPollSequenceNumber hid_input set_hid_input].
    split; [reflexivity |]. split; [reflexivity |]. split.
    + exists []. split; [exact Hqueue |]. split; [cbn; lia |].
      split; [constructor | discriminate].
    + split; [discriminate |].
      intros _ Hnone. rewrite Hnone in Hall. discriminate Hall.
  - destruct Hend as [Hall | [Hnil | (res & data & rest & Htail & Hres)]];
      [contradiction | |].
    + subst tail. rewrite app_nil_r in Hqueue.
      rewrite (Hempty ltac:(lia) Hqueue). cbn [fst snd after_packets HMDStates
        NextPollSequenceNumber hid_input set_hid_input].
      split; [reflexivity |]. split; [reflexivity |]. split.
      * exists []. rewrite app_nil_r. split; [exact Hqueue |].
        split; [cbn; lia |]. split; [constructor |].
        destruct pkts; discriminate.
      * destruct pkts; split; intros; congruence.
    + subst tail. destruct (Z.eq_dec res 0) as [-> | Hnonzero].
      * rewrite (Hzero data rest ltac:(lia) Hqueue).
        cbn [fst snd after_packets HMDStates NextPollSequenceNumber hid_input
             set_hid_input].
        split; [reflexivity |]. split; [reflexivity |]. split.
        -- exists [(0, data)]. split; [exact Hqueue |]. split; [cbn; lia |].
           split; [constructor; [cbn; lia | constructor] |].
           destruct pkts; discriminate.
        -- destruct pkts; split; intros; congruence.
      * rewrite (Hneg res data rest ltac:(lia) ltac:(lia) Hqueue).
        cbn [fst snd after_packets HMDStates NextPollSequenceNumber].
        rewrite hid_input_log_hid_error. cbn [hid_input set_hid_input].
        split; [reflexivity |]. split; [reflexivity |]. split.
        -- exists [(res, data)]. split; [exact Hqueue |]. split; [cbn; lia |].
           split; [constructor; [cbn; lia | constructor] |].
           intros _. exists (res, data). split; [reflexivity | cbn; lia].
        -- split; discriminate.
Qed.

Lemma poll_outcome_witness :
  (getIsOpen Sample.open_device = true
   /\ fst (fst (poll Sample.open_device (Sample.world Sample.three_packets)))
      = _PollResultSuccessNewData
   /\ HMDStates Sample.polled_device
      = [decoded_state 0 Sample.config (Sample.packet x01);
         decoded_state 1 Sample.config (Sample.packet x02);
         decoded_state 2 Sample.config (Sample.packet x03)]
   /\ NextPollSequenceNumber Sample.polled_device = 3)
  /\ getIsOpen Scenario.closed_again = false
  /\ poll Scenario.closed_again (Sample.world Sample.three_packets)
     = (_PollResultFailure, Scenario.closed_again, Sample.world Sample.three_packets).
Proof.
  split.
  - split; [reflexivity |]. split; [reflexivity |].
    destruct (poll_outcome Sample.open_device (Sample.world Sample.three_packets))
      as [Hopen _].
    destruct (Hopen eq_refl) as (_ & Hstates & Hnext & _).
    split.
    + unfold Sample.polled_device. rewrite Hstates. reflexivity.
    + unfold Sample.polled_device. rewrite Hnext. reflexivity.
  - split; [reflexivity |].
    exact (proj2 (poll_outcome Scenario.closed_again
                    (Sample.world Sample.three_packets)) eq_refl).
Defined.

Lemma counting_last (start : Z) (n : nat) :
  counting start (S n) = counting start n ++ [start + Z.of_nat n].
Proof.
  replace (S n) with (n + 1)%nat by lia. rewrite counting_app. reflexivity.
Qed.

Lemma in_int_small (n : nat) : (n <= 5)%nat -> in_int (Z.of_nat n).
Proof.
  intros Hn. unfold in_int, INT_MIN, INT_MAX.
  change (2 ^ 31) with 2147483648. lia.
Qed.

Lemma in_int_0 : in_int 0.
Proof. unfold in_int, INT_MIN, INT_MAX. change (2 ^ 31) with 2147483648. lia. Qed.

Lemma appended_newest (d d' : MorpheusHMD) (news : list MorpheusHMDState) :
  appended d d' news ->
  news <> [] ->
  exists (older : list MorpheusHMDState) (e : MorpheusHMDState),
    HMDStates d' = older ++ [e]
    /\ (length older <= 4)%nat
    /\ PollSequenceNumber e = NextPollSequenceNumber d' - 1.
Proof.
  intros (Hstates & Hseq & Hnext & _ & _) Hne.
  destruct (exists_last Hne) as (news0 & e & ->).
  exists (make_room (fold_left push_state news0 (HMDStates d))), e.
  rewrite fold_left_app in Hstates. cbn [fold_left] in Hstates.
  split; [exact Hstates |]. split.
  - rewrite make_room_last_n, length_last_n. lia.
  - rewrite length_app in Hseq, Hnext. cbn [length] in Hseq, Hnext.
    replace (length news0 + 1)%nat with (S (length news0)) in Hseq by lia.
    rewrite map_app, counting_last in Hseq. cbn [map] in Hseq.
    apply app_inj_tail in Hseq as [_ Hlast]. lia.
Qed.

(** X6. After a poll that reports NewData, lookback 0 is a state whose
    sequence number is one below the counter, and the counter has moved
    forward. *)
Theorem newest_entry_after_new_data :
  forall (d : MorpheusHMD) (w : World),
    fst (fst (poll d w)) = _PollResultSuccessNewData ->
    let d' := snd (fst (poll d w)) in
    exists e : MorpheusHMDState,
      getState 0 d' = Returns (Some e)
      /\ PollSequenceNumber e = NextPollSequenceNumber d' - 1
      /\ NextPollSequenceNumber d < NextPollSequenceNumber d'.
Proof.
  intros d w Hnew d'. subst d'.
  destruct (poll_outcome_open d w) as (news & consumed & Happ & _ & _ & _ & _ & Hne).
  destruct (Hne Hnew) as [Hnonempty _].
  destruct (appended_newest _ _ _ Happ Hnonempty) as (older & e & Hstates & Hlen & Hseq).
  exists e. split; [| split; [exact Hseq |]].
  - rewrite getState_in_range.
    + rewrite Hstates, rev_app_distr. reflexivity.
    + lia.
    + apply in_int_0.
    + rewrite Hstates, length_app. cbn [length].
      apply in_int_small. lia.
  - destruct Happ as (_ & _ & Hnext & _ & _).
    destruct news; [contradiction | cbn [length] in Hnext; lia].
Qed.

Lemma newest_entry_after_new_data_witness :
  fst (fst (poll Sample.open_device (Sample.world Sample.three_packets)))
  = _PollResultSuccessNewData
  /\ exists e : MorpheusHMDState,
       getState 0 Sample.polled_device = Returns (Some e)
       /\ PollSequenceNumber e = NextPollSequenceNumber Sample.polled_device - 1
       /\ NextPollSequenceNumber Sample.open_device
          < NextPollSequenceNumber Sample.polled_device.
Proof.
  split; [reflexivity |].
  exact (newest_entry_after_new_data Sample.open_device
           (Sample.world Sample.three_packets) eq_refl).
Defined.

(** ** History across close and open *)

Lemma getState_same_history (lookBack : Z) (d d' : MorpheusHMD) :
  HMDStates d' = HMDStates d -> getState lookBack d' = getState lookBack d.
Proof.
  intros Hsame. unfold getState. rewrite Hsame. reflexivity.
Qed.

(** X7. close and open leave every answer of getState as it was: the
    states decoded before a close are still served after it, and after a
    reopening. *)
Theorem getState_survives_close_and_open :
  forall (lookBack : Z) (d : MorpheusHMD) (w : World) (e : HMDDeviceEnumerator),
    getState lookBack (fst (close d w)) = getState lookBack d
    /\ getState lookBack (snd (fst (open e d w))) = getState lookBack d
    /\ getState lookBack (snd (fst (open e (fst (close d w)) (snd (close d w)))))
       = getState lookBack d.
Proof.
  intros lookBack d w e. split; [| split].
  - apply getState_same_history, close_HMDStates.
  - apply getState_same_history, open_HMDStates.
  - apply getState_same_history. rewrite open_HMDStates. apply close_HMDStates.
Qed.

Lemma close_not_open (d : MorpheusHMD) (w : World) :
  getIsOpen (fst (close d w)) = false.
Proof.
  destruct (close_handles d w) as [Hs Hc].
  unfold getIsOpen. rewrite Hs, Hc. reflexivity.
Qed.

(** X8. A close followed by an open that succeeds restarts the numbering
    at 0 whatever the counter was, while the history is kept: the first
    packet read afterwards is recorded as number 0 behind the states of
    the earlier session. *)
Theorem reopen_restarts_numbering :
  forall (d : MorpheusHMD) (w1 w2 : World) (e : HMDDeviceEnumerator)
         (data : MorpheusDataInput),
    let d2 := snd (fst (open e (fst (close d w1)) w2)) in
    fst (fst (open e (fst (close d w1)) w2)) = true ->
    getIsOpen d2 = true
    /\ NextPollSequenceNumber d2 = 0
    /\ HMDStates d2 = HMDStates d
    /\ HMDStates (ingest d2 data)
       = push_state (HMDStates d) (parse_data_input 0 (cfg d) data).
Proof.
  intros d w1 w2 e data d2 Hok. subst d2.
  destruct (open_resets_counter e (fst (close d w1)) w2
              (close_not_open d w1) Hok) as [Hzero Hopen].
  assert (Hstates :
    HMDStates (snd (fst (open e (fst (close d w1)) w2))) = HMDStates d)
    by (rewrite open_HMDStates; apply close_HMDStates).
  split; [exact Hopen |]. split; [exact Hzero |]. split; [exact Hstates |].
  destruct (ingest_appended (snd (fst (open e (fst (close d w1)) w2))) data)
    as (Hpush & _).
  rewrite Hpush, Hstates, Hzero, open_cfg, close_cfg. reflexivity.
Qed.

Lemma reopen_restarts_numbering_witness :
  fst (fst (open Sample.enumerator
              (fst (close Sample.polled_device (Sample.world []))) (Sample.world [])))
  = true
  /\ map PollSequenceNumber
       (HMDStates
          (ingest (snd (fst (open Sample.enumerator
                               (fst (close Sample.polled_device (Sample.world [])))
                               (Sample.world []))))
             (Sample.packet x07)))
     = [0; 1; 2; 0].
Proof.
  split; [reflexivity |].
  destruct (reopen_restarts_numbering Sample.polled_device (Sample.world [])
              (Sample.world []) Sample.enumerator (Sample.packet x07) eq_refl)
    as (_ & _ & _ & Hstates).
  rewrite Hstates. reflexivity.
Defined.

(** X9. Appending a state moves every lookback back by one: what lookback
    n answered before a packet is recorded, lookback n + 1 answers after
    it, for n from 0 to 3; lookback 0 is the state just decoded; and
    lookback 5 answers nothing. *)
Theorem lookback_shifts_on_append :
  forall (d : MorpheusHMD) (data : MorpheusDataInput) (lookBack : Z),
    0 <= lookBack < 4 ->
    in_int (Z.of_nat (length (HMDStates d))) ->
    getState (lookBack + 1) (ingest d data) = getState lookBack d
    /\ getState 0 (ingest d data)
       = Returns (Some (parse_data_input (NextPollSequenceNumber d) (cfg d) data))
    /\ getState 5 (ingest d data) = Returns None.
Proof.
  intros d data lookBack Hlb Hlen.
  assert (Hstates : HMDStates (ingest d data)
            = last_n 4 (HMDStates d)
              ++ [parse_data_input (NextPollSequenceNumber d) (cfg d) data]).
  { destruct (ingest_appended d data) as (Hpush & _).
    rewrite Hpush. cbn [fold_left]. unfold push_state.
    rewrite make_room_last_n. reflexivity. }
  assert (Hlen' : in_int (Z.of_nat (length (HMDStates (ingest d data))))).
  { apply in_int_small. rewrite Hstates, length_app, length_last_n.
    cbn [length]. lia. }
  assert (Hint : forall z : Z, 0 <= z <= 5 -> in_int z).
  { intros z Hz. unfold in_int, INT_MIN, INT_MAX.
    change (2 ^ 31) with 2147483648. lia. }
  rewrite !getState_in_range by first [assumption | lia | apply Hint; lia].
  rewrite Hstates, rev_app_distr. cbn [rev app].
  split; [| split].
  - replace (Z.to_nat (lookBack + 1)) with (S (Z.to_nat lookBack)) by lia.
    cbn [nth_error]. unfold last_n. rewrite <- firstn_rev.
    rewrite nth_error_firstn.
    destruct (Nat.ltb_spec (Z.to_nat lookBack) 4) as [_ | Hge]; [reflexivity | lia].
  - reflexivity.
  - f_equal. apply nth_error_None. cbn [length].
    rewrite length_rev, length_last_n. change (Z.to_nat 5) with 5%nat. lia.
Qed.

Lemma lookback_shifts_on_append_witness :
  0 <= 1 < 4
  /\ in_int (Z.of_nat (length (HMDStates Sample.polled_device)))
  /\ getState 2 (ingest Sample.polled_device (Sample.packet x07))
     = getState 1 Sample.polled_device.
Proof.
  assert (Hlen : in_int (Z.of_nat (length (HMDStates Sample.polled_device))))
    by (vm_compute; split; discriminate).
  split; [lia |]. split; [exact Hlen |].
  exact (proj1 (lookback_shifts_on_append Sample.polled_device (Sample.packet x07) 1
                  ltac:(lia) Hlen)).
Defined.

(** ** Matching an enumerator *)

Lemma lowercase_empty (s : string) : lowercase s = EmptyString -> s = EmptyString.
Proof. destruct s; [reflexivity | discriminate]. Qed.

(** X10. After an open(enumerator) that opened a closed device, the device
    matches that enumerator, under strcmp as under _stricmp, and
    getUSBDevicePath is the path of the sensor interface. It goes on
    matching after an open in which neither channel opened, because that
    failure does not reset the identifier. After a close that released a
    handle the identifier is empty and the device matches no enumerator
    with a path; and it never matches an enumerator of another device
    type. *)
Theorem matches_after_open :
  forall (win32 : bool) (e : HMDDeviceEnumerator) (d : MorpheusHMD) (w : World),
    (getIsOpen d = false ->
     fst (fst (open e d w)) = true ->
     matchesDeviceEnumerator win32 true e (snd (fst (open e d w))) = true
     /\ getUSBDevicePath (snd (fst (open e d w)))
        = get_interface_path e MORPHEUS_SENSOR_INTERFACE)
    /\ (getIsOpen d = false ->
        hid_paths w (get_interface_path e MORPHEUS_SENSOR_INTERFACE) = None ->
        hid_paths w (get_interface_path e MORPHEUS_COMMAND_INTERFACE) = None ->
        fst (fst (open e d w)) = false
        /\ matchesDeviceEnumerator win32 true e (snd (fst (open e d w))) = true)
    /\ (is_null (sensor_device_handle (HIDDetails d))
        && is_null (command_device_handle (HIDDetails d)) = false ->
        c_str (get_path e) <> EmptyString ->
        matchesDeviceEnumerator win32 true e (fst (close d w)) = false)
    /\ matchesDeviceEnumerator win32 false e d = false.
Proof.
  intros win32 e d w. split; [| split; [| split]].
  - intros Hclosed. unfold open. rewrite Hclosed.
    unfold hid_open_path, getIsOpen, close. cbn.
    destruct (hid_paths w (get_interface_path e MORPHEUS_SENSOR_INTERFACE)); cbn;
      destruct (hid_paths w (get_interface_path e MORPHEUS_COMMAND_INTERFACE)); cbn;
      intros Hok; try discriminate Hok.
    split; [| reflexivity]. destruct win32; apply String.eqb_refl.
  - intros Hclosed Hs Hc. unfold open. rewrite Hclosed.
    unfold hid_open_path, getIsOpen, close. cbn. rewrite Hs. cbn. rewrite Hc. cbn.
    split; [reflexivity |]. destruct win32; apply String.eqb_refl.
  - intros Hheld Hpath. unfold close, matchesDeviceEnumerator.
    destruct (sensor_device_handle (HIDDetails d));
      destruct (command_device_handle (HIDDetails d));
      try discriminate Hheld; cbn;
      (destruct win32;
       [destruct (lowercase (c_str (get_path e))) eqn:Hlow;
        [apply lowercase_empty in Hlow; contradiction | reflexivity]
       | destruct (c_str (get_path e)); [contradiction | reflexivity]]).
  - reflexivity.
Qed.

Lemma matches_after_open_witness :
  getIsOpen Sample.closed_device = false
  /\ fst (fst (open Sample.enumerator Sample.closed_device (Sample.world []))) = true
  /\ matchesDeviceEnumerator true true Sample.enumerator Sample.open_device = true
  /\ matchesDeviceEnumerator false true Sample.enumerator
       (snd (fst (open Sample.enumerator Sample.closed_device
                    Scenario.unplugged_world))) = true
  /\ matchesDeviceEnumerator false true Sample.enumerator Scenario.closed_again = false.
Proof.
  destruct (matches_after_open true Sample.enumerator Sample.closed_device
              (Sample.world [])) as (Hopen & _).
  destruct (matches_after_open false Sample.enumerator Sample.closed_device
              Scenario.unplugged_world) as (_ & Hfailed & _).
  destruct (matches_after_open false Sample.enumerator Sample.polled_device
              (Sample.world [])) as (_ & _ & Hclose & _).
  split; [reflexivity |]. split; [reflexivity |].
  split; [exact (proj1 (Hopen eq_refl eq_refl)) |].
  split; [exact (proj2 (Hfailed eq_refl eq_refl eq_refl)) |].
  apply Hclose; [reflexivity | discriminate].
Defined.

(** ** Raw values *)

Lemma uchar_inj (a b : byte) : uchar a = uchar b -> a = b.
Proof.
  unfold uchar. intros Heq. apply N2Z.inj in Heq.
  pose proof (Byte.of_to_N a) as Ha. pose proof (Byte.of_to_N b) as Hb.
  rewrite Heq in Ha. congruence.
Qed.

Lemma bytes_of_piece_together (v : byte2) :
  bytes_of_short (piece_together v) = (uchar (fst v), uchar (snd v)).
Proof.
  rewrite piece_together_signed16. destruct v as [lo hi].
  unfold bytes_of_short, signed16. cbn [fst snd].
  pose proof (uchar_range lo) as Hlo. pose proof (uchar_range hi) as Hhi.
  destruct (Z.ltb_spec (uchar hi * 256 + uchar lo) 32768) as [Hpos | Hneg];
    f_equal; Z.div_mod_to_equations; lia.
Qed.

Lemma piece_together_inj (v1 v2 : byte2) :
  piece_together v1 = piece_together v2 -> v1 = v2.
Proof.
  intros Heq. apply (f_equal bytes_of_short) in Heq.
  rewrite !bytes_of_piece_together in Heq.
  destruct v1 as [a1 b1], v2 as [a2 b2]. cbn [fst snd] in Heq.
  injection Heq as Ha Hb. apply uchar_inj in Ha. apply uchar_inj in Hb.
  congruence.
Qed.

(** X11. The raw value of an axis keeps both transmitted bytes: the low
    byte is the value modulo 256 and the high byte the next eight bits, so
    two sensor frames that decode to the same raw accelerometer and
    gyroscope vectors were the same twelve bytes. *)
Theorem raw_values_keep_the_bytes :
  (forall v : byte2,
      bytes_of_short (piece_together v) = (uchar (fst v), uchar (snd v)))
  /\ (forall (c1 c2 : MorpheusHMDConfig) (f1 f2 : MorpheusRawSensorFrame),
        RawAccel (parse_sensor_frame c1 f1) = RawAccel (parse_sensor_frame c2 f2) ->
        RawGyro (parse_sensor_frame c1 f1) = RawGyro (parse_sensor_frame c2 f2) ->
        f1 = f2).
Proof.
  split; [exact bytes_of_piece_together |].
  intros c1 c2 [ax1 ay1 az1 gx1 gy1 gz1] [ax2 ay2 az2 gx2 gy2 gz2].
  unfold parse_sensor_frame. cbn [RawAccel RawGyro accel_x accel_y accel_z
                                   gyro_x gyro_y gyro_z].
  rewrite !to_int_piece_together, <- !piece_together_signed16.
  intros Haccel Hgyro.
  injection Haccel as Hax Hay Haz. injection Hgyro as Hgx Hgy Hgz.
  apply piece_together_inj in Hax, Hay, Haz, Hgx, Hgy, Hgz.
  congruence.
Qed.

Lemma raw_values_keep_the_bytes_witness :
  bytes_of_short (piece_together (xff, x7f)) = (255, 127)
  /\ (RawAccel (parse_sensor_frame Sample.config Sample.raw_frame)
      = RawAccel (parse_sensor_frame Scenario.other_config Sample.raw_frame)
      /\ RawGyro (parse_sensor_frame Sample.config Sample.raw_frame)
         = RawGyro (parse_sensor_frame Scenario.other_config Sample.raw_frame))
  /\ Sample.raw_frame = Sample.raw_frame.
Proof.
  destruct raw_values_keep_the_bytes as [Hbytes Hinj].
  split; [exact (Hbytes (xff, x7f)) |].
  assert (Haccel : RawAccel (parse_sensor_frame Sample.config Sample.raw_frame)
            = RawAccel (parse_sensor_frame Scenario.other_config Sample.raw_frame))
    by reflexivity.
  assert (Hgyro : RawGyro (parse_sensor_frame Sample.config Sample.raw_frame)
            = RawGyro (parse_sensor_frame Scenario.other_config Sample.raw_frame))
    by reflexivity.
  split; [split; assumption |].
  exact (Hinj Sample.config Scenario.other_config Sample.raw_frame Sample.raw_frame
           Haccel Hgyro).
Defined.

(** ** Loading and saving the configuration *)

Section LoadProperties.

Context {ptree : Type} `{PropertyTree ptree}.
Variable readTrackingColor : ptree -> eCommonTrackingColorID.

Lemma pt_get_twice {A : Type} (lookup : ptree -> string -> option A)
    (pt : ptree) (path : string) (a : A) :
  pt_get lookup pt path (pt_get lookup pt path a) = pt_get lookup pt path a.
Proof. unfold pt_get. destruct (lookup pt path); reflexivity. Qed.

Lemma ptree2config_twice (c : MorpheusHMDConfig) (pt : ptree) (w w' : World) :
  fst (ptree2config readTrackingColor
         (fst (ptree2config readTrackingColor c pt w)) pt w')
  = fst (ptree2config readTrackingColor c pt w).
Proof.
  unfold ptree2config.
  destruct (pt_get get_optional_int pt "version" 0 =? CONFIG_VERSION).
  - cbn. rewrite !pt_get_twice. reflexivity.
  - reflexivity.
Qed.

Lemma ptree2config_complete (c1 c2 : MorpheusHMDConfig) (pt : ptree) (w : World) :
  pt_get get_optional_int pt "version" 0 = CONFIG_VERSION ->
  Forall (fun '(path, _) => get_optional_float pt path <> None)
    fields_defaulting_to_current ->
  fst (ptree2config readTrackingColor c1 pt w)
  = fst (ptree2config readTrackingColor c2 pt w).
Proof.
  intros Hversion Hall. unfold ptree2config. rewrite Hversion.
  cbn [Z.eqb CONFIG_VERSION Pos.eqb fst].
  unfold fields_defaulting_to_current in Hall.
  repeat match goal with
         | Hf : Forall _ (_ :: _) |- _ => inversion Hf; clear Hf; subst
         end.
  unfold pt_get.
  repeat match goal with
         | Hp : get_optional_float pt ?path <> None |- _ =>
             destruct (get_optional_float pt path); [clear Hp | contradiction]
         end.
  reflexivity.
Qed.

End LoadProperties.

(** X12. Loading is idempotent: loading the same document a second time
    into the configuration the first load produced changes nothing,
    whether or not the version matched. *)
Theorem load_is_idempotent :
  forall (ptree : Type) (tree : PropertyTree ptree)
         (readTrackingColor : ptree -> eCommonTrackingColorID)
         (c : MorpheusHMDConfig) (pt : ptree) (w w' : World),
    fst (ptree2config readTrackingColor
           (fst (ptree2config readTrackingColor c pt w)) pt w')
    = fst (ptree2config readTrackingColor c pt w).
Proof.
  intros ptree tree readTrackingColor c pt w w'. apply ptree2config_twice.
Qed.

(** X13. A document of version 1 in which the thirteen calibration and
    filter values are all present determines the loaded configuration: what
    the configuration held before the load no longer shows in any
    field. *)
Theorem complete_document_determines_configuration :
  forall (ptree : Type) (tree : PropertyTree ptree)
         (readTrackingColor : ptree -> eCommonTrackingColorID)
         (c1 c2 : MorpheusHMDConfig) (pt : ptree) (w : World),
    pt_get get_optional_int pt "version" 0 = CONFIG_VERSION ->
    Forall (fun '(path, _) => get_optional_float pt path <> None)
      fields_defaulting_to_current ->
    fst (ptree2config readTrackingColor c1 pt w)
    = fst (ptree2config readTrackingColor c2 pt w).
Proof.
  intros ptree tree readTrackingColor c1 c2 pt w.
  apply ptree2config_complete.
Qed.

Lemma complete_document_determines_configuration_witness :
  pt_get get_optional_int (config2ptree ColourCodec.write Sample.config) "version" 0
  = CONFIG_VERSION
  /\ fst (ptree2config ColourCodec.read Sample.config
            (config2ptree ColourCodec.write Scenario.other_config) (Sample.world []))
     = fst (ptree2config ColourCodec.read Scenario.other_config
              (config2ptree ColourCodec.write Scenario.other_config)
              (Sample.world [])).
Proof.
  split; [reflexivity |].
  apply (complete_document_determines_configuration document document_tree).
  - reflexivity.
  - unfold fields_defaulting_to_current.
    repeat (constructor; [vm_compute; discriminate |]). constructor.
Defined.

Lemma doc_find_put_same (doc : document) (p : string) (v : pdata) :
  doc_find (doc_put doc p v) p = Some v.
Proof.
  induction doc as [| [k old] doc IH]; cbn.
  - rewrite String.eqb_refl. reflexivity.
  - destruct (String.eqb_spec k p) as [-> | Hne]; cbn.
    + rewrite String.eqb_refl. reflexivity.
    + destruct (String.eqb_spec k p); [contradiction | exact IH].
Qed.

Lemma doc_find_put_other (doc : document) (p q : string) (v : pdata) :
  p <> q -> doc_find (doc_put doc p v) q = doc_find doc q.
Proof.
  intros Hpq. induction doc as [| [k old] doc IH]; cbn.
  - destruct (String.eqb_spec p q); [contradiction | reflexivity].
  - destruct (String.eqb_spec k p) as [-> | Hne]; cbn.
    + destruct (String.eqb_spec p q); [contradiction | reflexivity].
    + destruct (String.eqb_spec k q); [reflexivity | exact IH].
Qed.

Lemma document_lossless : lossless_tree document.
Proof.
  constructor; intros; cbn;
    rewrite ?doc_find_put_same, ?doc_find_put_other by assumption; reflexivity.
Qed.

Lemma ColourCodec_keeps_config_paths : keeps_config_paths ColourCodec.write.
Proof.
  intros t colour path Hin. unfold ColourCodec.write. cbn.
  assert (Hne : "tracking_color"%string <> path).
  { intros <-. cbn in Hin.
    repeat (destruct Hin as [Hin | Hin]; [discriminate Hin |]). exact Hin. }
  rewrite doc_find_put_other by exact Hne. repeat split.
Qed.

Section SaveProperties.

Context {ptree : Type} `{WritableTree ptree}.
Variable writeTrackingColor : ptree -> eCommonTrackingColorID -> ptree.
Variable readTrackingColor : ptree -> eCommonTrackingColorID.
Hypothesis Hlossless : lossless_tree ptree.
Hypothesis Hkeeps : keeps_config_paths writeTrackingColor.

Ltac in_config_paths :=
  unfold config_paths; cbn [In];
  repeat first [left; reflexivity | right].

Ltac saved_value :=
  repeat first
    [ rewrite (get_put_bool _ Hlossless)
    | rewrite (get_put_int _ Hlossless)
    | rewrite (get_put_long _ Hlossless)
    | rewrite (get_put_float _ Hlossless)
    | rewrite (get_bool_other _ Hlossless) by discriminate
    | rewrite (get_int_other _ Hlossless) by discriminate
    | rewrite (get_long_other _ Hlossless) by discriminate
    | rewrite (get_float_other _ Hlossless) by discriminate ].

Lemma saved_bool (c : MorpheusHMDConfig) :
  get_optional_bool (config2ptree writeTrackingColor c) "is_valid"
  = Some (is_valid c).
Proof.
  unfold config2ptree.
  rewrite (proj1 (Hkeeps _ _ "is_valid"%string ltac:(in_config_paths))).
  saved_value. reflexivity.
Qed.

Lemma saved_version (c : MorpheusHMDConfig) :
  get_optional_int (config2ptree writeTrackingColor c) "version"
  = Some CONFIG_VERSION.
Proof.
  unfold config2ptree.
  rewrite (proj1 (proj2 (Hkeeps _ _ "version"%string ltac:(in_config_paths)))).
  saved_value. reflexivity.
Qed.

Lemma saved_long (c : MorpheusHMDConfig) :
  get_optional_long (config2ptree writeTrackingColor c) "max_poll_failure_count"
  = Some (max_poll_failure_count c).
Proof.
  unfold config2ptree.
  rewrite (proj1 (proj2 (proj2
             (Hkeeps _ _ "max_poll_failure_count"%string ltac:(in_config_paths))))).
  saved_value. reflexivity.
Qed.

Lemma saved_floats (c : MorpheusHMDConfig) :
  Forall (fun '(path, field) =>
            get_optional_float (config2ptree writeTrackingColor c) path
            = Some (field c))
    (("prediction_time"%string, prediction_time) :: fields_defaulting_to_current).
Proof.
  unfold fields_defaulting_to_current, config2ptree.
  repeat (constructor;
          [cbv beta iota;
           match goal with
           | |- get_optional_float (writeTrackingColor _ _) ?p = _ =>
               rewrite (proj2 (proj2 (proj2
                          (Hkeeps _ _ p ltac:(in_config_paths)))))
           end;
           saved_value; reflexivity |]).
  constructor.
Qed.

Lemma ptree2config_config2ptree (c c0 : MorpheusHMDConfig) (w : World) :
  ptree2config readTrackingColor c0 (config2ptree writeTrackingColor c) w
  = ({| is_valid := is_valid c;
        version := CONFIG_VERSION;
        accelerometer_gain := accelerometer_gain c;
        accelerometer_variance := accelerometer_variance c;
        gyro_gain := gyro_gain c;
        gyro_variance := gyro_variance c;
        gyro_drift := gyro_drift c;
        identity_gravity_direction := identity_gravity_direction c;
        min_orientation_quality_screen_area := min_orientation_quality_screen_area c;
        max_orientation_quality_screen_area := max_orientation_quality_screen_area c;
        min_position_quality_screen_area := min_position_quality_screen_area c;
        max_position_quality_screen_area := max_position_quality_screen_area c;
        max_velocity := max_velocity c;
        prediction_time := prediction_time c;
        max_poll_failure_count := max_poll_failure_count c;
        tracking_color_id :=
          readTrackingColor (config2ptree writeTrackingColor c) |}, w).
Proof.
  pose proof (saved_floats c) as Hfloats.
  unfold fields_defaulting_to_current in Hfloats.
  repeat match goal with
         | Hf : Forall _ (_ :: _) |- _ => inversion Hf; clear Hf; subst
         end.
  unfold ptree2config, pt_get.
  rewrite saved_version, saved_bool, saved_long.
  repeat match goal with
         | Hp : get_optional_float _ _ = Some _ |- _ => rewrite Hp; clear Hp
         end.
  cbn [Z.eqb CONFIG_VERSION Pos.eqb].
  destruct (identity_gravity_direction c). reflexivity.
Qed.

End SaveProperties.

(** X14. On a property tree that gives back what was put into it, and with
    a writeTrackingColor that leaves the other paths alone, loading what
    config2ptree saved gives back every field of the saved configuration,
    whatever the configuration loaded into held, with two exceptions: the
    version is CONFIG_VERSION whatever version the saved configuration
    carried, and the tracking colour is what readTrackingColor finds. *)
Theorem save_load_round_trip :
  forall (ptree : Type) (tree : PropertyTree ptree) (wtree : WritableTree ptree)
         (writeTrackingColor : ptree -> eCommonTrackingColorID -> ptree)
         (readTrackingColor : ptree -> eCommonTrackingColorID),
    lossless_tree ptree ->
    keeps_config_paths writeTrackingColor ->
    forall (c c0 : MorpheusHMDConfig) (w : World),
      ptree2config readTrackingColor c0 (config2ptree writeTrackingColor c) w
      = ({| is_valid := is_valid c;
            version := CONFIG_VERSION;
            accelerometer_gain := accelerometer_gain c;
            accelerometer_variance := accelerometer_variance c;
            gyro_gain := gyro_gain c;
            gyro_variance := gyro_variance c;
            gyro_drift := gyro_drift c;
            identity_gravity_direction := identity_gravity_direction c;
            min_orientation_quality_screen_area :=
              min_orientation_quality_screen_area c;
            max_orientation_quality_screen_area :=
              max_orientation_quality_screen_area c;
            min_position_quality_screen_area := min_position_quality_screen_area c;
            max_position_quality_screen_area := max_position_quality_screen_area c;
            max_velocity := max_velocity c;
            prediction_time := prediction_time c;
            max_poll_failure_count := max_poll_failure_count c;
            tracking_color_id :=
              readTrackingColor (config2ptree writeTrackingColor c) |}, w).
Proof.
  intros ptree tree wtree writeTrackingColor readTrackingColor Hlossless Hkeeps
         c c0 w.
  apply ptree2config_config2ptree; assumption.
Qed.

Lemma save_load_round_trip_witness :
  lossless_tree document
  /\ keeps_config_paths ColourCodec.write
  /\ fst (ptree2config ColourCodec.read Sample.config
            (config2ptree ColourCodec.write Scenario.other_config) (Sample.world []))
     = set_version CONFIG_VERSION Scenario.other_config.
Proof.
  split; [exact document_lossless |].
  split; [exact ColourCodec_keeps_config_paths |].
  rewrite (save_load_round_trip document document_tree document_writable
             ColourCodec.write ColourCodec.read
             document_lossless ColourCodec_keeps_config_paths
             Scenario.other_config Sample.config (Sample.world [])).
  reflexivity.
Defined.

(** ** Deleting the driver *)

(** X15. The destructor logs its error, "HMD deleted without calling
    close() first!", exactly when the device is open: after a close it
    leaves the environment as it found it, whatever state the device was
    closed from. *)
Theorem delete_after_close_is_silent :
  forall (d : MorpheusHMD) (w w' : World),
    MorpheusHMD_delete (fst (close d w)) w' = w'
    /\ (getIsOpen d = true ->
        MorpheusHMD_delete d w' = server_log LogError "~MorpheusHMD" w')
    /\ (getIsOpen d = false -> MorpheusHMD_delete d w' = w').
Proof.
  intros d w w'. unfold MorpheusHMD_delete.
  rewrite close_not_open. repeat split; intros ->; reflexivity.
Qed.

Lemma delete_after_close_is_silent_witness :
  getIsOpen Sample.polled_device = true
  /\ events (MorpheusHMD_delete Sample.polled_device (Sample.world []))
     = [EvLog LogError "~MorpheusHMD"]
  /\ MorpheusHMD_delete Scenario.closed_again (Sample.world []) = Sample.world [].
Proof.
  destruct (delete_after_close_is_silent Sample.polled_device (Sample.world [])
              (Sample.world [])) as (Hclosed & Hopen & _).
  split; [reflexivity |]. split.
  - rewrite (Hopen eq_refl). reflexivity.
  - exact Hclosed.
Defined.

(** ** Sequence numbers in the history *)

Lemma skipn_counting (k : nat) :
  forall (start : Z) (n : nat),
    skipn k (counting start n) = counting (start + Z.of_nat k) (n - k).
Proof.
  induction k as [| k IH]; intros start n.
  - cbn [skipn]. rewrite Z.add_0_r, Nat.sub_0_r. reflexivity.
  - destruct n as [| n]; [reflexivity |].
    cbn [counting skipn]. rewrite IH. cbn [Nat.sub]. f_equal. lia.
Qed.

Lemma length_counting (start : Z) (n : nat) : length (counting start n) = n.
Proof.
  revert start. induction n as [| n IH]; intros start; cbn; [| rewrite IH];
    reflexivity.
Qed.

Lemma nth_error_counting (n : nat) :
  forall (start : Z) (i : nat),
    (i < n)%nat -> nth_error (counting start n) i = Some (start + Z.of_nat i).
Proof.
  induction n as [| n IH]; intros start i Hi; [lia |].
  destruct i as [| i]; cbn [counting nth_error].
  - rewrite Z.add_0_r. reflexivity.
  - rewrite IH by lia. f_equal. lia.
Qed.

Lemma consecutive_appended (d d' : MorpheusHMD) (news : list MorpheusHMDState) :
  consecutive_history d -> appended d d' news -> consecutive_history d'.
Proof.
  unfold consecutive_history. intros Hcons (Hstates & Hseq & Hnext & _ & _).
  destruct news as [| e news].
  - cbn [fold_left length] in *. rewrite Hstates, Hnext, Hcons. f_equal. lia.
  - rewrite fold_push_state in Hstates by discriminate.
    rewrite Hstates, Hnext. unfold last_n.
    rewrite <- skipn_map, length_skipn, map_app, Hcons, Hseq.
    replace (NextPollSequenceNumber d)
      with (NextPollSequenceNumber d - Z.of_nat (length (HMDStates d))
            + Z.of_nat (length (HMDStates d))) at 2 by lia.
    rewrite <- counting_app, skipn_counting, length_app.
    f_equal; lia.
Qed.

Lemma consecutive_stays_open (d d' : MorpheusHMD) :
  consecutive_history d -> stays_open d d' -> consecutive_history d'.
Proof.
  intros Hcons Hstays.
  destruct (stays_open_appended d d' Hstays) as (news & Happ & _).
  exact (consecutive_appended d d' news Hcons Happ).
Qed.

Lemma consecutive_lookback (d : MorpheusHMD) (lookBack : Z) (e : MorpheusHMDState) :
  consecutive_history d ->
  0 <= lookBack -> in_int lookBack ->
  in_int (Z.of_nat (length (HMDStates d))) ->
  getState lookBack d = Returns (Some e) ->
  PollSequenceNumber e = NextPollSequenceNumber d - 1 - lookBack.
Proof.
  unfold consecutive_history. intros Hcons Hlb Hint Hlen Hget.
  rewrite getState_in_range in Hget by assumption.
  injection Hget as Hnth. rewrite nth_error_rev in Hnth.
  destruct (Nat.ltb_spec (Z.to_nat lookBack) (length (HMDStates d)))
    as [Hin | Hout]; [| discriminate Hnth].
  apply (map_nth_error PollSequenceNumber) in Hnth.
  rewrite Hcons, nth_error_counting in Hnth by lia.
  injection Hnth as Hseq. lia.
Qed.

(** X16. A device whose history is numbered consecutively up to its
    counter, as it is on a device that was just constructed and opened,
    keeps that property through every poll while it stays open: lookback n
    then answers the state numbered counter - 1 - n, so the entries getState
    serves are the most recent ones without a gap. *)
Theorem history_is_numbered_consecutively :
  (forall (cfg0 : MorpheusHMDConfig) (e : HMDDeviceEnumerator) (w : World),
      consecutive_history (MorpheusHMD_new cfg0)
      /\ consecutive_history (snd (fst (open e (MorpheusHMD_new cfg0) w))))
  /\ (forall d d' : MorpheusHMD,
        consecutive_history d ->
        stays_open d d' ->
        (length (HMDStates d) <= 5)%nat ->
        consecutive_history d'
        /\ forall (lookBack : Z) (s : MorpheusHMDState),
             0 <= lookBack -> in_int lookBack ->
             getState lookBack d' = Returns (Some s) ->
             PollSequenceNumber s = NextPollSequenceNumber d' - 1 - lookBack).
Proof.
  split.
  - intros cfg0 e w. split; [reflexivity |].
    unfold consecutive_history. rewrite open_HMDStates. reflexivity.
  - intros d d' Hcons Hstays Hlen.
    pose proof (consecutive_stays_open d d' Hcons Hstays) as Hcons'.
    split; [exact Hcons' |].
    intros lookBack s Hlb Hint Hget.
    apply (consecutive_lookback d' lookBack s Hcons' Hlb Hint); [| exact Hget].
    destruct (stays_open_appended d d' Hstays) as (news & (Hstates & _) & _).
    apply in_int_small. rewrite Hstates.
    apply length_fold_push_state. exact Hlen.
Qed.

Lemma history_is_numbered_consecutively_witness :
  consecutive_history Sample.open_device
  /\ stays_open Sample.open_device
       (snd (fst (poll Sample.polled_device (Sample.world Sample.five_packets))))
  /\ (length (HMDStates Sample.open_device) <= 5)%nat
  /\ PollSequenceNumber (parse_data_input 5 Sample.config (Sample.packet x03))
     = NextPollSequenceNumber
         (snd (fst (poll Sample.polled_device (Sample.world Sample.five_packets))))
       - 1 - 2.
Proof.
  assert (Hcons : consecutive_history Sample.open_device) by reflexivity.
  assert (Hstays : stays_open Sample.open_device
            (snd (fst (poll Sample.polled_device
                         (Sample.world Sample.five_packets))))).
  { apply stays_poll. unfold Sample.polled_device. apply stays_poll, stays_here. }
  assert (Hlen : (length (HMDStates Sample.open_device) <= 5)%nat)
    by (vm_compute; lia).
  split; [exact Hcons |]. split; [exact Hstays |]. split; [exact Hlen |].
  destruct history_is_numbered_consecutively as [_ Hkeeps].
  destruct (Hkeeps _ _ Hcons Hstays Hlen) as [_ Hlook].
  apply (Hlook 2); [lia | vm_compute; split; discriminate | vm_compute; reflexivity].
Defined.

(** * Properties of the tracker settings stage *)

Module TrackerSettingsProofs.

Import TrackerSettings.

(** ** Rules for computations *)

Lemma wp_bind {A B : Type} (c : UI A) (k : A -> UI B)
    (Q : B -> AppStage_TrackerSettings -> Prop) (s : AppStage_TrackerSettings) :
  wp c (fun a s' => wp (k a) Q s') s -> wp (x <- c ;; k x) Q s.
Proof.
  unfold wp, bind. destruct (c s) as [[[a s1] out1] | |]; try tauto.
  destruct (k a s1) as [[[b s2] out2] | |]; tauto.
Qed.

Lemma wp_mono {A : Type} (c : UI A) (Q Q' : A -> AppStage_TrackerSettings -> Prop)
    (s : AppStage_TrackerSettings) :
  (forall a s', Q a s' -> Q' a s') -> wp c Q s -> wp c Q' s.
Proof.
  unfold wp. intros Himp. destruct (c s) as [[[a s1] out1] | |]; auto.
Qed.

Lemma wp_wlp {A : Type} (c : UI A) (Q : A -> AppStage_TrackerSettings -> Prop)
    (s : AppStage_TrackerSettings) :
  wp c Q s -> wlp c Q s.
Proof.
  unfold wp, wlp. destruct (c s) as [[[a s1] out1] | |]; tauto.
Qed.

Lemma wp_result {A : Type} (c : UI A) (Q : A -> AppStage_TrackerSettings -> Prop)
    (s : AppStage_TrackerSettings) :
  wp c Q s <-> exists a s' out, c s = Ok (a, s', out) /\ Q a s'.
Proof.
  unfold wp. destruct (c s) as [[[a s1] out1] | |]; split.
  - intros HQ. exists a, s1, out1. split; [reflexivity | exact HQ].
  - intros (a' & s' & out & Heq & HQ). injection Heq as -> -> ->. exact HQ.
  - contradiction.
  - intros (a' & s' & out & Heq & _). discriminate Heq.
  - contradiction.
  - intros (a' & s' & out & Heq & _). discriminate Heq.
Qed.

Lemma wp_stays {A : Type} (c : UI A) (Q : A -> AppStage_TrackerSettings -> Prop)
    (s : AppStage_TrackerSettings) :
  stays c s -> (forall a, Q a s) -> wp c Q s.
Proof.
  unfold stays. intros Hstays HQ. eapply wp_mono; [| exact Hstays].
  intros a s' ->. apply HQ.
Qed.

Lemma stays_bind {A B : Type} (c : UI A) (k : A -> UI B)
    (s : AppStage_TrackerSettings) :
  stays c s -> (forall a, stays (k a) s) -> stays (x <- c ;; k x) s.
Proof.
  intros Hc Hk. unfold stays. apply wp_bind. apply wp_stays; [exact Hc |].
  intros a. apply Hk.
Qed.

Lemma stays_ret {A : Type} (a : A) (s : AppStage_TrackerSettings) : stays (ret a) s.
Proof. reflexivity. Qed.

Lemma stays_emit (a : action) (s : AppStage_TrackerSettings) : stays (emit a) s.
Proof. reflexivity. Qed.

Lemma stays_when (b : bool) (c : UI unit) (s : AppStage_TrackerSettings) :
  (b = true -> stays c s) -> stays (when b c) s.
Proof.
  destruct b; cbn [when]; intros Hc; [apply Hc; reflexivity | apply stays_ret].
Qed.

(** ** Machine arithmetic on indices *)

Lemma fits_int_size {A : Type} (v : list A) :
  fits_int v -> int_size v = Z.of_nat (length v).
Proof.
  unfold fits_int, int_size. intros Hfits. apply to_int_small.
  unfold in_int, INT_MIN, INT_MAX in *. change (2 ^ 31) with 2147483648 in *. lia.
Qed.

Lemma to_int_index (i : Z) {A : Type} (v : list A) :
  fits_int v -> -2 <= i <= Z.of_nat (length v) -> to_int i = i.
Proof.
  unfold fits_int. intros Hfits Hi. apply to_int_small.
  unfold in_int, INT_MIN, INT_MAX in *. change (2 ^ 31) with 2147483648 in *. lia.
Qed.

Lemma to_size_t_index (i : Z) {A : Type} (v : list A) :
  fits_int v -> 0 <= i <= Z.of_nat (length v) -> to_size_t i = i.
Proof.
  unfold fits_int, INT_MAX, to_size_t, size_t_bits.
  change (2 ^ 31) with 2147483648. change (2 ^ 64) with 18446744073709551616.
  intros Hfits Hi. apply Z.mod_small. lia.
Qed.

Lemma to_size_t_negative (i : Z) {A : Type} (v : list A) :
  fits_int v -> in_int i -> i < 0 -> Z.of_nat (length v) <= to_size_t i.
Proof.
  unfold fits_int, in_int, INT_MIN, INT_MAX, to_size_t, size_t_bits.
  change (2 ^ 31) with 2147483648. change (2 ^ 64) with 18446744073709551616.
  intros Hfits Hi Hneg. Z.div_mod_to_equations. lia.
Qed.

Lemma vector_at_stays {A : Type} (v : list A) (i : Z) (s : AppStage_TrackerSettings) :
  fits_int v -> 0 <= i < Z.of_nat (length v) -> stays (vector_at v i) s.
Proof.
  intros Hfits Hi. unfold stays, wp, vector_at.
  rewrite (to_size_t_index i v) by (assumption || lia).
  destruct (Z.ltb_spec i (Z.of_nat (length v))) as [_ | Hge]; [| lia].
  destruct (nth_error v (Z.to_nat i)) eqn:Hnth; [reflexivity |].
  apply nth_error_None in Hnth. lia.
Qed.

Lemma vector_at_outside {A : Type} (v : list A) (i : Z) (s : AppStage_TrackerSettings) :
  fits_int v -> Z.of_nat (length v) <= i <= INT_MAX -> vector_at v i s = OutOfRange.
Proof.
  intros Hfits Hi. unfold vector_at.
  assert (Hsize : to_size_t i = i).
  { unfold to_size_t, size_t_bits, INT_MAX in *.
    change (2 ^ 31) with 2147483648 in *.
    change (2 ^ 64) with 18446744073709551616. apply Z.mod_small. lia. }
  rewrite Hsize.
  destruct (Z.ltb_spec i (Z.of_nat (length v))); [lia | reflexivity].
Qed.

(** ** Requests and responses *)

Lemma request_tracker_list_result (s : AppStage_TrackerSettings) :
  request_tracker_list s
  = Ok (tt, set_menuState pendingTrackerListRequest s,
        if eTrackerMenuState_eqb (m_menuState s) pendingTrackerListRequest
        then [] else [SendTrackerListRequest]).
Proof. destruct s as [[] ts cs hs it ic ih]; reflexivity. Qed.

Lemma request_controller_list_result (s : AppStage_TrackerSettings) :
  request_controller_list s
  = Ok (tt, set_menuState pendingControllerListRequest s,
        if eTrackerMenuState_eqb (m_menuState s) pendingControllerListRequest
        then [] else [SendControllerListRequest]).
Proof. destruct s as [[] ts cs hs it ic ih]; reflexivity. Qed.

Lemma request_hmd_list_result (s : AppStage_TrackerSettings) :
  request_hmd_list s
  = Ok (tt, set_menuState pendingHmdListRequest s,
        if eTrackerMenuState_eqb (m_menuState s) pendingHmdListRequest
        then [] else [SendHmdListRequest]).
Proof. destruct s as [[] ts cs hs it ic ih]; reflexivity. Qed.

Lemma handle_tracker_list_response_ok (m : ResponseMessage)
    (l : list ClientTrackerInfo) (s : AppStage_TrackerSettings) :
  result_code m = _clientPSMoveResultCode_ok ->
  payload_tracker_list m = Some l ->
  handle_tracker_list_response m s
  = Ok (tt,
        {| m_menuState := pendingControllerListRequest;
           m_trackerInfos := l;
           m_controllerInfos := m_controllerInfos s;
           m_hmdInfos := m_hmdInfos s;
           m_selectedTrackerIndex := reselect (m_selectedTrackerIndex s) (length l) 0;
           m_selectedControllerIndex := m_selectedControllerIndex s;
           m_selectedHmdIndex := m_selectedHmdIndex s |},
        if eTrackerMenuState_eqb (m_menuState s) pendingControllerListRequest
        then [] else [SendControllerListRequest]).
Proof.
  intros Hcode Hpayload. unfold handle_tracker_list_response.
  rewrite Hcode, Hpayload.
  destruct s as [[] ts cs hs it ic ih]; reflexivity.
Qed.

Lemma handle_tracker_list_response_failed (m : ResponseMessage)
    (s : AppStage_TrackerSettings) :
  result_code m <> _clientPSMoveResultCode_ok ->
  handle_tracker_list_response m s
  = Ok (tt, set_menuState failedTrackerListRequest s, []).
Proof.
  intros Hcode. unfold handle_tracker_list_response.
  destruct (result_code m); [contradiction | reflexivity | reflexivity].
Qed.

Lemma fold_push_controller (l : list Protocol_Controller) :
  forall acc : list ControllerInfo,
    fold_left push_controller l acc = acc ++ listed_controllers l.
Proof.
  induction l as [| c l IH]; intros acc; cbn [fold_left listed_controllers].
  - rewrite app_nil_r. reflexivity.
  - rewrite IH. unfold push_controller, listed_controller.
    destruct (controller_type c); rewrite <- ?app_assoc; reflexivity.
Qed.

Lemma fold_push_hmd (l : list Protocol_HMD) :
  forall acc : list HMDInfo,
    fold_left push_hmd l acc
    = acc ++ map (fun h => mkHMDInfo (hmd_id h) Morpheus (hmd_tracking_color_type h)) l.
Proof.
  induction l as [| h l IH]; intros acc; cbn [fold_left map].
  - rewrite app_nil_r. reflexivity.
  - rewrite IH. unfold push_hmd. destruct (hmd_type h).
    rewrite <- app_assoc. reflexivity.
Qed.

Lemma handle_controller_list_response_ok (m : ResponseMessage)
    (s : AppStage_TrackerSettings) :
  result_code m = _clientPSMoveResultCode_ok ->
  handle_controller_list_response m s
  = Ok (tt,
        {| m_menuState := pendingHmdListRequest;
           m_trackerInfos := m_trackerInfos s;
           m_controllerInfos := listed_controllers (result_controller_list m);
           m_hmdInfos := m_hmdInfos s;
           m_selectedTrackerIndex := m_selectedTrackerIndex s;
           m_selectedControllerIndex :=
             reselect (m_selectedControllerIndex s)
               (length (listed_controllers (result_controller_list m))) (-1);
           m_selectedHmdIndex := m_selectedHmdIndex s |},
        if eTrackerMenuState_eqb (m_menuState s) pendingHmdListRequest
        then [] else [SendHmdListRequest]).
Proof.
  intros Hcode. unfold handle_controller_list_response. rewrite Hcode.
  destruct s as [[] ts cs hs it ic ih]; cbn;
    rewrite (fold_push_controller (result_controller_list m) []); reflexivity.
Qed.

Lemma handle_controller_list_response_failed (m : ResponseMessage)
    (s : AppStage_TrackerSettings) :
  result_code m <> _clientPSMoveResultCode_ok ->
  handle_controller_list_response m s
  = Ok (tt, set_menuState failedControllerListRequest s, []).
Proof.
  intros Hcode. unfold handle_controller_list_response.
  destruct (result_code m); [contradiction | reflexivity | reflexivity].
Qed.

Lemma handle_hmd_list_response_ok (m : ResponseMessage)
    (s : AppStage_TrackerSettings) :
  result_code m = _clientPSMoveResultCode_ok ->
  handle_hmd_list_response m s
  = Ok (tt,
        {| m_menuState := idle;
           m_trackerInfos := m_trackerInfos s;
           m_controllerInfos := m_controllerInfos s;
           m_hmdInfos :=
             map (fun h => mkHMDInfo (hmd_id h) Morpheus (hmd_tracking_color_type h))
               (result_hmd_list m);
           m_selectedTrackerIndex := m_selectedTrackerIndex s;
           m_selectedControllerIndex := m_selectedControllerIndex s;
           m_selectedHmdIndex :=
             reselect (m_selectedHmdIndex s) (length (result_hmd_list m)) (-1) |},
        []).
Proof.
  intros Hcode. unfold handle_hmd_list_response. rewrite Hcode.
  destruct s as [ms ts cs hs it ic ih]; cbn.
  rewrite (fold_push_hmd (result_hmd_list m) []). cbn [app].
  rewrite length_map. reflexivity.
Qed.

Lemma handle_hmd_list_response_failed (m : ResponseMessage)
    (s : AppStage_TrackerSettings) :
  result_code m <> _clientPSMoveResultCode_ok ->
  handle_hmd_list_response m s
  = Ok (tt, set_menuState failedControllerListRequest s, []).
Proof.
  intros Hcode. unfold handle_hmd_list_response.
  destruct (result_code m); [contradiction | reflexivity | reflexivity].
Qed.

(** The index chosen after a refresh, without the conversions. *)
Lemma reselect_spec (old : Z) (size : nat) (fallback : Z) :
  -1 <= old <= INT_MAX ->
  reselect old size fallback
  = if old =? -1 then (if 0 <? Z.of_nat size then 0 else -1)
    else if old <? Z.of_nat size then old else fallback.
Proof.
  intros Hold. unfold reselect.
  destruct (Z.eqb_spec old (-1)) as [Hnone | Hsome]; cbn [negb]; [reflexivity |].
  assert (Hsize : to_size_t old = old).
  { unfold to_size_t, size_t_bits, INT_MAX in *.
    change (2 ^ 31) with 2147483648 in *.
    change (2 ^ 64) with 18446744073709551616. apply Z.mod_small. lia. }
  rewrite Hsize. reflexivity.
Qed.

Lemma reselect_range (old : Z) (size : nat) :
  -1 <= old <= INT_MAX ->
  -1 <= reselect old size (-1) < Z.of_nat size.
Proof.
  intros Hold. rewrite reselect_spec by assumption.
  destruct (Z.eqb_spec old (-1)); destruct (Z.ltb_spec 0 (Z.of_nat size));
    destruct (Z.ltb_spec old (Z.of_nat size)); lia.
Qed.

Lemma reselect_tracker_range (old : Z) (size : nat) :
  -1 <= old <= INT_MAX ->
  (size = 0%nat /\ (reselect old size 0 = -1 \/ reselect old size 0 = 0))
  \/ 0 <= reselect old size 0 < Z.of_nat size.
Proof.
  intros Hold. rewrite reselect_spec by assumption.
  destruct (Z.eqb_spec old (-1)); destruct (Z.ltb_spec 0 (Z.of_nat size));
    destruct (Z.ltb_spec old (Z.of_nat size)); lia.
Qed.

Lemma length_listed_controllers (l : list Protocol_Controller) :
  (length (listed_controllers l) <= length l)%nat.
Proof.
  induction l as [| c l IH]; cbn [listed_controllers length]; [lia |].
  destruct (listed_controller c); cbn [length]; lia.
Qed.

(** ** The idle window *)

Lemma wp_this_bind {B : Type} (k : AppStage_TrackerSettings -> UI B)
    (Q : B -> AppStage_TrackerSettings -> Prop) (s : AppStage_TrackerSettings) :
  wp (k s) Q s -> wp (x <- this ;; k x) Q s.
Proof. intros Hk. apply wp_bind. exact Hk. Qed.

Lemma stays_this_bind {B : Type} (k : AppStage_TrackerSettings -> UI B)
    (s : AppStage_TrackerSettings) :
  stays (k s) s -> stays (x <- this ;; k x) s.
Proof. apply wp_this_bind. Qed.

Lemma wp_ret {A : Type} (a : A) (Q : A -> AppStage_TrackerSettings -> Prop)
    (s : AppStage_TrackerSettings) :
  Q a s -> wp (ret a) Q s.
Proof. trivial. Qed.

Lemma wp_modify (f : AppStage_TrackerSettings -> AppStage_TrackerSettings)
    (Q : unit -> AppStage_TrackerSettings -> Prop) (s : AppStage_TrackerSettings) :
  Q tt (f s) -> wp (modify f) Q s.
Proof. trivial. Qed.

Ltac solve_stays :=
  repeat (cbv beta;
          lazymatch goal with
          | |- forall _, _ => intros ?
          | |- stays (ret _) _ => apply stays_ret
          | |- stays (emit _) _ => apply stays_emit
          | |- stays (bind _ _) _ => apply stays_bind
          | |- stays (when _ _) _ => apply stays_when; intros _
          | |- stays (match ?x with _ => _ end) _ => destruct x
          end).

Lemma same_lists_refl (s : AppStage_TrackerSettings) : same_lists s s.
Proof. repeat split. Qed.

Lemma same_lists_trans (s1 s2 s3 : AppStage_TrackerSettings) :
  same_lists s1 s2 -> same_lists s2 s3 -> same_lists s1 s3.
Proof.
  unfold same_lists. intros (Hm & Ht & Hc & Hh) (Hm' & Ht' & Hc' & Hh').
  repeat split; congruence.
Qed.

Lemma set_tracker_index_keeps (s : AppStage_TrackerSettings) (i : Z) :
  indices_in_range s ->
  0 <= i < Z.of_nat (length (m_trackerInfos s)) ->
  indices_in_range (set_selectedTrackerIndex i s)
  /\ same_lists s (set_selectedTrackerIndex i s).
Proof.
  intros (Ht & Hc & Hh & _ & Hic & Hih) Hi.
  split; [| unfold same_lists; cbn; repeat split].
  unfold indices_in_range. cbn. repeat split; try assumption; lia.
Qed.

Lemma set_controller_index_keeps (s : AppStage_TrackerSettings) (i : Z) :
  indices_in_range s ->
  -1 <= i < Z.of_nat (length (m_controllerInfos s)) ->
  indices_in_range (set_selectedControllerIndex i s)
  /\ same_lists s (set_selectedControllerIndex i s).
Proof.
  intros (Ht & Hc & Hh & Hit & _ & Hih) Hi.
  split; [| unfold same_lists; cbn; repeat split].
  unfold indices_in_range. cbn. repeat split; try assumption; lia.
Qed.

Lemma set_hmd_index_keeps (s : AppStage_TrackerSettings) (i : Z) :
  indices_in_range s ->
  -1 <= i < Z.of_nat (length (m_hmdInfos s)) ->
  indices_in_range (set_selectedHmdIndex i s)
  /\ same_lists s (set_selectedHmdIndex i s).
Proof.
  intros (Ht & Hc & Hh & Hit & Hic & _) Hi.
  split; [| unfold same_lists; cbn; repeat split].
  unfold indices_in_range. cbn. repeat split; try assumption; lia.
Qed.

(** A "previous" or "next" button: offered when [offered], it moves the
    index when pressed. *)
Lemma index_button (offered pressed : bool)
    (f : AppStage_TrackerSettings -> AppStage_TrackerSettings)
    (s : AppStage_TrackerSettings) :
  indices_in_range s ->
  (offered = true -> indices_in_range (f s) /\ same_lists s (f s)) ->
  wp (when offered (when pressed (modify f)))
    (fun _ s' => indices_in_range s' /\ same_lists s s') s.
Proof.
  intros Hinv Hmove.
  destruct offered; cbn [when]; [| split; [exact Hinv | apply same_lists_refl]].
  destruct pressed; cbn [when]; [| split; [exact Hinv | apply same_lists_refl]].
  apply wp_modify. apply Hmove. reflexivity.
Qed.

Lemma renderUI_trackers_keeps (clicked : clicks) (s : AppStage_TrackerSettings) :
  indices_in_range s ->
  wp (renderUI_trackers clicked)
    (fun _ s' => indices_in_range s' /\ same_lists s s') s.
Proof.
  intros Hinv. unfold renderUI_trackers. apply wp_this_bind.
  destruct (Z.ltb_spec 0 (Z.of_nat (length (m_trackerInfos s)))) as [Hsome | Hnone];
    cbn [when]; [| split; [exact Hinv | apply same_lists_refl]].
  pose proof Hinv as (Ht & _ & _ & Hit & _ & _).
  assert (Hidx : 0 <= m_selectedTrackerIndex s
                 < Z.of_nat (length (m_trackerInfos s))).
  { destruct Hit as [[Hempty _] | Hin]; [| exact Hin].
    rewrite Hempty in Hsome. cbn in Hsome. lia. }
  apply wp_bind. apply wp_stays; [apply vector_at_stays; assumption |].
  intros trackerInfo. apply wp_bind.
  eapply wp_mono; [| apply index_button; [exact Hinv |]].
  - intros _ s1 [Hinv1 Hsame1]. cbv beta.
    apply wp_this_bind. apply wp_bind.
    eapply wp_mono; [| apply index_button; [exact Hinv1 |]].
    + intros _ s2 [Hinv2 Hsame2]. cbv beta.
      apply wp_stays; [solve_stays |].
      intros _. split; [exact Hinv2 |].
      eapply same_lists_trans; eassumption.
    + intros Hnext. apply Z.ltb_lt in Hnext.
      pose proof Hinv1 as (Ht1 & _ & _ & Hit1 & _ & _).
      rewrite fits_int_size in Hnext by assumption.
      destruct Hit1 as [[Hempty1 Hsel] | Hin1].
      * rewrite Hempty1 in Hnext. cbn [length Z.of_nat] in Hnext.
        destruct Hsel as [Hsel | Hsel]; rewrite Hsel in Hnext;
          vm_compute in Hnext; discriminate Hnext.
      * rewrite (to_int_index _ (m_trackerInfos s1)) in * by (assumption || lia).
        apply set_tracker_index_keeps; [exact Hinv1 | lia].
  - intros Hprev. apply Z.ltb_lt in Hprev.
    rewrite (to_int_index _ (m_trackerInfos s)) by (assumption || lia).
    apply set_tracker_index_keeps; [exact Hinv | lia].
Qed.

Lemma selected_controller_stays (s : AppStage_TrackerSettings) :
  indices_in_range s ->
  negb (m_selectedControllerIndex s =? -1) = true ->
  forall i : ControllerInfo -> UI unit,
    (forall c, stays (i c) s) ->
    stays (c <- vector_at (m_controllerInfos s) (m_selectedControllerIndex s) ;; i c) s.
Proof.
  intros (_ & Hc & _ & _ & Hic & _) Hsel i Hi.
  apply negb_true_iff, Z.eqb_neq in Hsel.
  apply stays_bind; [apply vector_at_stays; [assumption | lia] | exact Hi].
Qed.

Lemma get_selected_controller_stays (s : AppStage_TrackerSettings) :
  indices_in_range s -> stays get_selected_controller s.
Proof.
  intros Hinv. unfold get_selected_controller. apply stays_this_bind.
  destruct (negb (m_selectedControllerIndex s =? -1)) eqn:Hsel; [| apply stays_ret].
  pose proof Hinv as (_ & Hc & _ & _ & Hic & _).
  apply negb_true_iff, Z.eqb_neq in Hsel.
  apply stays_bind; [apply vector_at_stays; [assumption | lia] |].
  intros c. apply stays_ret.
Qed.

Lemma get_selected_hmd_stays (s : AppStage_TrackerSettings) :
  indices_in_range s -> stays get_selected_hmd s.
Proof.
  intros Hinv. unfold get_selected_hmd. apply stays_this_bind.
  destruct (negb (m_selectedHmdIndex s =? -1)) eqn:Hsel; [| apply stays_ret].
  pose proof Hinv as (_ & _ & Hh & _ & _ & Hih).
  apply negb_true_iff, Z.eqb_neq in Hsel.
  apply stays_bind; [apply vector_at_stays; [assumption | lia] |].
  intros h. apply stays_ret.
Qed.

Lemma renderUI_controllers_keeps (clicked : clicks) (s : AppStage_TrackerSettings) :
  indices_in_range s ->
  wp (renderUI_controllers clicked)
    (fun _ s' => indices_in_range s' /\ same_lists s s') s.
Proof.
  intros Hinv. unfold renderUI_controllers. apply wp_this_bind.
  destruct (Z.ltb_spec 0 (Z.of_nat (length (m_controllerInfos s))))
    as [Hsome | Hnone];
    cbn [when]; [| split; [exact Hinv | apply same_lists_refl]].
  pose proof Hinv as (_ & Hc & _ & _ & Hic & _).
  apply wp_bind.
  eapply wp_mono; [| apply index_button; [exact Hinv |]].
  - intros _ s1 [Hinv1 Hsame1]. cbv beta.
    pose proof Hinv1 as (_ & Hc1 & _ & _ & Hic1 & _).
    apply wp_this_bind. apply wp_bind.
    apply wp_stays.
    { destruct (negb (m_selectedControllerIndex s1 =? -1)) eqn:Hsel;
        [| apply stays_ret].
      apply negb_true_iff, Z.eqb_neq in Hsel.
      apply stays_bind; [apply vector_at_stays; [assumption | lia] |].
      intros c. apply stays_ret. }
    intros _. apply wp_bind.
    eapply wp_mono; [| apply index_button; [exact Hinv1 |]].
    + intros _ s2 [Hinv2 Hsame2]. cbv beta.
      pose proof Hinv2 as (_ & Hc2 & _ & _ & Hic2 & _).
      apply wp_stays.
      * apply stays_bind.
        { apply stays_when. intros _. apply stays_bind.
          - apply get_selected_controller_stays. exact Hinv2.
          - intros controller. solve_stays. }
        intros _. apply stays_this_bind. apply stays_bind.
        { destruct (negb (m_selectedControllerIndex s2 =? -1)) eqn:Hsel;
            [| apply stays_ret].
          apply negb_true_iff, Z.eqb_neq in Hsel.
          apply stays_bind; [apply vector_at_stays; [assumption | lia] |].
          intros c. apply stays_ret. }
        intros controllerID. solve_stays.
      * intros _. split; [exact Hinv2 |].
        eapply same_lists_trans; eassumption.
    + intros Hnext. apply Z.ltb_lt in Hnext.
      rewrite fits_int_size in Hnext by assumption.
      rewrite (to_int_index _ (m_controllerInfos s1)) in * by (assumption || lia).
      apply set_controller_index_keeps; [exact Hinv1 | lia].
  - intros Hprev. apply Z.leb_le in Hprev.
    rewrite (to_int_index _ (m_controllerInfos s)) by (assumption || lia).
    apply set_controller_index_keeps; [exact Hinv | lia].
Qed.

Lemma renderUI_hmds_keeps (clicked : clicks) (s : AppStage_TrackerSettings) :
  indices_in_range s ->
  wp (renderUI_hmds clicked)
    (fun _ s' => indices_in_range s' /\ same_lists s s') s.
Proof.
  intros Hinv. unfold renderUI_hmds. apply wp_this_bind.
  destruct (Z.ltb_spec 0 (Z.of_nat (length (m_hmdInfos s)))) as [Hsome | Hnone];
    cbn [when]; [| split; [exact Hinv | apply same_lists_refl]].
  pose proof Hinv as (_ & _ & Hh & _ & _ & Hih).
  apply wp_bind.
  eapply wp_mono; [| apply index_button; [exact Hinv |]].
  - intros _ s1 [Hinv1 Hsame1]. cbv beta.
    pose proof Hinv1 as (_ & _ & Hh1 & _ & _ & Hih1).
    apply wp_this_bind. apply wp_bind.
    apply wp_stays.
    { destruct (negb (m_selectedHmdIndex s1 =? -1)) eqn:Hsel;
        [| apply stays_ret].
      apply negb_true_iff, Z.eqb_neq in Hsel.
      apply stays_bind; [apply vector_at_stays; [assumption | lia] |].
      intros h. destruct (HmdType h). apply stays_ret. }
    intros _. apply wp_bind.
    eapply wp_mono; [| apply index_button; [exact Hinv1 |]].
    + intros _ s2 [Hinv2 Hsame2]. cbv beta.
      apply wp_stays.
      * apply stays_when. intros _. apply stays_bind.
        -- apply get_selected_hmd_stays. exact Hinv2.
        -- intros hmd. solve_stays.
      * intros _. split; [exact Hinv2 |].
        eapply same_lists_trans; eassumption.
    + intros Hnext. apply Z.ltb_lt in Hnext.
      rewrite fits_int_size in Hnext by assumption.
      rewrite (to_int_index _ (m_hmdInfos s1)) in * by (assumption || lia).
      apply set_hmd_index_keeps; [exact Hinv1 | lia].
  - intros Hprev. apply Z.ltb_lt in Hprev.
    rewrite (to_int_index _ (m_hmdInfos s)) by (assumption || lia).
    apply set_hmd_index_keeps; [exact Hinv | lia].
Qed.

(** ** The invariant of the stage *)

Lemma wp_of_result {A : Type} (c : UI A) (Q : A -> AppStage_TrackerSettings -> Prop)
    (s s' : AppStage_TrackerSettings) (a : A) (out : list action) :
  c s = Ok (a, s', out) -> Q a s' -> wp c Q s.
Proof. unfold wp. intros ->. trivial. Qed.

Lemma wlp_of_result {A : Type} (c : UI A) (Q : A -> AppStage_TrackerSettings -> Prop)
    (s s' : AppStage_TrackerSettings) (a : A) (out : list action) :
  c s = Ok (a, s', out) -> Q a s' -> wlp c Q s.
Proof. unfold wlp. intros ->. trivial. Qed.

Lemma set_menuState_keeps (m : eTrackerMenuState) (s : AppStage_TrackerSettings) :
  stage_invariant s ->
  m <> inactive -> m <> failedHmdListRequest ->
  stage_invariant (set_menuState m s).
Proof.
  intros (Hidx & _ & _) Hm1 Hm2. split; [exact Hidx |]. split; assumption.
Qed.

Lemma same_lists_invariant (s s' : AppStage_TrackerSettings) :
  stage_invariant s -> indices_in_range s' -> same_lists s s' ->
  stage_invariant s'.
Proof.
  intros (_ & Hm1 & Hm2) Hidx (Hm & _). split; [exact Hidx |].
  rewrite Hm. split; assumption.
Qed.

Lemma renderUI_keeps (clicked : clicks) (s : AppStage_TrackerSettings) :
  stage_invariant s ->
  wp (renderUI clicked) (fun _ s' => stage_invariant s' /\ same_devices s s') s.
Proof.
  intros Hinv. pose proof Hinv as (Hidx & Hactive & Hnohmd).
  unfold renderUI. apply wp_this_bind.
  destruct (m_menuState s) eqn:Hmenu;
    try (apply wp_ret; split; [exact Hinv | repeat split]).
  - contradiction.
  - apply wp_bind.
    eapply wp_mono; [| apply renderUI_trackers_keeps; exact Hidx].
    intros _ s1 [Hidx1 Hsame1]. cbv beta.
    apply wp_this_bind. apply wp_bind.
    apply wp_mono with (Q := fun _ s2 => indices_in_range s2 /\ same_lists s1 s2).
    + intros _ s2 [Hidx2 Hsame2]. apply wp_stays; [solve_stays |].
      intros _.
      pose proof (same_lists_trans _ _ _ Hsame1 Hsame2) as Hsame.
      split.
      * apply (same_lists_invariant s); [| exact Hidx2 | exact Hsame].
        split; [exact Hidx |]. rewrite Hmenu. split; discriminate.
      * destruct Hsame as (_ & Ht & Hc & Hh). repeat split; assumption.
    + destruct (0 <? Z.of_nat (length (m_trackerInfos s1))); cbn [when];
        [| apply wp_ret; split; [exact Hidx1 | apply same_lists_refl]].
      apply wp_bind.
      eapply wp_mono; [| apply renderUI_controllers_keeps; exact Hidx1].
      intros _ s2 [Hidx2 Hsame2]. cbv beta.
      eapply wp_mono; [| apply renderUI_hmds_keeps; exact Hidx2].
      intros _ s3 [Hidx3 Hsame3]. split; [exact Hidx3 |].
      eapply same_lists_trans; eassumption.
  - apply wp_bind.
    destruct (clicked "Retry"%string); cbn [when].
    + eapply wp_of_result; [apply request_tracker_list_result |].
      apply wp_stays; [solve_stays |]. intros _.
      split; [apply set_menuState_keeps; [exact Hinv | discriminate | discriminate]
             | repeat split].
    + apply wp_ret. apply wp_stays; [solve_stays |]. intros _.
      split; [exact Hinv | repeat split].
  - apply wp_bind.
    destruct (clicked "Retry"%string); cbn [when].
    + eapply wp_of_result; [apply request_tracker_list_result |].
      apply wp_stays; [solve_stays |]. intros _.
      split; [apply set_menuState_keeps; [exact Hinv | discriminate | discriminate]
             | repeat split].
    + apply wp_ret. apply wp_stays; [solve_stays |]. intros _.
      split; [exact Hinv | repeat split].
  - contradiction.
Qed.

Lemma render_unchanged (s : AppStage_TrackerSettings) :
  wlp render (fun _ s' => s' = s) s.
Proof.
  unfold wlp, render, bind, this, when, vector_at, ret, emit, assert_unreachable.
  destruct (m_menuState s); cbn; auto.
  destruct (0 <=? m_selectedTrackerIndex s); cbn; auto.
  destruct (to_size_t (m_selectedTrackerIndex s)
              <? Z.of_nat (length (m_trackerInfos s))); cbn; auto.
  destruct (nth_error (m_trackerInfos s)
              (Z.to_nat (to_size_t (m_selectedTrackerIndex s))))
    as [[id [] driver name path] |]; cbn; auto.
Qed.

Lemma index_bounds (s : AppStage_TrackerSettings) :
  indices_in_range s ->
  -1 <= m_selectedTrackerIndex s <= INT_MAX
  /\ -1 <= m_selectedControllerIndex s <= INT_MAX
  /\ -1 <= m_selectedHmdIndex s <= INT_MAX.
Proof.
  unfold indices_in_range, fits_int, INT_MAX. change (2 ^ 31) with 2147483648.
  intros (Ht & Hc & Hh & Hit & Hic & Hih).
  repeat split; try lia; destruct Hit as [[_ [Hs | Hs]] | Hin]; lia.
Qed.

Lemma tracker_response_keeps (m : ResponseMessage) (s : AppStage_TrackerSettings) :
  stage_invariant s -> response_fits m ->
  wlp (handle_tracker_list_response m) (fun _ s' => stage_invariant s') s.
Proof.
  intros Hinv (Hfits & _).
  destruct (result_code m) eqn:Hcode.
  - destruct (payload_tracker_list m) as [l |] eqn:Hpayload.
    + eapply wlp_of_result;
        [apply (handle_tracker_list_response_ok m l s Hcode Hpayload) |].
      destruct Hinv as (Hidx & _ & _).
      pose proof (index_bounds s Hidx) as (Hold & _ & _).
      destruct Hidx as (_ & Hc & Hh & _ & Hic & Hih).
      split; [| split; discriminate].
      unfold indices_in_range. cbn.
      repeat split; try assumption; try lia.
      destruct (reselect_tracker_range (m_selectedTrackerIndex s) (length l) Hold)
        as [[Hempty Hsel] | Hin]; [left | right; exact Hin].
      split; [apply length_zero_iff_nil; exact Hempty | exact Hsel].
    + unfold wlp, handle_tracker_list_response. rewrite Hcode, Hpayload. exact I.
  - eapply wlp_of_result;
      [apply handle_tracker_list_response_failed; rewrite Hcode; discriminate |].
    apply set_menuState_keeps; [exact Hinv | discriminate | discriminate].
  - eapply wlp_of_result;
      [apply handle_tracker_list_response_failed; rewrite Hcode; discriminate |].
    apply set_menuState_keeps; [exact Hinv | discriminate | discriminate].
Qed.

Lemma controller_response_keeps (m : ResponseMessage) (s : AppStage_TrackerSettings) :
  stage_invariant s -> response_fits m ->
  wlp (handle_controller_list_response m) (fun _ s' => stage_invariant s') s.
Proof.
  intros Hinv (_ & Hfits & _).
  destruct (result_code m) eqn:Hcode.
  - eapply wlp_of_result; [apply (handle_controller_list_response_ok m s Hcode) |].
    destruct Hinv as (Hidx & _ & _).
    pose proof (index_bounds s Hidx) as (_ & Hold & _).
    destruct Hidx as (Ht & _ & Hh & Hit & _ & Hih).
    split; [| split; discriminate].
    unfold indices_in_range. cbn.
    pose proof (length_listed_controllers (result_controller_list m)) as Hlen.
    pose proof (reselect_range (m_selectedControllerIndex s)
                  (length (listed_controllers (result_controller_list m))) Hold).
    unfold fits_int in *.
    repeat split; try assumption; lia.
  - eapply wlp_of_result;
      [apply handle_controller_list_response_failed; rewrite Hcode; discriminate |].
    apply set_menuState_keeps; [exact Hinv | discriminate | discriminate].
  - eapply wlp_of_result;
      [apply handle_controller_list_response_failed; rewrite Hcode; discriminate |].
    apply set_menuState_keeps; [exact Hinv | discriminate | discriminate].
Qed.

Lemma hmd_response_keeps (m : ResponseMessage) (s : AppStage_TrackerSettings) :
  stage_invariant s -> response_fits m ->
  wlp (handle_hmd_list_response m) (fun _ s' => stage_invariant s') s.
Proof.
  intros Hinv (_ & _ & Hfits).
  destruct (result_code m) eqn:Hcode.
  - eapply wlp_of_result; [apply (handle_hmd_list_response_ok m s Hcode) |].
    destruct Hinv as (Hidx & _ & _).
    pose proof (index_bounds s Hidx) as (_ & _ & Hold).
    destruct Hidx as (Ht & Hc & _ & Hit & Hic & _).
    split; [| split; discriminate].
    unfold indices_in_range. cbn.
    pose proof (reselect_range (m_selectedHmdIndex s)
                  (length (result_hmd_list m)) Hold).
    unfold fits_int in *. rewrite length_map.
    repeat split; try assumption; lia.
  - eapply wlp_of_result;
      [apply handle_hmd_list_response_failed; rewrite Hcode; discriminate |].
    apply set_menuState_keeps; [exact Hinv | discriminate | discriminate].
  - eapply wlp_of_result;
      [apply handle_hmd_list_response_failed; rewrite Hcode; discriminate |].
    apply set_menuState_keeps; [exact Hinv | discriminate | discriminate].
Qed.

Lemma fits_int_nil {A : Type} : fits_int (@nil A).
Proof. unfold fits_int, INT_MAX. change (2 ^ 31) with 2147483648. cbn. lia. Qed.

Lemma run_keeps (op : operation) (s : AppStage_TrackerSettings) :
  stage_invariant s -> operation_fits op ->
  wlp (run op) (fun _ s' => stage_invariant s') s.
Proof.
  intros Hinv Hfits. destruct op as [| clicked | event | m | m | m | | |]; cbn [run].
  - pose proof (render_unchanged s) as Hsame. unfold wlp in *.
    destruct (render s) as [[[a s'] out] | |]; [subst s'; exact Hinv | exact I | exact I].
  - apply wp_wlp. eapply wp_mono; [| apply renderUI_keeps; exact Hinv].
    intros _ s' [Hinv' _]. exact Hinv'.
  - destruct event; cbn [onClientAPIEvent].
    + unfold wlp, bind. rewrite request_tracker_list_result. cbn.
      apply set_menuState_keeps; [exact Hinv | discriminate | discriminate].
    + exact Hinv.
  - apply tracker_response_keeps; assumption.
  - apply controller_response_keeps; assumption.
  - apply hmd_response_keeps; assumption.
  - destruct Hinv as ((_ & Hc & Hh & _ & Hic & Hih) & _ & _).
    unfold wlp, request_search_for_new_trackers. cbn.
    split; [| split; discriminate].
    unfold indices_in_range. cbn.
    repeat split; try assumption; try lia; try apply fits_int_nil.
    left. split; [reflexivity | left; reflexivity].
  - unfold handle_search_for_new_trackers_response, wlp.
    rewrite request_tracker_list_result.
    apply set_menuState_keeps; [exact Hinv | discriminate | discriminate].
  - unfold enter, wlp, bind, emit. rewrite request_tracker_list_result.
    apply set_menuState_keeps; [exact Hinv | discriminate | discriminate].
Qed.

Lemma entered_invariant (s : AppStage_TrackerSettings) :
  entered s -> stage_invariant s.
Proof.
  induction 1 as [s out Henter | s s' op out _ IH Hfits Hrun].
  - injection Henter as <- _.
    split; [| split; discriminate].
    unfold indices_in_range. cbn.
    repeat split; try apply fits_int_nil; try lia.
    left. split; [reflexivity | left; reflexivity].
  - pose proof (run_keeps op s IH Hfits) as Hkeeps.
    unfold wlp in Hkeeps. rewrite Hrun in Hkeeps. exact Hkeeps.
Qed.

(** ** What holds of an entered stage *)

Lemma fits_int_short {A : Type} (l : list A) : (length l <= 8)%nat -> fits_int l.
Proof.
  unfold fits_int, INT_MAX. change (2 ^ 31) with 2147483648. lia.
Qed.

Lemma response_fits_short (m : ResponseMessage) :
  (match payload_tracker_list m with
   | Some l => (length l <= 8)%nat
   | None => True
   end) ->
  (length (result_controller_list m) <= 8)%nat ->
  (length (result_hmd_list m) <= 8)%nat ->
  response_fits m.
Proof.
  unfold response_fits. intros Ht Hc Hh.
  destruct (payload_tracker_list m); repeat split; try apply fits_int_short; auto.
Qed.

(** One more operation on an entered stage, both stages evaluated. *)
Ltac entered_step H op :=
  lazymatch type of H with
  | entered ?s =>
      let r := eval vm_compute in (run op s) in
      lazymatch r with
      | Ok (tt, ?s', ?out) =>
          let H' := fresh "Hentered" in
          assert (H' : entered s')
            by (apply (entered_next s s' op out);
                [exact H
                | try exact I; apply response_fits_short; cbn; auto with arith
                | vm_compute; reflexivity]);
          clear H
      end
  end.

Ltac entered_first_step :=
  let r := eval vm_compute in (enter new_stage) in
  lazymatch r with
  | Ok (tt, ?s, ?out) =>
      let H := fresh "Hentered" in
      assert (H : entered s) by (apply (entered_first s out); vm_compute; reflexivity)
  end.

Ltac entered_finish :=
  lazymatch goal with
  | H : entered ?s |- entered ?t =>
      replace t with s by (vm_compute; reflexivity); exact H
  end.

Lemma entered_after_unplug : entered after_unplug.
Proof.
  entered_first_step.
  entered_step Hentered (OpTrackerListResponse (ok_trackers [sample_tracker])).
  entered_step Hentered0 (OpControllerListResponse (ok_controllers [])).
  entered_step Hentered (OpHmdListResponse (ok_hmds [])).
  entered_step Hentered0 (OpEvent controllerListUpdated).
  entered_step Hentered (OpTrackerListResponse (ok_trackers [])).
  entered_step Hentered0 (OpControllerListResponse (ok_controllers [])).
  entered_step Hentered (OpHmdListResponse (ok_hmds [])).
  entered_finish.
Qed.

Lemma entered_populated : entered populated.
Proof.
  entered_first_step.
  entered_step Hentered
    (OpTrackerListResponse (ok_trackers [sample_tracker; sample_tracker])).
  entered_step Hentered0 (OpControllerListResponse (ok_controllers sample_controllers)).
  entered_step Hentered
    (OpHmdListResponse (ok_hmds [mkProtocolHMD 0 Protocol_Morpheus 5])).
  entered_finish.
Qed.

Lemma get_selected_controller_result (s : AppStage_TrackerSettings) :
  indices_in_range s ->
  get_selected_controller s
  = Ok (if m_selectedControllerIndex s =? -1 then None
        else nth_error (m_controllerInfos s) (Z.to_nat (m_selectedControllerIndex s)),
        s, [])
  /\ (m_selectedControllerIndex s <> -1 ->
      nth_error (m_controllerInfos s) (Z.to_nat (m_selectedControllerIndex s))
      <> None).
Proof.
  intros (_ & Hc & _ & _ & Hic & _).
  unfold get_selected_controller, bind, this, ret, vector_at.
  destruct (Z.eqb_spec (m_selectedControllerIndex s) (-1)) as [Hnone | Hsome];
    cbn [negb]; [split; [reflexivity | contradiction] |].
  rewrite (to_size_t_index _ (m_controllerInfos s)) by (assumption || lia).
  destruct (Z.ltb_spec (m_selectedControllerIndex s)
              (Z.of_nat (length (m_controllerInfos s)))) as [_ | Hge]; [| lia].
  destruct (nth_error (m_controllerInfos s)
              (Z.to_nat (m_selectedControllerIndex s))) eqn:Hnth.
  - split; [reflexivity | discriminate].
  - apply nth_error_None in Hnth. lia.
Qed.

Lemma get_selected_hmd_result (s : AppStage_TrackerSettings) :
  indices_in_range s ->
  get_selected_hmd s
  = Ok (if m_selectedHmdIndex s =? -1 then None
        else nth_error (m_hmdInfos s) (Z.to_nat (m_selectedHmdIndex s)),
        s, [])
  /\ (m_selectedHmdIndex s <> -1 ->
      nth_error (m_hmdInfos s) (Z.to_nat (m_selectedHmdIndex s)) <> None).
Proof.
  intros (_ & _ & Hh & _ & _ & Hih).
  unfold get_selected_hmd, bind, this, ret, vector_at.
  destruct (Z.eqb_spec (m_selectedHmdIndex s) (-1)) as [Hnone | Hsome];
    cbn [negb]; [split; [reflexivity | contradiction] |].
  rewrite (to_size_t_index _ (m_hmdInfos s)) by (assumption || lia).
  destruct (Z.ltb_spec (m_selectedHmdIndex s)
              (Z.of_nat (length (m_hmdInfos s)))) as [_ | Hge]; [| lia].
  destruct (nth_error (m_hmdInfos s) (Z.to_nat (m_selectedHmdIndex s))) eqn:Hnth.
  - split; [reflexivity | discriminate].
  - apply nth_error_None in Hnth. lia.
Qed.

(** X17. However the stage got where it is after enter -- responses in any
    order and with any lists, events, button presses --, the selected
    controller and HMD indices are -1 or point into their lists, and the
    selected tracker index points into the tracker list whenever there is a
    tracker; so get_selected_controller and get_selected_hmd return the
    selected entry, or null exactly when the index is -1, and never read
    outside a list. *)
Theorem selection_stays_in_range :
  forall s : AppStage_TrackerSettings,
    entered s ->
    indices_in_range s
    /\ get_selected_controller s
       = Ok (if m_selectedControllerIndex s =? -1 then None
             else nth_error (m_controllerInfos s)
                    (Z.to_nat (m_selectedControllerIndex s)),
             s, [])
    /\ (m_selectedControllerIndex s <> -1 ->
        nth_error (m_controllerInfos s) (Z.to_nat (m_selectedControllerIndex s))
        <> None)
    /\ get_selected_hmd s
       = Ok (if m_selectedHmdIndex s =? -1 then None
             else nth_error (m_hmdInfos s) (Z.to_nat (m_selectedHmdIndex s)),
             s, [])
    /\ (m_selectedHmdIndex s <> -1 ->
        nth_error (m_hmdInfos s) (Z.to_nat (m_selectedHmdIndex s)) <> None).
Proof.
  intros s Hentered.
  destruct (entered_invariant s Hentered) as (Hidx & _).
  destruct (get_selected_controller_result s Hidx) as [Hc Hc'].
  destruct (get_selected_hmd_result s Hidx) as [Hh Hh'].
  split; [exact Hidx |]. split; [exact Hc |]. split; [exact Hc' |].
  split; [exact Hh | exact Hh'].
Qed.

Lemma selection_stays_in_range_witness :
  entered populated
  /\ get_selected_controller populated = Ok (Some (mkControllerInfo 3 PSMove 1), populated, [])
  /\ get_selected_hmd after_unplug = Ok (None, after_unplug, []).
Proof.
  split; [exact entered_populated |]. split.
  - exact (proj1 (proj2 (selection_stays_in_range populated entered_populated))).
  - exact (proj1 (proj2 (proj2 (proj2
             (selection_stays_in_range after_unplug entered_after_unplug))))).
Defined.

(** X18. From enter on, renderUI always goes through, whatever buttons are
    pressed in the frame: it never indexes a list outside its bounds and
    never reaches the "unreachable" assertion of its switch on the menu
    state (tracker types and drivers are the enumerators the file names, so
    the defaults of those switches are not in question); it leaves the
    three lists as they are and the selection in range. *)
Theorem renderUI_goes_through :
  forall (s : AppStage_TrackerSettings) (clicked : clicks),
    entered s ->
    exists (s' : AppStage_TrackerSettings) (out : list action),
      renderUI clicked s = Ok (tt, s', out)
      /\ entered s'
      /\ same_devices s s'.
Proof.
  intros s clicked Hentered.
  pose proof (renderUI_keeps clicked s (entered_invariant s Hentered)) as Hwp.
  apply wp_result in Hwp as ([] & s' & out & Hrun & _ & Hsame).
  exists s', out. split; [exact Hrun |]. split; [| exact Hsame].
  apply (entered_next s s' (OpRenderUI clicked) out);
    [exact Hentered | exact I | exact Hrun].
Qed.

Lemma renderUI_goes_through_witness :
  entered populated
  /\ exists (s' : AppStage_TrackerSettings) (out : list action),
       renderUI (fun label => String.eqb label "<##Controller") populated
       = Ok (tt, s', out)
       /\ entered s'
       /\ same_devices populated s'.
Proof.
  split; [exact entered_populated |].
  exact (renderUI_goes_through populated _ entered_populated).
Defined.

Lemma render_result (s : AppStage_TrackerSettings) :
  stage_invariant s ->
  render s <> AssertionFailed
  /\ (render s = OutOfRange <->
      m_menuState s = idle /\ m_trackerInfos s = []
      /\ m_selectedTrackerIndex s = 0).
Proof.
  intros ((Ht & _ & _ & Hit & _ & _) & Hactive & _).
  unfold render, bind, this, ret, when, assert_unreachable.
  destruct (m_menuState s) eqn:Hmenu; try contradiction;
    try (split; [discriminate | split; [discriminate | intros (Hbad & _); discriminate]]).
  destruct Hit as [[Hempty [Hsel | Hsel]] | Hin].
  - rewrite Hsel, Hempty. cbn. split; [discriminate |].
    split; [discriminate | intros (_ & _ & Hbad); discriminate].
  - rewrite Hsel, Hempty. cbn. split; [discriminate |].
    split; [intros _; repeat split | reflexivity].
  - destruct (Z.leb_spec 0 (m_selectedTrackerIndex s)) as [_ | Hneg]; [| lia].
    pose proof (vector_at_stays (m_trackerInfos s) (m_selectedTrackerIndex s) s Ht Hin)
      as Hat.
    apply wp_result in Hat as (info & s' & out & Hat & ->).
    rewrite Hat. destruct info as [id [] driver name path]. cbn.
    split; [discriminate |]. split; [discriminate |].
    intros (_ & Hempty & _). rewrite Hempty in Hin. cbn in Hin. lia.
Qed.

(** X19. render, unlike renderUI, guards its read of the selected tracker
    by the index alone: from enter on it reads outside the tracker list
    exactly when the stage is idle, the list is empty and the index is 0,
    which is the state a refresh that finds no tracker leaves behind when a
    tracker was selected before it. Otherwise render goes through, and it
    never reaches the assertion of its switch on the menu state. *)
Theorem render_reads_past_an_emptied_tracker_list :
  (forall s : AppStage_TrackerSettings,
      entered s ->
      render s <> AssertionFailed
      /\ (render s = OutOfRange <->
          m_menuState s = idle /\ m_trackerInfos s = []
          /\ m_selectedTrackerIndex s = 0))
  /\ entered after_unplug
  /\ render after_unplug = OutOfRange
  /\ (forall (s : AppStage_TrackerSettings) (m : ResponseMessage),
        entered s ->
        m_selectedTrackerIndex s <> -1 ->
        result_code m = _clientPSMoveResultCode_ok ->
        payload_tracker_list m = Some [] ->
        exists (s' : AppStage_TrackerSettings) (out : list action),
          handle_tracker_list_response m s = Ok (tt, s', out)
          /\ m_trackerInfos s' = []
          /\ m_selectedTrackerIndex s' = 0).
Proof.
  split; [| split; [| split]].
  - intros s Hentered. apply render_result, entered_invariant, Hentered.
  - exact entered_after_unplug.
  - vm_compute. reflexivity.
  - intros s m Hentered Hsel Hcode Hpayload.
    destruct (entered_invariant s Hentered) as (Hidx & _).
    pose proof (index_bounds s Hidx) as (Hold & _ & _).
    eexists. eexists.
    split; [apply (handle_tracker_list_response_ok m [] s Hcode Hpayload) |].
    cbn. split; [reflexivity |].
    rewrite reselect_spec by exact Hold.
    destruct (Z.eqb_spec (m_selectedTrackerIndex s) (-1)); [contradiction |].
    destruct (Z.ltb_spec (m_selectedTrackerIndex s) (Z.of_nat 0));
      [cbn in *; lia | reflexivity].
Qed.

Lemma render_reads_past_an_emptied_tracker_list_witness :
  entered populated
  /\ m_selectedTrackerIndex populated <> -1
  /\ exists (s' : AppStage_TrackerSettings) (out : list action),
       handle_tracker_list_response (ok_trackers []) populated = Ok (tt, s', out)
       /\ m_trackerInfos s' = []
       /\ m_selectedTrackerIndex s' = 0.
Proof.
  assert (Hsel : m_selectedTrackerIndex populated <> -1) by (vm_compute; discriminate).
  split; [exact entered_populated |]. split; [exact Hsel |].
  destruct render_reads_past_an_emptied_tracker_list as (_ & _ & _ & Hrefresh).
  exact (Hrefresh populated (ok_trackers []) entered_populated Hsel eq_refl eq_refl).
Defined.

(** X20. The stage never shows failedHmdListRequest, and after enter never
    inactive: a failed or cancelled HMD list request is recorded as
    failedControllerListRequest, like a failed controller list request,
    and nothing else sets the state a failed HMD request would have. *)
Theorem hmd_failure_shows_as_controller_failure :
  (forall s : AppStage_TrackerSettings,
      entered s ->
      m_menuState s <> failedHmdListRequest /\ m_menuState s <> inactive)
  /\ (forall (m : ResponseMessage) (s : AppStage_TrackerSettings),
        result_code m <> _clientPSMoveResultCode_ok ->
        handle_hmd_list_response m s
        = Ok (tt, set_menuState failedControllerListRequest s, [])
        /\ handle_controller_list_response m s
           = Ok (tt, set_menuState failedControllerListRequest s, [])
        /\ handle_tracker_list_response m s
           = Ok (tt, set_menuState failedTrackerListRequest s, [])).
Proof.
  split.
  - intros s Hentered. destruct (entered_invariant s Hentered) as (_ & Ha & Hb).
    split; assumption.
  - intros m s Hcode. split; [| split].
    + apply handle_hmd_list_response_failed. exact Hcode.
    + apply handle_controller_list_response_failed. exact Hcode.
    + apply handle_tracker_list_response_failed. exact Hcode.
Qed.

Lemma hmd_failure_shows_as_controller_failure_witness :
  entered populated
  /\ result_code failed_response <> _clientPSMoveResultCode_ok
  /\ m_menuState (state_after (handle_hmd_list_response failed_response populated))
     = failedControllerListRequest.
Proof.
  destruct hmd_failure_shows_as_controller_failure as [_ Hfailed].
  assert (Hcode : result_code failed_response <> _clientPSMoveResultCode_ok)
    by discriminate.
  split; [exact entered_populated |]. split; [exact Hcode |].
  rewrite (proj1 (Hfailed failed_response populated Hcode)). reflexivity.
Defined.

(** X21. An ok tracker list response replaces the tracker list by the list
    received and keeps the selected index where it still points into the
    new list; an index that no longer does becomes 0, also when the new
    list is empty; with nothing selected before, the first tracker is
    selected, or nothing when there is none. The controller and HMD lists
    and selections are untouched, and the controller list is requested
    next, unless that request is the one the menu state already shows as
    pending. *)
Theorem tracker_list_response_keeps_position :
  forall (m : ResponseMessage) (l : list ClientTrackerInfo)
         (s : AppStage_TrackerSettings),
    result_code m = _clientPSMoveResultCode_ok ->
    payload_tracker_list m = Some l ->
    -1 <= m_selectedTrackerIndex s <= INT_MAX ->
    handle_tracker_list_response m s
    = Ok (tt,
          {| m_menuState := pendingControllerListRequest;
             m_trackerInfos := l;
             m_controllerInfos := m_controllerInfos s;
             m_hmdInfos := m_hmdInfos s;
             m_selectedTrackerIndex :=
               if m_selectedTrackerIndex s =? -1
               then (if 0 <? Z.of_nat (length l) then 0 else -1)
               else if m_selectedTrackerIndex s <? Z.of_nat (length l)
                    then m_selectedTrackerIndex s
                    else 0;
             m_selectedControllerIndex := m_selectedControllerIndex s;
             m_selectedHmdIndex := m_selectedHmdIndex s |},
          if eTrackerMenuState_eqb (m_menuState s) pendingControllerListRequest
          then [] else [SendControllerListRequest]).
Proof.
  intros m l s Hcode Hpayload Hold.
  rewrite (handle_tracker_list_response_ok m l s Hcode Hpayload).
  rewrite reselect_spec by exact Hold. reflexivity.
Qed.

Lemma tracker_list_response_keeps_position_witness :
  -1 <= m_selectedTrackerIndex populated <= INT_MAX
  /\ m_selectedTrackerIndex
       (state_after
          (handle_tracker_list_response (ok_trackers [sample_tracker])
             (set_selectedTrackerIndex 1 populated)))
     = 0.
Proof.
  split; [vm_compute; split; discriminate |].
  rewrite (tracker_list_response_keeps_position (ok_trackers [sample_tracker])
             [sample_tracker] (set_selectedTrackerIndex 1 populated)
             eq_refl eq_refl ltac:(vm_compute; split; discriminate)).
  reflexivity.
Defined.

Lemma listed_controllers_no_navi (l : list Protocol_Controller) :
  Forall (fun c => ControllerType c <> PSNavi) (listed_controllers l).
Proof.
  induction l as [| c l IH]; cbn [listed_controllers]; [constructor |].
  unfold listed_controller. destruct (controller_type c);
    [constructor; [discriminate | exact IH]
    | exact IH
    | constructor; [discriminate | exact IH]].
Qed.

(** X22. An ok controller list response lists the PSMove and DualShock4
    controllers of the response, in its order and with their ids and
    colours, and leaves the navigation controllers out; the selected index
    is kept where it still points into the new list and becomes -1 where
    it does not; with nothing selected before, the first controller is
    selected, or nothing when there is none. The HMD list is requested
    next, unless the menu state already showed that request as pending. *)
Theorem controller_list_response_drops_navi :
  forall (m : ResponseMessage) (s : AppStage_TrackerSettings),
    result_code m = _clientPSMoveResultCode_ok ->
    -1 <= m_selectedControllerIndex s <= INT_MAX ->
    let listed := listed_controllers (result_controller_list m) in
    handle_controller_list_response m s
    = Ok (tt,
          {| m_menuState := pendingHmdListRequest;
             m_trackerInfos := m_trackerInfos s;
             m_controllerInfos := listed;
             m_hmdInfos := m_hmdInfos s;
             m_selectedTrackerIndex := m_selectedTrackerIndex s;
             m_selectedControllerIndex :=
               if m_selectedControllerIndex s =? -1
               then (if 0 <? Z.of_nat (length listed) then 0 else -1)
               else if m_selectedControllerIndex s <? Z.of_nat (length listed)
                    then m_selectedControllerIndex s
                    else -1;
             m_selectedHmdIndex := m_selectedHmdIndex s |},
          if eTrackerMenuState_eqb (m_menuState s) pendingHmdListRequest
          then [] else [SendHmdListRequest])
    /\ Forall (fun c => ControllerType c <> PSNavi) listed
    /\ (length listed <= length (result_controller_list m))%nat.
Proof.
  intros m s Hcode Hold listed. subst listed.
  rewrite (handle_controller_list_response_ok m s Hcode).
  rewrite reselect_spec by exact Hold.
  split; [reflexivity |].
  split; [apply listed_controllers_no_navi | apply length_listed_controllers].
Qed.

Lemma controller_list_response_drops_navi_witness :
  -1 <= m_selectedControllerIndex populated <= INT_MAX
  /\ map ControllerID
       (m_controllerInfos
          (state_after
             (handle_controller_list_response (ok_controllers sample_controllers)
                populated)))
     = [3; 5].
Proof.
  split; [vm_compute; split; discriminate |].
  rewrite (proj1 (controller_list_response_drops_navi
                    (ok_controllers sample_controllers) populated
                    eq_refl ltac:(vm_compute; split; discriminate))).
  reflexivity.
Defined.

Lemma refresh_result (mt mc mh : ResponseMessage) (l : list ClientTrackerInfo)
    (s : AppStage_TrackerSettings) :
  result_code mt = _clientPSMoveResultCode_ok ->
  payload_tracker_list mt = Some l ->
  result_code mc = _clientPSMoveResultCode_ok ->
  result_code mh = _clientPSMoveResultCode_ok ->
  refresh mt mc mh s
  = Ok (tt,
        {| m_menuState := idle;
           m_trackerInfos := l;
           m_controllerInfos := listed_controllers (result_controller_list mc);
           m_hmdInfos :=
             map (fun h => mkHMDInfo (hmd_id h) Morpheus (hmd_tracking_color_type h))
               (result_hmd_list mh);
           m_selectedTrackerIndex := reselect (m_selectedTrackerIndex s) (length l) 0;
           m_selectedControllerIndex :=
             reselect (m_selectedControllerIndex s)
               (length (listed_controllers (result_controller_list mc))) (-1);
           m_selectedHmdIndex :=
             reselect (m_selectedHmdIndex s) (length (result_hmd_list mh)) (-1) |},
        (if eTrackerMenuState_eqb (m_menuState s) pendingControllerListRequest
         then [] else [SendControllerListRequest])
        ++ [SendHmdListRequest]).
Proof.
  intros Hct Hpt Hcc Hch. unfold refresh, bind.
  rewrite (handle_tracker_list_response_ok mt l s Hct Hpt).
  rewrite (handle_controller_list_response_ok mc _ Hcc).
  rewrite (handle_hmd_list_response_ok mh _ Hch).
  cbn. rewrite ?app_nil_r. reflexivity.
Qed.

(** X23. The three ok responses of a refresh, handled in order, leave the
    stage idle from whatever state it was in, with the three lists
    replaced; along the way the HMD list is always requested, and the
    controller list unless the menu state already showed that request as
    pending. *)
Theorem refresh_ends_idle :
  forall (mt mc mh : ResponseMessage) (l : list ClientTrackerInfo)
         (s : AppStage_TrackerSettings),
    result_code mt = _clientPSMoveResultCode_ok ->
    payload_tracker_list mt = Some l ->
    result_code mc = _clientPSMoveResultCode_ok ->
    result_code mh = _clientPSMoveResultCode_ok ->
    exists (s' : AppStage_TrackerSettings),
      refresh mt mc mh s
      = Ok (tt, s',
            (if eTrackerMenuState_eqb (m_menuState s) pendingControllerListRequest
             then [] else [SendControllerListRequest])
            ++ [SendHmdListRequest])
      /\ m_menuState s' = idle
      /\ m_trackerInfos s' = l
      /\ m_controllerInfos s' = listed_controllers (result_controller_list mc)
      /\ map HmdID (m_hmdInfos s') = map hmd_id (result_hmd_list mh).
Proof.
  intros mt mc mh l s Hct Hpt Hcc Hch.
  eexists. split; [apply (refresh_result mt mc mh l s Hct Hpt Hcc Hch) |].
  cbn. repeat split. rewrite map_map. reflexivity.
Qed.

Lemma refresh_ends_idle_witness :
  result_code (ok_trackers [sample_tracker]) = _clientPSMoveResultCode_ok
  /\ m_menuState
       (state_after
          (refresh (ok_trackers [sample_tracker]) (ok_controllers sample_controllers)
             (ok_hmds []) new_stage))
     = idle.
Proof.
  split; [reflexivity |].
  destruct (refresh_ends_idle (ok_trackers [sample_tracker])
              (ok_controllers sample_controllers) (ok_hmds [])
              [sample_tracker] new_stage eq_refl eq_refl eq_refl eq_refl)
    as (s' & Hrun & Hidle & _).
  rewrite Hrun. exact Hidle.
Defined.

(** X24. A tracker list request is not repeated while one is pending: the
    controllerListUpdated event is always reported as handled and leaves
    the stage waiting for the tracker list, but it sends the request only
    if the stage was not waiting for it already; any other event is
    reported as not handled and changes nothing. *)
Theorem tracker_list_request_is_not_repeated :
  forall s : AppStage_TrackerSettings,
    onClientAPIEvent controllerListUpdated s
    = Ok (true, set_menuState pendingTrackerListRequest s,
          if eTrackerMenuState_eqb (m_menuState s) pendingTrackerListRequest
          then [] else [SendTrackerListRequest])
    /\ (m_menuState s = pendingTrackerListRequest ->
        onClientAPIEvent controllerListUpdated s = Ok (true, s, []))
    /\ (request_tracker_list ;; request_tracker_list) s = request_tracker_list s
    /\ onClientAPIEvent otherEvent s = Ok (false, s, []).
Proof.
  intros s. split; [| split; [| split]].
  - unfold onClientAPIEvent, bind. rewrite request_tracker_list_result.
    cbn. rewrite ?app_nil_r. reflexivity.
  - intros Hpending. unfold onClientAPIEvent, bind.
    rewrite request_tracker_list_result, Hpending.
    destruct s as [ms ts cs hs it ic ih]. cbn in Hpending. subst ms. reflexivity.
  - unfold bind. rewrite !request_tracker_list_result. cbn.
    rewrite ?app_nil_r. destruct s as [ms ts cs hs it ic ih]. reflexivity.
  - reflexivity.
Qed.

Lemma tracker_list_request_is_not_repeated_witness :
  m_menuState (state_after (enter new_stage)) = pendingTrackerListRequest
  /\ onClientAPIEvent controllerListUpdated (state_after (enter new_stage))
     = Ok (true, state_after (enter new_stage), []).
Proof.
  split; [reflexivity |].
  exact (proj1 (proj2 (tracker_list_request_is_not_repeated
                         (state_after (enter new_stage)))) eq_refl).
Defined.

End TrackerSettingsProofs.
